(** * connect_to_cityworks.py: ArcGIS to Cityworks synchronisation

    A shallow embedding of [CityworksConnection/connect_to_cityworks.py]
    and the properties of its synchronisation pass.

    Python values are a small JSON-like datatype; the exceptions the
    script relies on for control flow ([KeyError], [TypeError],
    [AttributeError], ...) are explicit results; the two module globals,
    the feature services, the log file, the console and the sequence of
    HTTP calls are the state of a state-and-exception monad.  The remote
    systems (the Cityworks REST API, the ArcGIS attachment manager) are
    oracles collected in a record [World]: a response is a function of
    the request.

    What the script takes from the ArcGIS API is modelled as far as the
    script uses it: a layer is a list of features with integer object
    ids, a [where] clause is one of the two forms the script writes, an
    edit replaces the attributes it names in the feature with the same
    object id.  JSON numbers are integers and strings are byte strings,
    so [upper], [strip] and [int] are those of ASCII text. *)

From stdpp Require Import base option list strings gmap fin_maps pretty.
From Stdlib Require Import ZArith Ascii String Lia.

Local Open Scope string_scope.
Local Open Scope Z_scope.

Set Warnings "-register-all".

(** ** Python values and exceptions *)

(** Values as [json.loads] produces them and as feature attributes hold
    them.  JSON numbers are integers here; a dictionary is the list of
    its items in insertion order, each key once. *)
Inductive pyval : Type :=
  | PyNone
  | PyBool (b : bool)
  | PyInt (z : Z)
  | PyStr (s : string)
  | PyList (l : list pyval)
  | PyDict (d : list (string * pyval)).

(** The exception classes the script raises or catches, with the
    message [str(error)] renders. *)
Inductive exn : Type :=
  | KeyError (key : string)
  | TypeError (msg : string)
  | AttributeError (msg : string)
  | ValueError (msg : string)
  | IndexError (msg : string)
  | Exception_ (msg : string).

Inductive result (A : Type) : Type :=
  | Ok (a : A)
  | Raise (e : exn).
Arguments Ok {A} a.
Arguments Raise {A} e.

(** ** Strings *)

Module Str.

Definition upper_ascii (c : ascii) : ascii :=
  let n := nat_of_ascii c in
  if (97 <=? n)%nat && (n <=? 122)%nat then ascii_of_nat (n - 32) else c.

(** [s.upper()] on the ASCII letters; other bytes are kept. *)
Fixpoint upper (s : string) : string :=
  match s with
  | EmptyString => EmptyString
  | String c s' => String (upper_ascii c) (upper s')
  end.

(** The ASCII characters [str.isspace] accepts. *)
Definition is_space (c : ascii) : bool :=
  let n := nat_of_ascii c in
  ((9 <=? n)%nat && (n <=? 13)%nat) || ((28 <=? n)%nat && (n <=? 32)%nat).

Fixpoint lstrip (s : string) : string :=
  match s with
  | EmptyString => EmptyString
  | String c s' => if is_space c then lstrip s' else s
  end.

(** [rstrip s] drops the trailing white space: a character is kept
    when it is not a space or something after it is kept. *)
Fixpoint rstrip (s : string) : string :=
  match s with
  | EmptyString => EmptyString
  | String c s' =>
      match rstrip s' with
      | EmptyString => if is_space c then EmptyString else String c EmptyString
      | r => String c r
      end
  end.

(** [s.strip()] *)
Definition strip (s : string) : string := rstrip (lstrip s).

(** [needle in s] for two strings. *)
Fixpoint contains (needle s : string) : bool :=
  String.prefix needle s ||
  match s with
  | EmptyString => false
  | String _ s' => contains needle s'
  end.

(** [sep.join(l)] *)
Fixpoint join (sep : string) (l : list string) : string :=
  match l with
  | [] => ""
  | [x] => x
  | x :: l' => x ++ sep ++ join sep l'
  end.

(** [s.split(sep)] for a one-character separator: the pieces between
    the occurrences, never an empty list. *)
Fixpoint split (sep : ascii) (s : string) : list string :=
  match s with
  | EmptyString => [""]
  | String c s' =>
      if Ascii.eqb c sep then "" :: split sep s'
      else match split sep s' with
           | [] => [String c ""]
           | p :: ps => String c p :: ps
           end
  end.

(** [os.path.basename] on a POSIX path. *)
Definition basename (p : string) : string :=
  List.last (split "/" p) "".

Definition is_digit (c : ascii) : bool :=
  let n := nat_of_ascii c in (48 <=? n)%nat && (n <=? 57)%nat.

Definition digit_val (c : ascii) : Z := Z.of_nat (nat_of_ascii c - 48).

(** Digits of an integer literal; [int] allows single underscores
    between digits.  [prev] tells whether the previous character was a
    digit, [acc] is the value read so far. *)
Fixpoint digits (prev : bool) (acc : Z) (s : string) : option Z :=
  match s with
  | EmptyString => if prev then Some acc else None
  | String c s' =>
      if is_digit c then digits true (10 * acc + digit_val c) s'
      else if Ascii.eqb c "_" && prev then
             match s' with
             | String d _ => if is_digit d then digits false acc s' else None
             | EmptyString => None
             end
      else None
  end.

(** [int(s)] in base ten: surrounding white space, an optional sign,
    then digits. *)
Definition parse_int (s : string) : option Z :=
  match strip s with
  | String "-" r => Z.opp <$> digits false 0 r
  | String "+" r => digits false 0 r
  | r => digits false 0 r
  end.

End Str.

(** ** Operations on Python values *)

Definition hex_digit (n : nat) : ascii :=
  if (n <? 10)%nat then ascii_of_nat (48 + n) else ascii_of_nat (87 + n).

(** One character of [repr] of a string quoted with [q]. *)
Definition repr_char (q : ascii) (c : ascii) : string :=
  let n := nat_of_ascii c in
  if Ascii.eqb c "\" then "\\"
  else if Ascii.eqb c q then String "\" (String q "")
  else if (n =? 10)%nat then "\n"
  else if (n =? 13)%nat then "\r"
  else if (n =? 9)%nat then "\t"
  else if (n <? 32)%nat || (n =? 127)%nat
       then String "\" (String "x" (String (hex_digit (n / 16)) (String (hex_digit (n mod 16)) "")))
  else String c "".

Fixpoint repr_chars (q : ascii) (s : string) : string :=
  match s with
  | EmptyString => EmptyString
  | String c s' => repr_char q c ++ repr_chars q s'
  end.

Definition squote : ascii := ascii_of_nat 39.
Definition dquote : ascii := ascii_of_nat 34.

(** [repr(s)]: single quotes, unless the string holds a single quote and
    no double quote. *)
Definition repr_str (s : string) : string :=
  let q := if Str.contains (String squote "") s && negb (Str.contains (String dquote "") s)
           then dquote else squote in
  String q (repr_chars q s ++ String q "").

Fixpoint py_repr (v : pyval) : string :=
  match v with
  | PyNone => "None"
  | PyBool true => "True"
  | PyBool false => "False"
  | PyInt z => pretty z
  | PyStr s => repr_str s
  | PyList l => "[" ++ Str.join ", " (List.map py_repr l) ++ "]"
  | PyDict d =>
      "{" ++ Str.join ", "
               (List.map (λ kv, match kv with
                                | (k, x) => repr_str k ++ ": " ++ py_repr x
                                end) d) ++ "}"
  end.

(** [str(v)], also what ["{}".format(v)] inserts. *)
Definition py_str (v : pyval) : string :=
  match v with
  | PyStr s => s
  | _ => py_repr v
  end.

Fixpoint assoc (k : string) (d : list (string * pyval)) : option pyval :=
  match d with
  | [] => None
  | (k', v) :: d' => if String.eqb k k' then Some v else assoc k d'
  end.

(** [v[k]] for a string key. *)
Definition py_getitem (v : pyval) (k : string) : result pyval :=
  match v with
  | PyDict d =>
      match assoc k d with
      | Some x => Ok x
      | None => Raise (KeyError k)
      end
  | PyNone => Raise (TypeError "'NoneType' object is not subscriptable")
  | PyBool _ => Raise (TypeError "'bool' object is not subscriptable")
  | PyInt _ => Raise (TypeError "'int' object is not subscriptable")
  | PyStr _ => Raise (TypeError "string indices must be integers")
  | PyList _ => Raise (TypeError "list indices must be integers or slices, not str")
  end.

Fixpoint chars (s : string) : list pyval :=
  match s with
  | EmptyString => []
  | String c s' => PyStr (String c "") :: chars s'
  end.

(** The items [for x in v] visits. *)
Definition py_iter (v : pyval) : result (list pyval) :=
  match v with
  | PyList l => Ok l
  | PyDict d => Ok (List.map (λ kv, PyStr (fst kv)) d)
  | PyStr s => Ok (chars s)
  | PyNone => Raise (TypeError "'NoneType' object is not iterable")
  | PyBool _ => Raise (TypeError "'bool' object is not iterable")
  | PyInt _ => Raise (TypeError "'int' object is not iterable")
  end.

Definition type_name (v : pyval) : string :=
  match v with
  | PyNone => "NoneType"
  | PyBool _ => "bool"
  | PyInt _ => "int"
  | PyStr _ => "str"
  | PyList _ => "list"
  | PyDict _ => "dict"
  end.

Definition no_attribute (v : pyval) (a : string) : exn :=
  AttributeError ("'" ++ type_name v ++ "' object has no attribute '" ++ a ++ "'").

(** [v.upper()] *)
Definition py_upper (v : pyval) : result string :=
  match v with
  | PyStr s => Ok (Str.upper s)
  | _ => Raise (no_attribute v "upper")
  end.

(** [v.strip()] *)
Definition py_strip (v : pyval) : result string :=
  match v with
  | PyStr s => Ok (Str.strip s)
  | _ => Raise (no_attribute v "strip")
  end.

(** [int(v)] *)
Definition py_int (v : pyval) : result Z :=
  match v with
  | PyInt z => Ok z
  | PyBool b => Ok (if b then 1 else 0)
  | PyStr s =>
      match Str.parse_int s with
      | Some z => Ok z
      | None => Raise (ValueError ("invalid literal for int() with base 10: " ++ repr_str s))
      end
  | _ => Raise (TypeError ("int() argument must be a string, a bytes-like object or a real number, not '"
                           ++ type_name v ++ "'"))
  end.

Definition is_warning_item (v : pyval) : bool :=
  match v with
  | PyStr s => String.eqb s "WARNING"
  | _ => false
  end.

(** ["WARNING" in v]: a substring test on a string, membership on a list,
    a key test on a dictionary, and a [TypeError] on anything else. *)
Definition warning_in (v : pyval) : result bool :=
  match v with
  | PyStr s => Ok (Str.contains "WARNING" s)
  | PyList l => Ok (existsb is_warning_item l)
  | PyDict d => Ok (bool_decide (is_Some (assoc "WARNING" d)))
  | _ => Raise (TypeError ("argument of type '" ++ type_name v ++ "' is not iterable"))
  end.

(** [v is not 0]: only the integer zero is the object [0]. *)
Definition is_not_0 (v : pyval) : bool :=
  match v with
  | PyInt 0 => false
  | _ => true
  end.

(** [v == s] for a string literal [s]. *)
Definition eq_str (v : pyval) (s : string) : bool :=
  match v with
  | PyStr s' => String.eqb s' s
  | _ => false
  end.

(** [str(error)] *)
Definition exn_str (e : exn) : string :=
  match e with
  | KeyError k => repr_str k
  | TypeError m | AttributeError m | ValueError m | IndexError m | Exception_ m => m
  end.

(** ** Features, configuration and the outside world *)

(** A feature of a layer or table: [row.attributes] and [row.geometry]. *)
Record Feature : Type := {
  attributes : gmap string pyval;
  geometry : pyval;
}.

(** One entry of [lyr.properties.relationships]. *)
Record Relationship : Type := {
  relatedTableId : Z;
  keyField : string;
}.

(** What the script reads of a feature layer or table. *)
Record LayerData : Type := {
  objectIdField : string;
  relationships : list Relationship;
  name : string;
  features : list Feature;
}.

(** The configuration document [event], with the shape section 6 of the
    specification gives it. *)
Record Config : Type := {
  cityworks_url : string;
  cityworks_username : string;
  cityworks_password : string;
  arcgis_url : string;
  arcgis_username : string;
  arcgis_password : string;
  arcgis_layers : list string;
  arcgis_tables : list string;
  fields_layers : list (string * string);
  fields_tables : list (string * string);
  fields_ids : string * string;
  fields_type : string * string;
  flag_field : string;
  flag_on : pyval;
  flag_off : pyval;
}.

(** The [params] of a request: the token and the [data] dictionary
    (sent as compact JSON, decoded again by the server). *)
Record Params : Type := {
  p_token : option pyval;
  p_data : option (gmap string pyval);
}.

(** The HTTP calls to Cityworks, in the order they are made. *)
Inductive Request : Type :=
  | Get (url : string) (params : Params)
  | PostFile (url : string) (params : Params) (filename : string).

(** The collaborators the script talks to. *)
Record World : Type := {
  (** [requests.get] followed by [json.loads] *)
  http_get : string → Params → result pyval;
  (** [requests.post] with a file, followed by [json.loads] *)
  http_post_file : string → Params → string → result pyval;
  (** [GIS(url, username, password)] *)
  gis_connect : string → string → string → result unit;
  (** [AttachmentManager(lyr).get_list(oid)] *)
  att_get_list : string → pyval → result (list pyval);
  (** [AttachmentManager(lyr).download(oid, id)]: the local path *)
  att_download : string → pyval → pyval → result string;
  (** the projection of a geometry to a spatial reference *)
  reproject : pyval → pyval → pyval;
  (** [datetime.now()] as text *)
  now : string;
}.

(** The mutable state of a run. *)
Record State : Type := {
  baseUrl : string;
  cw_token : pyval;
  portal : gmap string LayerData;
  log : list string;
  stdout : list string;
  requests : list Request;
}.

Definition set_baseUrl (u : string) (s : State) : State :=
  {| baseUrl := u; cw_token := cw_token s; portal := portal s;
     log := log s; stdout := stdout s; requests := requests s |}.
Definition set_cw_token (t : pyval) (s : State) : State :=
  {| baseUrl := baseUrl s; cw_token := t; portal := portal s;
     log := log s; stdout := stdout s; requests := requests s |}.
Definition set_portal (p : gmap string LayerData) (s : State) : State :=
  {| baseUrl := baseUrl s; cw_token := cw_token s; portal := p;
     log := log s; stdout := stdout s; requests := requests s |}.
Definition add_log (l : string) (s : State) : State :=
  {| baseUrl := baseUrl s; cw_token := cw_token s; portal := portal s;
     log := log s ++ [l]; stdout := stdout s; requests := requests s |}.
Definition add_stdout (l : string) (s : State) : State :=
  {| baseUrl := baseUrl s; cw_token := cw_token s; portal := portal s;
     log := log s; stdout := stdout s ++ [l]; requests := requests s |}.
Definition add_request (r : Request) (s : State) : State :=
  {| baseUrl := baseUrl s; cw_token := cw_token s; portal := portal s;
     log := log s; stdout := stdout s; requests := requests s ++ [r] |}.

(** ** The monad: state that survives an exception *)

Definition M (A : Type) : Type := State → result A * State.

Global Instance M_ret : MRet M := λ A a s, (Ok a, s).
Global Instance M_bind : MBind M := λ A B k m s,
  match m s with
  | (Ok a, s') => k a s'
  | (Raise e, s') => (Raise e, s')
  end.

Definition raise {A} (e : exn) : M A := λ s, (Raise e, s).
Definition lift {A} (r : result A) : M A := λ s, (r, s).
(** Reading a global or a component of the state. *)
Definition read {A} (f : State → A) : M A := λ s, (Ok (f s), s).
Definition modify (f : State → State) : M unit := λ s, (Ok tt, f s).

(** [try: m except ...: h]: the handler sees the exception and may
    decline it, which re-raises. *)
Definition try_except {A} (m : M A) (h : exn → option (M A)) : M A := λ s,
  match m s with
  | (Ok a, s') => (Ok a, s')
  | (Raise e, s') =>
      match h e with
      | Some k => k s'
      | None => (Raise e, s')
      end
  end.

(** [for x in l: acc = body x acc] *)
Fixpoint for_fold {A B} (l : list A) (acc : B) (body : A → B → M B) : M B :=
  match l with
  | [] => mret acc
  | x :: l' => acc' ← body x acc; for_fold l' acc' body
  end.

(** [for x in l: body x] *)
Definition for_each {A} (l : list A) (body : A → M unit) : M unit :=
  for_fold l tt (λ x _, body x).

Definition nl : string := String (ascii_of_nat 10) "".

(** ** Status reporter *)

Definition log_to_file : bool := true.

Definition log_write (l : string) : M unit := modify (add_log l).
Definition print (l : string) : M unit := modify (add_stdout (l ++ nl)).

(** The recurring [if log_to_file: log.write(msg) else: print(msg)]. *)
Definition report (msg : string) : M unit :=
  if log_to_file then log_write msg else print msg.

(** ** The feature service *)

(** The [where] clauses the script issues: [field='literal'] and
    [field IS NULL]. *)
Inductive Where : Type :=
  | WhereEq (field literal : string)
  | WhereIsNull (field : string).

(** A feature satisfies [field='literal'] when the field holds a value
    whose text is the literal; null satisfies no comparison. *)
Definition eval_where (w : Where) (f : Feature) : bool :=
  match w with
  | WhereEq fld lit =>
      match attributes f !! fld with
      | Some PyNone | None => false
      | Some a => String.eqb (py_str a) lit
      end
  | WhereIsNull fld =>
      match attributes f !! fld with
      | Some PyNone => true
      | _ => false
      end
  end.

(** The object id of a feature: an integer attribute. *)
Definition oid_of (oidf : string) (f : Feature) : option Z :=
  match attributes f !! oidf with
  | Some (PyInt z) => Some z
  | _ => None
  end.

(** An update overwrites the attributes it names, and the geometry, of
    the stored feature with the same object id. *)
Definition merge_update (u f : Feature) : Feature :=
  {| attributes := attributes u ∪ attributes f; geometry := geometry u |}.

Definition apply_update (oidf : string) (fs : list Feature) (u : Feature) : list Feature :=
  match oid_of oidf u with
  | Some z =>
      List.map (λ f, if bool_decide (oid_of oidf f = Some z) then merge_update u f else f) fs
  | None => fs
  end.

Definition update_result (oidf : string) (fs : list Feature) (u : Feature) : pyval :=
  match oid_of oidf u with
  | Some z =>
      PyDict [("objectId", PyInt z);
              ("success", PyBool (existsb (λ f, bool_decide (oid_of oidf f = Some z)) fs))]
  | None => PyDict [("objectId", PyNone); ("success", PyBool false)]
  end.

Definition with_features (d : LayerData) (fs : list Feature) : LayerData :=
  {| objectIdField := objectIdField d; relationships := relationships d;
     name := name d; features := fs |}.

(** [FeatureLayer(url).properties]: loaded on first use, an exception
    when there is no such service. *)
Definition properties (url : string) : M LayerData :=
  p ← read portal;
  match (p : gmap string LayerData) !! url with
  | Some d => mret d
  | None => raise (Exception_ ("Invalid URL: " ++ url))
  end.

(** [lyr.query(where=w, out_sr=sr).features] *)
Definition query (reproj : pyval → pyval → pyval)
    (url : string) (w : Where) (out_sr : option pyval) : M (list Feature) :=
  d ← properties url;
  mret (List.map
          (λ f, match out_sr with
                | Some sr => {| attributes := attributes f; geometry := reproj sr (geometry f) |}
                | None => f
                end)
          (List.filter (eval_where w) (features d))).

(** [lyr.edit_features(updates=us)]: updates only, nothing is added or
    deleted. *)
Definition edit_features (url : string) (us : list Feature) : M pyval :=
  d ← properties url;
  let oidf := objectIdField d in
  let fs' := fold_left (apply_update oidf) us (features d) in
  p ← read portal;
  modify (set_portal (<[url := with_features d fs']> p));;
  mret (PyDict [("addResults", PyList []);
                ("updateResults", PyList (List.map (update_result oidf (features d)) us));
                ("deleteResults", PyList [])]).

(** [d[k]] on an attribute dictionary. *)
Definition attr (d : gmap string pyval) (k : string) : M pyval :=
  match d !! k with
  | Some v => mret v
  | None => raise (KeyError k)
  end.

Definition getitem (v : pyval) (k : string) : M pyval := lift (py_getitem v k).

(** ** The script *)

(** What [get_problem_types] returns: the vocabulary, or a string. *)
Inductive ProbTypes : Type :=
  | Vocabulary (values : gmap string Z)
  | ProbTypesStr (s : string).

(** [prob_types[key]] *)
Definition prob_types_getitem (p : ProbTypes) (key : string) : result Z :=
  match p with
  | Vocabulary values =>
      match values !! key with
      | Some sid => Ok sid
      | None => Raise (KeyError key)
      end
  | ProbTypesStr _ => Raise (TypeError "string indices must be integers")
  end.

(** [url_pieces[-1] = x] *)
Fixpoint set_last (l : list string) (x : string) : list string :=
  match l with
  | [] => []
  | [_] => [x]
  | y :: l' => y :: set_last l' x
  end.

Section Script.

Variable W : World.

Definition get_response (url : string) (params : Params) : M pyval :=
  modify (add_request (Get url params));;
  lift (http_get W url params).

Definition get_cw_token (user pwd : string) : M string :=
  let data : gmap string pyval :=
    <["Password" := PyStr pwd]> (<["LoginName" := PyStr user]> ∅) in
  let params := {| p_token := None; p_data := Some data |} in
  base ← read baseUrl;
  let url := base ++ "/Services/authentication/authenticate" in
  response ← get_response url params;
  status ← getitem response "Status";
  if is_not_0 status then
    message ← getitem response "Message";
    mret ("error: " ++ py_str status ++ ": " ++ py_str message)
  else
    value ← getitem response "Value";
    token ← getitem value "Token";
    modify (set_cw_token token);;
    mret "success".

Definition get_wkid : M pyval :=
  token ← read cw_token;
  let params := {| p_token := Some token; p_data := None |} in
  base ← read baseUrl;
  let url := base ++ "/Services/AMS/Preferences/User" in
  response ← get_response url params;
  try_except
    (value ← getitem response "Value";
     getitem value "SpatialReference")
    (λ e, match e with
          | KeyError _ => Some (mret (PyStr "error"))
          | _ => None
          end).

Definition get_problem_types : M ProbTypes :=
  let data : gmap string pyval := <["ForPublicOnly" := PyStr "true"]> ∅ in
  token ← read cw_token;
  let params := {| p_token := Some token; p_data := Some data |} in
  base ← read baseUrl;
  let url := base ++ "/Services/AMS/ServiceRequest/Problems" in
  try_except
    (response ← get_response url params;
     vals ← getitem response "Value";
     items ← lift (py_iter vals);
     values ← for_fold items (∅ : gmap string Z)
                (λ val values,
                   sid ← getitem val "ProblemSid";
                   n ← lift (py_int sid);
                   code ← getitem val "ProblemCode";
                   key ← lift (py_upper code);
                   mret (<[key := n]> values));
     mret (Vocabulary values))
    (λ error, Some (mret (ProbTypesStr ("error: " ++ exn_str error)))).

Definition submit_to_cw (row : Feature) (prob_types : ProbTypes)
    (fields : list (string * string)) (oid : pyval)
    (typefields : string * string) : M pyval :=
  let attrs := attributes row in
  let geometry := geometry row in
  r ← try_except
        (v ← attr attrs typefields.2;
         key ← lift (py_upper v);
         prob_sid ← lift (prob_types_getitem prob_types key);
         mret (inr prob_sid))
        (λ e, match e with
              | KeyError _ =>
                  Some (v ← attr attrs typefields.2;
                        stripped ← lift (py_strip v);
                        if String.eqb stripped "" then
                          mret (inl ("WARNING: No problem type provided. Record "
                                     ++ py_str oid ++ " not exported." ++ nl))
                        else
                          v' ← attr attrs typefields.2;
                          mret (inl ("WARNING: Problem type " ++ py_str v'
                                     ++ " not found in Cityworks. Record "
                                     ++ py_str oid ++ " not exported." ++ nl)))
              | AttributeError _ =>
                  Some (mret (inl ("WARNING: Record " ++ py_str oid
                                   ++ " not exported due to missing value in field "
                                   ++ typefields.2 ++ nl)))
              | _ => None
              end);
  match r with
  | inl warning => mret (PyStr warning)
  | inr prob_sid =>
      values ← for_fold fields (∅ : gmap string pyval)
                 (λ fieldset values,
                    let '(c_field, a_field) := fieldset in
                    v ← attr attrs a_field;
                    mret (<[c_field := PyStr (py_str v)]> values));
      x ← getitem geometry "x";
      let values := <["X" := x]> values in
      y ← getitem geometry "y";
      let values := <["Y" := y]> values in
      let values := <[typefields.1 := PyInt prob_sid]> values in
      token ← read cw_token;
      let params := {| p_token := Some token; p_data := Some values |} in
      base ← read baseUrl;
      let url := base ++ "/Services/AMS/ServiceRequest/Create" in
      response ← get_response url params;
      try_except
        (value ← getitem response "Value";
         getitem value "RequestId")
        (λ e, match e with
              | KeyError _ => Some (mret (PyStr "error"))
              | _ => None
              end)
  end.

(** [attachmentmgr] is the manager of the layer at [lyr]. *)
Definition copy_attachment (lyr : string) (attachment oid requestid : pyval) : M pyval :=
  id ← getitem attachment "id";
  attpath ← lift (att_download W lyr oid id);
  let data : gmap string pyval := <["RequestId" := requestid]> ∅ in
  token ← read cw_token;
  let params := {| p_token := Some token; p_data := Some data |} in
  base ← read baseUrl;
  let url := base ++ "/Services/AMS/Attachments/AddRequestAttachment" in
  modify (add_request (PostFile url params (Str.basename attpath)));;
  lift (http_post_file W url params (Str.basename attpath)).

Definition copy_comments (record parent : Feature)
    (fields : list (string * string)) (ids : string * string) : M pyval :=
  pid ← attr (attributes parent) ids.2;
  let values : gmap string pyval := <[ids.1 := pid]> ∅ in
  values ← for_fold fields values
             (λ field values,
                v ← attr (attributes record) field.2;
                mret (<[field.1 := v]> values));
  token ← read cw_token;
  let params := {| p_token := Some token; p_data := Some values |} in
  base ← read baseUrl;
  let url := base ++ "/Services/AMS/CustomerCall/AddToRequest" in
  get_response url params.

Definition get_parent (lyr pkey_fld : string) (record : Feature)
    (fkey_fld : string) : M Feature :=
  fk ← attr (attributes record) fkey_fld;
  parents ← query (reproject W) lyr (WhereEq pkey_fld (py_str fk)) None;
  match (parents : list Feature) return M Feature with
  | parent :: _ => mret parent
  | [] => raise (IndexError "list index out of range")
  end.

(** *** [main]

    The blocks of [main] are named after what they do; the line
    numbers are those of the source file. *)

(** [prob_types == "error"] *)
Definition prob_types_is_error (p : ProbTypes) : bool :=
  match p with
  | Vocabulary _ => false
  | ProbTypesStr s => String.eqb s "error"
  end.

(** Lines 249-257: the first relationship whose table URL is a
    configured table, else the empty string. *)
Fixpoint find_reltable (layer : string) (rels : list Relationship)
    (tables : list string) : string :=
  match rels with
  | [] => ""
  | relate :: rels' =>
      let url_pieces := set_last (Str.split "/" layer) (pretty (relatedTableId relate)) in
      let table_url := Str.join "/" url_pieces in
      if bool_decide (table_url ∈ tables) then table_url
      else find_reltable layer rels' tables
  end.

(** Lines 283-292: copy the attachments of a record and log the
    uploads whose status is not 0. *)
Definition copy_attachments (lyr : string) (oid requestid : pyval) : M unit :=
  attachments ← lift (att_get_list W lyr oid);
  for_each attachments
    (λ attachment,
       response ← copy_attachment lyr attachment oid requestid;
       status ← getitem response "Status";
       if is_not_0 status then
         msgs ← getitem response "ErrorMessages";
         report ("Error while copying attachment to Cityworks: " ++ py_str msgs ++ nl)
       else mret tt).

Definition set_attribute (k : string) (v : pyval) (f : Feature) : Feature :=
  {| attributes := <[k := v]> (attributes f); geometry := geometry f |}.

(** Lines 270-280: is the result of the submission a warning?  The
    [TypeError] of a result that is no container is taken as no. *)
Definition check_warning (requestid : pyval) : M bool :=
  try_except
    (w ← lift (warning_in requestid);
     if (w : bool) then
       report ("Warning generated while copying record to Cityworks: "
               ++ py_str requestid ++ nl);;
       mret true
     else mret false)
    (λ e, match e with
          | TypeError _ => Some (mret false)
          | _ => None
          end).

(** Lines 265-303: the body of the loop over the flagged rows; the
    result is [updated_rows] after the iteration. *)
Definition process_row (event : Config) (lyr oid_fld : string)
    (prob_types : ProbTypes) (row : Feature)
    (updated_rows : list Feature) : M (list Feature) :=
  oid ← attr (attributes row) oid_fld;
  requestid ← submit_to_cw row prob_types (fields_layers event) oid (fields_type event);
  skip ← check_warning requestid;
  if (skip : bool) then mret updated_rows
  else
    copy_attachments lyr oid requestid;;
    found ← query (reproject W) lyr (WhereEq oid_fld (py_str oid)) None;
    match (found : list Feature) return M (list Feature) with
    | [] => raise (IndexError "list index out of range")
    | row_orig :: _ =>
        let row_orig := set_attribute (flag_field event) (flag_off event) row_orig in
        (* assigning to a dictionary item raises no TypeError *)
        let row_orig := set_attribute (fields_ids event).2 requestid row_orig in
        mret (updated_rows ++ [row_orig])%list
    end.

(** Lines 259-311: query the flagged rows, submit them, write back. *)
Definition sync_rows (event : Config) (lyr oid_fld : string)
    (sr : pyval) (prob_types : ProbTypes) : M unit :=
  rows ← query (reproject W) lyr
           (WhereEq (flag_field event) (py_str (flag_on event))) (Some sr);
  updated_rows ← for_fold rows [] (process_row event lyr oid_fld prob_types);
  match (updated_rows : list Feature) return M unit with
  | [] => mret tt
  | _ =>
      status ← edit_features lyr updated_rows;
      report ("Status of updates to ArcGIS layers: " ++ py_str status ++ nl)
  end.

(** Lines 326-334: copy the attachments of a related record to the
    request of its parent; the id of the request is read from the
    parent at each upload. *)
Definition copy_related_attachments (event : Config) (rellyr : string)
    (rel_oid : pyval) (parent : Feature) : M unit :=
  attachments ← lift (att_get_list W rellyr rel_oid);
  for_each attachments
    (λ attachment,
       requestid ← attr (attributes parent) (fields_ids event).2;
       response ← copy_attachment rellyr attachment rel_oid requestid;
       status ← getitem response "Status";
       if is_not_0 status then
         msgs ← getitem response "ErrorMessages";
         report ("Error while copying attachment to Cityworks: " ++ py_str msgs ++ nl)
       else mret tt).

(** Lines 322-349: the body of the loop over the related records. *)
Definition process_related (event : Config) (lyr rellyr oid_fld pkey_fld fkey_fld : string)
    (record : Feature) (updated_rows : list Feature) : M (list Feature) :=
  rel_oid ← attr (attributes record) oid_fld;
  parent ← get_parent lyr pkey_fld record fkey_fld;
  copy_related_attachments event rellyr rel_oid parent;;
  response ← copy_comments record parent (fields_tables event) (fields_ids event);
  status ← getitem response "Status";
  if is_not_0 status then
    msgs ← getitem response "ErrorMessages";
    report ("Error while copying comment to Cityworks: " ++ py_str msgs ++ nl);;
    mret updated_rows
  else
    let record := set_attribute (flag_field event) (flag_off event) record in
    report ("Status of updates to Cityworks comments: " ++ py_str response ++ nl);;
    mret (updated_rows ++ [record])%list.

(** [l[0]["keyField"]] on the relationships of a layer. *)
Definition first_keyField (rels : list Relationship) : M string :=
  match rels with
  | r :: _ => mret (keyField r)
  | [] => raise (IndexError "list index out of range")
  end.

(** Lines 313-357: the related records of a layer. *)
Definition sync_related (event : Config) (lyr reltable oid_fld : string) : M unit :=
  d ← properties lyr;
  pkey_fld ← first_keyField (relationships d);
  rd ← properties reltable;
  fkey_fld ← first_keyField (relationships rd);
  rel_records ← query (reproject W) reltable (WhereIsNull (flag_field event)) None;
  updated_rows ← for_fold rel_records []
                   (process_related event lyr reltable oid_fld pkey_fld fkey_fld);
  match (updated_rows : list Feature) return M unit with
  | [] => mret tt
  | _ =>
      status ← edit_features reltable updated_rows;
      report ("Status of updates to ArcGIS comments: " ++ py_str status ++ nl)
  end.

(** Lines 245-359: the body of the loop over the layers. *)
Definition process_layer (event : Config) (sr : pyval) (prob_types : ProbTypes)
    (layer : string) : M unit :=
  d ← properties layer;
  let oid_fld := objectIdField d in
  let reltable := find_reltable layer (relationships d) (arcgis_tables event) in
  sync_rows event layer oid_fld sr prob_types;;
  sync_related event layer reltable oid_fld;;
  print ("Finished processing: " ++ name d).

(** Lines 211-242: connect, authenticate, spatial reference, problem
    types. *)
Definition setup (event : Config) : M (pyval * ProbTypes) :=
  lift (gis_connect W (arcgis_url event) (arcgis_username event) (arcgis_password event));;
  status ← get_cw_token (cityworks_username event) (cityworks_password event);
  (if Str.contains "error" status then
     report ("Failed to get Cityworks token. " ++ status ++ nl);;
     raise (Exception_ ("Failed to get Cityworks token.  " ++ status))
   else mret tt);;
  sr ← get_wkid;
  (if eq_str sr "error" then
     report ("Spatial reference not defined" ++ nl);;
     raise (Exception_ "Spatial reference not defined")
   else mret tt);;
  prob_types ← get_problem_types;
  (if prob_types_is_error prob_types then
     report ("Problem types not defined" ++ nl);;
     raise (Exception_ "Problem types not defined")
   else mret tt);;
  mret (sr, prob_types).

Definition main (event : Config) : M unit :=
  modify (set_baseUrl (cityworks_url event));;
  (if log_to_file then log_write (nl ++ nl ++ now W ++ nl) else mret tt);;
  try_except
    (p ← setup event;
     for_each (arcgis_layers event) (process_layer event p.1 p.2))
    (λ ex, Some (print ("error: " ++ exn_str ex))).

End Script.

(** The state a run starts from: the module globals are empty strings. *)
Definition initial_state (p : gmap string LayerData) : State :=
  {| baseUrl := ""; cw_token := PyStr ""; portal := p;
     log := []; stdout := []; requests := [] |}.

(** * Vocabulary of the properties *)

(** The result of running [m] in the state [s], and the state it leaves. *)
Definition value {A} (m : M A) (s : State) : result A := (m s).1.
Definition after {A} (m : M A) (s : State) : State := (m s).2.

(** The globals and the feature services are what a computation reads;
    the log, the console and the trace of requests are only written. *)
Definition same_env (s1 s2 : State) : Prop :=
  baseUrl s1 = baseUrl s2 ∧ cw_token s1 = cw_token s2 ∧ portal s1 = portal s2.

(** A computation is stable when it leaves the globals and the feature
    services alone and its result depends on nothing else. *)
Definition Stable {A} (m : M A) : Prop :=
  (∀ s, same_env s (after m s)) ∧
  (∀ s1 s2, same_env s1 s2 → value m s1 = value m s2).

(** The result with [f] applied to its value. *)
Definition result_map {A B} (f : A → B) (r : result A) : result B :=
  match r with
  | Ok a => Ok (f a)
  | Raise e => Raise e
  end.

(** The status [edit_features] returns. *)
Definition edit_status (oidf : string) (fs us : list Feature) : pyval :=
  PyDict [("addResults", PyList []);
          ("updateResults", PyList (List.map (update_result oidf fs) us));
          ("deleteResults", PyList [])].

(** What an update does to one stored feature. *)
Definition update_one (oidf : string) (f u : Feature) : Feature :=
  match oid_of oidf u with
  | Some z => if bool_decide (oid_of oidf f = Some z) then merge_update u f else f
  | None => f
  end.

(** The test of lines 270-280 as a function of the result. *)
Definition is_warn (requestid : pyval) : bool :=
  match warning_in requestid with
  | Ok b => b
  | Raise _ => false
  end.

(** The row queued for write-back: the stored row with the flag turned
    off and the external id recorded. *)
Definition written_back (event : Config) (requestid : pyval) (row_orig : Feature) : Feature :=
  set_attribute (fields_ids event).2 requestid
    (set_attribute (flag_field event) (flag_off event) row_orig).

(** The rows a query with [out_sr] returns, one per selected feature. *)
Definition projected (W : World) (sr : pyval) (f : Feature) : Feature :=
  {| attributes := attributes f; geometry := reproject W sr (geometry f) |}.

(** The features of a layer have integer object ids, no two the same. *)
Definition unique_oids (oidf : string) (fs : list Feature) : Prop :=
  Forall (λ f, is_Some (oid_of oidf f)) fs ∧ NoDup (List.map (oid_of oidf) fs).

(** What a loop queues for the stored feature [g]: nothing, leaving [g]
    as it is, or the single update [target g] of [g] itself. *)
Definition update_for (oidf : string) (target : Feature → Feature)
    (g : Feature) (new : list Feature) : Prop :=
  (new = [] ∧ target g = g) ∨
  (new = [target g] ∧ oid_of oidf (target g) = oid_of oidf g ∧
   merge_update (target g) g = target g).

(** The selection of line 260: the flag field holds the "on" value. *)
Definition flagged (event : Config) (f : Feature) : bool :=
  eval_where (WhereEq (flag_field event) (py_str (flag_on event))) f.

(** What [submit_to_cw] returns for the stored feature [f], queried with
    the spatial reference [sr], in the environment of [s]. *)
Definition submission (W : World) (event : Config) (sr : pyval)
    (prob_types : ProbTypes) (oidf : string) (s : State) (f : Feature) : result pyval :=
  match attributes f !! oidf with
  | Some oid =>
      value (submit_to_cw W (projected W sr f) prob_types
               (fields_layers event) oid (fields_type event)) s
  | None => Raise (KeyError oidf)
  end.

(** The stored feature after a completed pass. *)
Definition synced (W : World) (event : Config) (sr : pyval)
    (prob_types : ProbTypes) (oidf : string) (s : State) (f : Feature) : Feature :=
  if flagged event f then
    match submission W event sr prob_types oidf s f with
    | Ok requestid =>
        if is_warn requestid then f else written_back event requestid f
    | Raise _ => f
    end
  else f.

(** The problem type of a record cannot be resolved: the attribute is
    null or holds no string, or holds a string, blank or not, that is
    no key of the vocabulary. *)
Definition unresolved (vocab : gmap string Z) (attrs : gmap string pyval)
    (fld : string) : Prop :=
  match attrs !! fld with
  | Some (PyStr t) => vocab !! Str.upper t = None
  | Some _ => True
  | None => False
  end.

(** A status payload as section 4.1 of the specification describes it:
    a status, and error messages when the status is not 0. *)
Definition status_payload (response : pyval) : Prop :=
  ∃ status, py_getitem response "Status" = Ok status ∧
            (is_not_0 status = true →
             ∃ msgs, py_getitem response "ErrorMessages" = Ok msgs).

(** The line logged for the response to an upload, if any. *)
Definition attachment_error (response : pyval) : option string :=
  match py_getitem response "Status" with
  | Ok status =>
      if is_not_0 status then
        match py_getitem response "ErrorMessages" with
        | Ok msgs => Some ("Error while copying attachment to Cityworks: "
                           ++ py_str msgs ++ nl)
        | Raise _ => None
        end
      else None
  | Raise _ => None
  end.

(** The related record as it is queued: the flag field set. *)
Definition flag_set (event : Config) (record : Feature) : Feature :=
  set_attribute (flag_field event) (flag_off event) record.

(** The status of the comment-append call for a related record. *)
Definition comment_status (W : World) (event : Config) (lyr pkey_fld fkey_fld : string)
    (s : State) (record : Feature) : result pyval :=
  match value (get_parent W lyr pkey_fld record fkey_fld) s with
  | Ok parent =>
      match value (copy_comments W record parent (fields_tables event) (fields_ids event)) s with
      | Ok response => py_getitem response "Status"
      | Raise e => Raise e
      end
  | Raise e => Raise e
  end.

(** The stored related record after a completed pass. *)
Definition related_synced (W : World) (event : Config) (lyr pkey_fld fkey_fld : string)
    (s : State) (record : Feature) : Feature :=
  if eval_where (WhereIsNull (flag_field event)) record then
    match comment_status W event lyr pkey_fld fkey_fld s record with
    | Ok status => if is_not_0 status then record else flag_set event record
    | Raise _ => record
    end
  else record.

(** The line logged for a comment that Cityworks refused. *)
Definition comment_error (response : pyval) : string :=
  match py_getitem response "ErrorMessages" with
  | Ok msgs => "Error while copying comment to Cityworks: " ++ py_str msgs ++ nl
  | Raise _ => ""
  end.

(** The dictionary the loop of lines 119-121 builds on top of [acc]. *)
Definition mapped_fields (attrs : gmap string pyval) (fields : list (string * string))
    (acc : gmap string pyval) : gmap string pyval :=
  fold_left (λ values fieldset,
               <[fieldset.1 := PyStr (py_str (default PyNone (attrs !! fieldset.2)))]> values)
            fields acc.

(** What lines 134-138 make of the response to the create request. *)
Definition request_id_of (response : pyval) : result pyval :=
  match py_getitem response "Value" with
  | Ok v =>
      match py_getitem v "RequestId" with
      | Ok requestid => Ok requestid
      | Raise (KeyError _) => Ok (PyStr "error")
      | Raise e => Raise e
      end
  | Raise (KeyError _) => Ok (PyStr "error")
  | Raise e => Raise e
  end.

(** The payload of the create request. *)
Definition create_payload (attrs : gmap string pyval) (fields : list (string * string))
    (x y : pyval) (type_field : string) (sid : Z) : gmap string pyval :=
  <[type_field := PyInt sid]> (<["Y" := y]> (<["X" := x]> (mapped_fields attrs fields ∅))).

(** [f'] is [f] up to the flag field and the external-id attribute. *)
Definition only_flag_and_id_changed (event : Config) (f f' : Feature) : Prop :=
  geometry f' = geometry f ∧
  ∀ k, k ≠ flag_field event → k ≠ (fields_ids event).2 →
       attributes f' !! k = attributes f !! k.

(** A computation that leaves the feature service at [lyr] alone. *)
Definition Keeps {A} (lyr : string) (m : M A) : Prop :=
  ∀ s, portal (after m s) !! lyr = portal s !! lyr.

(** The layer [lyr] holds the record [f] among records with unique
    object ids: what every step of a run maintains for a record whose
    flag is not "on". *)
Definition holds_record (lyr oidf : string) (f : Feature) (s : State) : Prop :=
  ∃ d, portal s !! lyr = Some d ∧ objectIdField d = oidf ∧
       unique_oids oidf (features d) ∧ f ∈ features d.

(** ** A concrete deployment

    One layer of reports with a related table of comments, the
    configuration of the specification's example ([flag.on = "Y"],
    [flag.off = "N"], vocabulary [{"POTHOLE": 42}], field map
    [[["Comments", "desc"]]]) and a Cityworks that answers from fixed
    payloads. *)
Module Scenario.

Definition base : string := "https://cw".
Definition layer0 : string := "https://gis/FeatureServer/0".
Definition table1 : string := "https://gis/FeatureServer/1".

Definition event : Config := {|
  cityworks_url := base;
  cityworks_username := "cwuser";
  cityworks_password := "cwpwd";
  arcgis_url := "https://gis";
  arcgis_username := "gisuser";
  arcgis_password := "gispwd";
  arcgis_layers := [layer0];
  arcgis_tables := [table1];
  fields_layers := [("Comments", "desc")];
  fields_tables := [("Comments", "comment")];
  fields_ids := ("RequestId", "REPORTID");
  fields_type := ("ProblemSid", "probtype");
  flag_field := "flag";
  flag_on := PyStr "Y";
  flag_off := PyStr "N";
|}.

(** A report: object id, flag, problem type, external id, global id. *)
Definition report (oid : Z) (flag ptype extid : pyval) (gid : string) : Feature := {|
  attributes :=
    list_to_map [("OBJECTID", PyInt oid); ("flag", flag); ("probtype", ptype);
                 ("desc", PyStr "hole in the road"); ("REPORTID", extid);
                 ("GlobalID", PyStr gid)];
  geometry := PyDict [("x", PyInt 500100); ("y", PyInt 4649800)];
|}.

(** A comment on the report with global id [parent]. *)
Definition comment (oid : Z) (flag : pyval) (parent : string) : Feature := {|
  attributes :=
    list_to_map [("OBJECTID", PyInt oid); ("flag", flag);
                 ("comment", PyStr "still there"); ("parentid", PyStr parent)];
  geometry := PyNone;
|}.

Definition reports (fs : list Feature) : LayerData := {|
  objectIdField := "OBJECTID";
  relationships := [{| relatedTableId := 1; keyField := "GlobalID" |}];
  name := "reports";
  features := fs;
|}.

Definition comments (cs : list Feature) : LayerData := {|
  objectIdField := "OBJECTID";
  relationships := [{| relatedTableId := 0; keyField := "parentid" |}];
  name := "comments";
  features := cs;
|}.

Definition the_portal (fs cs : list Feature) : gmap string LayerData :=
  <[table1 := comments cs]> (<[layer0 := reports fs]> ∅).

Definition cw_response (status : Z) (errors : list pyval) (v : option pyval) : pyval :=
  PyDict ([("Status", PyInt status); ("Message", PyNone); ("ErrorMessages", PyList errors)]
          ++ match v with
             | Some x => [("Value", x)]
             | None => []
             end)%list.

Definition problems_ok : pyval :=
  cw_response 0 []
    (Some (PyList [PyDict [("ProblemCode", PyStr "Pothole"); ("ProblemSid", PyInt 42)]])).

(** A vocabulary entry whose id is no number. *)
Definition problems_malformed : pyval :=
  cw_response 0 []
    (Some (PyList [PyDict [("ProblemCode", PyStr "Pothole"); ("ProblemSid", PyStr "abc")]])).

Definition create_ok : pyval :=
  cw_response 0 [] (Some (PyDict [("RequestId", PyInt 7)])).

(** The answer to a rejected request: no value, so no request id. *)
Definition create_rejected : pyval :=
  cw_response 1 [PyStr "Invalid problem"] None.

(** Report 1 has two attachments; the upload of the second fails. *)
Definition world (problems create : pyval) : World := {|
  http_get url _ :=
    if String.eqb url (base ++ "/Services/authentication/authenticate")
    then Ok (cw_response 0 [] (Some (PyDict [("Token", PyStr "tok")])))
    else if String.eqb url (base ++ "/Services/AMS/Preferences/User")
    then Ok (cw_response 0 [] (Some (PyDict [("SpatialReference", PyInt 4326)])))
    else if String.eqb url (base ++ "/Services/AMS/ServiceRequest/Problems")
    then Ok problems
    else if String.eqb url (base ++ "/Services/AMS/ServiceRequest/Create")
    then Ok create
    else Ok (cw_response 0 [] None);
  http_post_file _ _ filename :=
    if String.eqb filename "2.png"
    then Ok (cw_response 1 [PyStr "File too large"] None)
    else Ok (cw_response 0 [] None);
  gis_connect _ _ _ := Ok tt;
  att_get_list url oid :=
    if String.eqb url layer0 && String.eqb (py_str oid) "1"
    then Ok [PyDict [("id", PyInt 1)]; PyDict [("id", PyInt 2)]]
    else Ok [];
  att_download _ _ id := Ok ("/tmp/" ++ py_str id ++ ".png");
  reproject _ g := g;
  now := "2016-10-31 12:00:00";
|}.

Definition W0 : World := world problems_ok create_ok.

(** The state once the setup has run. *)
Definition ready (fs cs : list Feature) : State :=
  set_cw_token (PyStr "tok") (set_baseUrl base (initial_state (the_portal fs cs))).

Definition vocabulary : gmap string Z := <["POTHOLE" := 42]> ∅.

Definition pothole : Feature := report 1 (PyStr "Y") (PyStr "pothole") PyNone "g1".
Definition blank : Feature := report 2 (PyStr "Y") (PyStr "  ") PyNone "g2".
Definition done_before : Feature := report 3 (PyStr "N") (PyStr "pothole") (PyInt 5) "g3".
Definition rejected : Feature := report 4 (PyStr "Y") (PyStr "pothole") PyNone "g4".
Definition remark : Feature := comment 1 PyNone "g3".
Definition orphan : Feature := comment 2 PyNone "nobody".

Definition is_add_to_request (r : Request) : bool :=
  match r with
  | Get url _ => String.eqb url (base ++ "/Services/AMS/CustomerCall/AddToRequest")
  | PostFile _ _ _ => false
  end.

End Scenario.

(** * More of the script: vocabulary *)

(** The request of [get_cw_token]: the credentials, no token. *)
Definition authenticate_request (base user pwd : string) : Request :=
  Get (base ++ "/Services/authentication/authenticate")
      {| p_token := None;
         p_data := Some (<["Password" := PyStr pwd]> (<["LoginName" := PyStr user]> ∅)) |}.

(** The request of [get_wkid]. *)
Definition preferences_request (base : string) (token : pyval) : Request :=
  Get (base ++ "/Services/AMS/Preferences/User")
      {| p_token := Some token; p_data := None |}.

(** The request of [get_problem_types]. *)
Definition problems_request (base : string) (token : pyval) : Request :=
  Get (base ++ "/Services/AMS/ServiceRequest/Problems")
      {| p_token := Some token;
         p_data := Some (<["ForPublicOnly" := PyStr "true"]> ∅) |}.

(** The answer of Cityworks to a request. *)
Definition answer (W : World) (r : Request) : result pyval :=
  match r with
  | Get url params => http_get W url params
  | PostFile url params filename => http_post_file W url params filename
  end.

(** [response[k1][k2]] *)
Definition nested_item (response : pyval) (k1 k2 : string) : result pyval :=
  match py_getitem response k1 with
  | Ok v => py_getitem v k2
  | Raise e => Raise e
  end.

(** Cityworks accepts the credentials of [event] and issues [token]. *)
Definition authenticates (W : World) (event : Config) (token : pyval) : Prop :=
  gis_connect W (arcgis_url event) (arcgis_username event) (arcgis_password event) = Ok tt ∧
  ∃ response,
    answer W (authenticate_request (cityworks_url event)
                (cityworks_username event) (cityworks_password event)) = Ok response ∧
    py_getitem response "Status" = Ok (PyInt 0) ∧
    nested_item response "Value" "Token" = Ok token.



(** The request of [submit_to_cw]. *)
Definition create_request (base : string) (token : pyval)
    (values : gmap string pyval) : Request :=
  Get (base ++ "/Services/AMS/ServiceRequest/Create")
      {| p_token := Some token; p_data := Some values |}.

(** The problem type of a record resolves to [sid]. *)
Definition resolves (vocab : gmap string Z) (attrs : gmap string pyval)
    (fld : string) (sid : Z) : Prop :=
  ∃ t, attrs !! fld = Some (PyStr t) ∧ vocab !! Str.upper t = Some sid.

(** The request of [copy_comments]. *)
Definition comment_request (base : string) (token : pyval)
    (values : gmap string pyval) : Request :=
  Get (base ++ "/Services/AMS/CustomerCall/AddToRequest")
      {| p_token := Some token; p_data := Some values |}.

(** The dictionary the loop of lines 165-166 builds on top of [acc]:
    the attributes as they are, not their text. *)
Definition comment_fields (attrs : gmap string pyval) (fields : list (string * string))
    (acc : gmap string pyval) : gmap string pyval :=
  fold_left (λ values field, <[field.1 := default PyNone (attrs !! field.2)]> values)
            fields acc.

(** The upload of the file at [path] for the request [requestid]. *)
Definition upload_request (base : string) (token requestid : pyval) (path : string) : Request :=
  PostFile (base ++ "/Services/AMS/Attachments/AddRequestAttachment")
           {| p_token := Some token; p_data := Some (<["RequestId" := requestid]> ∅) |}
           (Str.basename path).

(** The URL of lines 251-253 for a relationship of the layer. *)
Definition table_url (layer : string) (relate : Relationship) : string :=
  Str.join "/" (set_last (Str.split "/" layer) (pretty (relatedTableId relate))).

(** No "/" in the string. *)
Fixpoint no_slash (s : string) : bool :=
  match s with
  | EmptyString => true
  | String c s' => negb (Ascii.eqb c "/") && no_slash s'
  end.

(** A call that goes to the service at [base] and carries [token]. *)
Definition authorised (base : string) (token : pyval) (r : Request) : Prop :=
  match r with
  | Get url params | PostFile url params _ =>
      String.prefix base url = true ∧ p_token params = Some token
  end.

(** In the state [s] the computation leaves the two globals alone, and
    every call it adds to the trace is authorised by them. *)
Definition Sends {A} (s : State) (m : M A) : Prop :=
  baseUrl (after m s) = baseUrl s ∧ cw_token (after m s) = cw_token s ∧
  ∃ new, requests (after m s) = (requests s ++ new)%list ∧
         Forall (authorised (baseUrl s) (cw_token s)) new.

(** The state in which the [try] block of [main] starts. *)
Definition started (W : World) (event : Config) (s : State) : State :=
  add_log (nl ++ nl ++ now W ++ nl) (set_baseUrl (cityworks_url event) s).

(** * Scenarios of a run that does not go through *)

Module Faults.

(** The answer to a login Cityworks refuses. *)
Definition refused : pyval :=
  PyDict [("Status", PyInt 1); ("Message", PyStr "Invalid login")].

Definition granted : pyval :=
  Scenario.cw_response 0 [] (Some (PyDict [("Token", PyStr "tok")])).

(** The preferences of a user for whom no spatial reference is set. *)
Definition no_reference : pyval := PyDict [("Status", PyInt 0); ("Value", PyDict [])].

(** Preferences whose value is null. *)
Definition null_value : pyval := PyDict [("Status", PyInt 0); ("Value", PyNone)].

(** The world of [Scenario.W0] with other answers to the login and to
    the preferences. *)
Definition world (auth prefs : pyval) : World := {|
  http_get url params :=
    if String.eqb url (Scenario.base ++ "/Services/authentication/authenticate")
    then Ok auth
    else if String.eqb url (Scenario.base ++ "/Services/AMS/Preferences/User")
    then Ok prefs
    else http_get Scenario.W0 url params;
  http_post_file := http_post_file Scenario.W0;
  gis_connect := gis_connect Scenario.W0;
  att_get_list := att_get_list Scenario.W0;
  att_download := att_download Scenario.W0;
  reproject := reproject Scenario.W0;
  now := now Scenario.W0;
|}.

(** A flagged report that lacks the mapped attribute [desc]. *)
Definition unmapped : Feature := {|
  attributes :=
    list_to_map [("OBJECTID", PyInt 5); ("flag", PyStr "Y"); ("probtype", PyStr "pothole");
                 ("REPORTID", PyNone); ("GlobalID", PyStr "g5")];
  geometry := PyDict [("x", PyInt 500100); ("y", PyInt 4649800)];
|}.

(** A layer without relationships. *)
Definition lonely (fs : list Feature) : LayerData := {|
  objectIdField := "OBJECTID";
  relationships := [];
  name := "lonely";
  features := fs;
|}.

(** A related table whose object-id field is [FID], and a record of it. *)
Definition note : Feature := {|
  attributes :=
    list_to_map [("FID", PyInt 1); ("flag", PyNone);
                 ("comment", PyStr "still there"); ("parentid", PyStr "g3")];
  geometry := PyNone;
|}.

Definition notes (cs : list Feature) : LayerData := {|
  objectIdField := "FID";
  relationships := [{| relatedTableId := 0; keyField := "parentid" |}];
  name := "notes";
  features := cs;
|}.

Definition layer2 : string := "https://gis/FeatureServer/2".

(** The configuration of [Scenario.event] with a second layer. *)
Definition two_layers : Config := {|
  cityworks_url := cityworks_url Scenario.event;
  cityworks_username := cityworks_username Scenario.event;
  cityworks_password := cityworks_password Scenario.event;
  arcgis_url := arcgis_url Scenario.event;
  arcgis_username := arcgis_username Scenario.event;
  arcgis_password := arcgis_password Scenario.event;
  arcgis_layers := [Scenario.layer0; layer2];
  arcgis_tables := arcgis_tables Scenario.event;
  fields_layers := fields_layers Scenario.event;
  fields_tables := fields_tables Scenario.event;
  fields_ids := fields_ids Scenario.event;
  fields_type := fields_type Scenario.event;
  flag_field := flag_field Scenario.event;
  flag_on := flag_on Scenario.event;
  flag_off := flag_off Scenario.event;
|}.

(** The world of [Scenario.W0] where every related record has one
    attachment and Cityworks refuses the comments. *)
Definition closed_requests : World := {|
  http_get url params :=
    if String.eqb url (Scenario.base ++ "/Services/AMS/CustomerCall/AddToRequest")
    then Ok (Scenario.cw_response 1 [PyStr "Request closed"] None)
    else http_get Scenario.W0 url params;
  http_post_file := http_post_file Scenario.W0;
  gis_connect := gis_connect Scenario.W0;
  att_get_list url oid :=
    if String.eqb url Scenario.table1 then Ok [PyDict [("id", PyInt 9)]]
    else att_get_list Scenario.W0 url oid;
  att_download := att_download Scenario.W0;
  reproject := reproject Scenario.W0;
  now := now Scenario.W0;
|}.

(** The state after the setup, over a given portal. *)
Definition ready_on (p : gmap string LayerData) : State :=
  set_cw_token (PyStr "tok") (set_baseUrl Scenario.base (initial_state p)).

End Faults.

(** * Properties of the script *)

(** ** Running a computation *)

Lemma run_bind {A B} (m : M A) (k : A → M B) (s : State) :
  (m ≫= k) s =
  match m s with
  | (Ok a, s') => k a s'
  | (Raise e, s') => (Raise e, s')
  end.
Proof. reflexivity. Qed.

Lemma run_bind_ok {A B} (m : M A) (k : A → M B) s a s' :
  m s = (Ok a, s') → (m ≫= k) s = k a s'.
Proof. intros H. rewrite run_bind, H. reflexivity. Qed.

(** ** The environment of a loop *)

Global Instance same_env_equivalence : Equivalence same_env.
Proof.
  split.
  - intros s. repeat split.
  - intros s1 s2 (? & ? & ?). repeat split; congruence.
  - intros s1 s2 s3 (? & ? & ?) (? & ? & ?). repeat split; congruence.
Qed.

Create HintDb stable discriminated.

Section StableRules.

Lemma stable_ret {A} (a : A) : Stable (mret a).
Proof. split; [intros s; reflexivity | intros; reflexivity]. Qed.

Lemma stable_raise {A} (e : exn) : Stable (raise e : M A).
Proof. split; [intros s; reflexivity | intros; reflexivity]. Qed.

Lemma stable_lift {A} (r : result A) : Stable (lift r).
Proof. split; [intros s; reflexivity | intros; reflexivity]. Qed.

Lemma stable_bind {A B} (m : M A) (k : A → M B) :
  Stable m → (∀ a, Stable (k a)) → Stable (m ≫= k).
Proof.
  intros [Hf Hv] Hk. split.
  - intros s. unfold after. rewrite run_bind.
    specialize (Hf s). unfold after in Hf.
    destruct (m s) as [[a|e] s']; simpl in *; [|done].
    destruct (Hk a) as [Hkf _]. etrans; [exact Hf | apply Hkf].
  - intros s1 s2 Hs. unfold value. rewrite !run_bind.
    pose proof (Hv _ _ Hs) as Hv'. unfold value in Hv'.
    pose proof (Hf s1) as H1. pose proof (Hf s2) as H2. unfold after in *.
    destruct (m s1) as [[a1|e1] s1'], (m s2) as [[a2|e2] s2']; simplify_eq/=; [|done].
    destruct (Hk a2) as [_ Hkv]. apply Hkv.
    etrans; [symmetry; exact H1 |]. etrans; [exact Hs | exact H2].
Qed.

Lemma stable_try_except {A} (m : M A) (h : exn → option (M A)) :
  Stable m → (∀ e k, h e = Some k → Stable k) → Stable (try_except m h).
Proof.
  intros [Hf Hv] Hh. split.
  - intros s. unfold after, try_except.
    specialize (Hf s). unfold after in Hf.
    destruct (m s) as [[a|e] s']; simpl in *; [done|].
    destruct (h e) as [k|] eqn:He; simpl; [|done].
    destruct (Hh _ _ He) as [Hkf _]. etrans; [exact Hf | apply Hkf].
  - intros s1 s2 Hs. unfold value, try_except.
    pose proof (Hv _ _ Hs) as Hv'. unfold value in Hv'.
    pose proof (Hf s1) as H1. pose proof (Hf s2) as H2. unfold after in *.
    destruct (m s1) as [[a1|e1] s1'], (m s2) as [[a2|e2] s2']; simplify_eq/=; [done|].
    destruct (h e2) as [k|] eqn:He; simpl; [|done].
    destruct (Hh _ _ He) as [_ Hkv]. apply Hkv.
    etrans; [symmetry; exact H1 |]. etrans; [exact Hs | exact H2].
Qed.

Lemma stable_for_fold {A B} (l : list A) (acc : B) (body : A → B → M B) :
  (∀ x b, Stable (body x b)) → Stable (for_fold l acc body).
Proof.
  intros Hb. revert acc. induction l as [|x l IH]; intros acc; simpl.
  - apply stable_ret.
  - apply stable_bind; [apply Hb | intros; apply IH].
Qed.

End StableRules.

Lemma stable_read_baseUrl : Stable (read baseUrl).
Proof. split; [intros s; reflexivity | intros s1 s2 (? & ? & ?); unfold value; simpl; congruence]. Qed.

Lemma stable_read_cw_token : Stable (read cw_token).
Proof. split; [intros s; reflexivity | intros s1 s2 (? & ? & ?); unfold value; simpl; congruence]. Qed.

Lemma stable_read_portal : Stable (read portal).
Proof. split; [intros s; reflexivity | intros s1 s2 (? & ? & ?); unfold value; simpl; congruence]. Qed.

Lemma stable_log_write l : Stable (log_write l).
Proof. split; [intros s; repeat split | intros; reflexivity]. Qed.

Lemma stable_print l : Stable (print l).
Proof. split; [intros s; repeat split | intros; reflexivity]. Qed.

Lemma stable_add_request r : Stable (modify (add_request r)).
Proof. split; [intros s; repeat split | intros; reflexivity]. Qed.

Lemma stable_for_each {A} (l : list A) (body : A → M unit) :
  (∀ x, Stable (body x)) → Stable (for_each l body).
Proof. intros H. apply stable_for_fold. intros; apply H. Qed.

#[export] Hint Resolve stable_ret stable_raise stable_lift stable_read_baseUrl
  stable_read_cw_token stable_read_portal stable_log_write stable_print
  stable_add_request : stable.

(** Goes through a computation built from the combinators above. *)
Ltac stable :=
  repeat first
    [ progress intros
    | solve [auto with stable]
    | apply stable_bind
    | apply stable_for_fold
    | apply stable_for_each
    | apply stable_try_except
    | match goal with
      | H : Some _ = Some _ |- _ => injection H as <-
      | H : context [match ?x with _ => _ end] |- _ => destruct x; simplify_eq
      | |- Stable (match ?x with _ => _ end) => destruct x
      | |- Stable (let '(_, _) := ?x in _) => destruct x
      end ].

Lemma stable_report msg : Stable (report msg).
Proof. unfold report. stable. Qed.

Lemma stable_attr d k : Stable (attr d k).
Proof. unfold attr. stable. Qed.

Lemma stable_getitem v k : Stable (getitem v k).
Proof. unfold getitem. stable. Qed.

Lemma stable_properties url : Stable (properties url).
Proof. unfold properties. stable. Qed.

Lemma stable_query rp url w sr : Stable (query rp url w sr).
Proof. unfold query. stable. Qed.

#[export] Hint Resolve stable_report stable_attr stable_getitem stable_properties
  stable_query : stable.

Section StableScript.
Variable W : World.

Lemma stable_get_response url params : Stable (get_response W url params).
Proof. unfold get_response. stable. Qed.
Hint Resolve stable_get_response : stable.

Lemma stable_submit_to_cw row pt fields oid tf :
  Stable (submit_to_cw W row pt fields oid tf).
Proof. unfold submit_to_cw. stable. Qed.

Lemma stable_copy_attachment lyr att oid rid :
  Stable (copy_attachment W lyr att oid rid).
Proof. unfold copy_attachment. stable. Qed.
Hint Resolve stable_copy_attachment : stable.

Lemma stable_copy_attachments lyr oid rid :
  Stable (copy_attachments W lyr oid rid).
Proof. unfold copy_attachments. stable. Qed.

Lemma stable_check_warning rid : Stable (check_warning rid).
Proof. unfold check_warning. stable. Qed.

Lemma stable_copy_comments record parent fields ids :
  Stable (copy_comments W record parent fields ids).
Proof. unfold copy_comments. stable. Qed.

Lemma stable_get_parent lyr pk record fk :
  Stable (get_parent W lyr pk record fk).
Proof. unfold get_parent. stable. Qed.

Lemma stable_copy_related_attachments event rellyr rel_oid parent :
  Stable (copy_related_attachments W event rellyr rel_oid parent).
Proof. unfold copy_related_attachments. stable. Qed.

Hint Resolve stable_submit_to_cw stable_copy_attachments stable_check_warning
  stable_copy_comments stable_get_parent stable_copy_related_attachments : stable.

Lemma stable_process_row event lyr oid_fld pt row acc :
  Stable (process_row W event lyr oid_fld pt row acc).
Proof. unfold process_row. stable. Qed.

Lemma stable_process_related event lyr rellyr oid_fld pk fk record acc :
  Stable (process_related W event lyr rellyr oid_fld pk fk record acc).
Proof. unfold process_related. stable. Qed.

End StableScript.

(** ** Consequences of stability *)

Lemma stable_step {A} (m : M A) s0 s r s' :
  Stable m → same_env s0 s → m s = (r, s') →
  value m s0 = r ∧ same_env s0 s'.
Proof.
  intros [Hf Hv] Hs Hm. split.
  - rewrite (Hv _ _ Hs). unfold value. by rewrite Hm.
  - etrans; [exact Hs|]. specialize (Hf s). unfold after in Hf. by rewrite Hm in Hf.
Qed.

Lemma stable_run {A} (m : M A) s0 s r :
  Stable m → same_env s0 s → value m s0 = r →
  ∃ s', m s = (r, s') ∧ same_env s0 s'.
Proof.
  intros Hm Hs Hv. destruct (m s) as [r' s'] eqn:E.
  destruct (stable_step _ _ _ _ _ Hm Hs E) as [Hr Hs'].
  exists s'. split; [congruence | done].
Qed.

(** A loop that only appends to its accumulator, with a stable body:
    what it appends for an item is what the body appends to the empty
    list in the state the loop started from. *)
Lemma for_fold_collect {A B} (body : A → list B → M (list B)) :
  (∀ x acc, Stable (body x acc)) →
  (∀ x acc s, value (body x acc) s = result_map (List.app acc) (value (body x []) s)) →
  ∀ l acc s0 s U s',
    same_env s0 s → for_fold l acc body s = (Ok U, s') →
    same_env s0 s' ∧
    ∃ news, Forall2 (λ x new, value (body x []) s0 = Ok new) l news ∧
            U = (acc ++ List.concat news)%list.
Proof.
  intros Hst Hacc l. induction l as [|x l IH]; intros acc s0 s U s' Hs Hrun; simpl in Hrun.
  - inversion Hrun; subst. split; [done|]. exists []. split; [constructor|].
    simpl. by rewrite app_nil_r.
  - rewrite run_bind in Hrun.
    destruct (body x acc s) as [[acc1|e] s1] eqn:E; [|done].
    destruct (stable_step _ _ _ _ _ (Hst x acc) Hs E) as [Hv Hs1].
    rewrite Hacc in Hv.
    destruct (value (body x []) s0) as [new|] eqn:Hnew; simpl in Hv; [|done].
    inversion Hv; subst acc1.
    destruct (IH _ _ _ _ _ Hs1 Hrun) as [Hs' (news & Hall & ->)].
    split; [done|]. exists (new :: news). split; [by constructor|].
    simpl. by rewrite app_assoc.
Qed.

(** A loop with a stable body whose body faults on one of the items
    faults. *)
Lemma for_fold_raises {A B} (body : A → B → M B) (x : A) :
  (∀ y acc, Stable (body y acc)) →
  ∀ l acc s0 s,
    same_env s0 s → x ∈ l →
    (∀ acc', ∃ e, value (body x acc') s0 = Raise e) →
    ∃ e s', for_fold l acc body s = (Raise e, s') ∧ same_env s0 s'.
Proof.
  intros Hst l. induction l as [|y l IH]; intros acc s0 s Hs Hin Hx.
  - by apply elem_of_nil in Hin.
  - simpl. rewrite run_bind.
    destruct (body y acc s) as [[acc1|e] s1] eqn:E.
    + destruct (stable_step _ _ _ _ _ (Hst y acc) Hs E) as [Hv Hs1].
      apply elem_of_cons in Hin as [->|Hin].
      * destruct (Hx acc) as [e He]. congruence.
      * by apply IH.
    + destruct (stable_step _ _ _ _ _ (Hst y acc) Hs E) as [Hv Hs1]. eauto.
Qed.

(** ** The feature service *)

Lemma properties_run url s d :
  portal s !! url = Some d → properties url s = (Ok d, s).
Proof. intros H. unfold properties. rewrite run_bind. simpl. by rewrite H. Qed.

Lemma query_run rp url w sr s d :
  portal s !! url = Some d →
  query rp url w sr s =
  (Ok (List.map (λ f, match sr with
                      | Some r => {| attributes := attributes f; geometry := rp r (geometry f) |}
                      | None => f
                      end) (List.filter (eval_where w) (features d))), s).
Proof. intros H. unfold query. by rewrite (run_bind_ok _ _ _ _ _ (properties_run _ _ _ H)). Qed.

Lemma edit_features_run url us s d :
  portal s !! url = Some d →
  edit_features url us s =
  (Ok (edit_status (objectIdField d) (features d) us),
   set_portal (<[url := with_features d
                          (fold_left (apply_update (objectIdField d)) us (features d))]>
                 (portal s)) s).
Proof.
  intros H. unfold edit_features.
  rewrite (run_bind_ok _ _ _ _ _ (properties_run _ _ _ H)). reflexivity.
Qed.

Lemma apply_update_map oidf fs u :
  apply_update oidf fs u = List.map (λ f, update_one oidf f u) fs.
Proof.
  unfold apply_update, update_one. destruct (oid_of oidf u); [done|].
  by rewrite map_id.
Qed.

Lemma fold_apply_update oidf us fs :
  fold_left (apply_update oidf) us fs =
  List.map (λ f, fold_left (update_one oidf) us f) fs.
Proof.
  revert fs. induction us as [|u us IH]; intros fs; simpl.
  - by rewrite map_id.
  - rewrite IH, apply_update_map, map_map. reflexivity.
Qed.

Lemma update_one_oid oidf f u : oid_of oidf (update_one oidf f u) = oid_of oidf f.
Proof.
  unfold update_one. destruct (oid_of oidf u) as [z|] eqn:Hu; [|done].
  case_bool_decide as Hf; [|done].
  rewrite Hf. unfold oid_of in *. simpl.
  destruct (attributes u !! oidf) as [v|] eqn:Hv; [|done].
  by rewrite (lookup_union_Some_l _ _ _ _ Hv).
Qed.

Lemma fold_update_oid oidf us f :
  oid_of oidf (fold_left (update_one oidf) us f) = oid_of oidf f.
Proof.
  revert f. induction us as [|u us IH]; intros f; simpl; [done|].
  by rewrite IH, update_one_oid.
Qed.

(** Nothing is added or deleted by an edit: the object ids of the
    layer are the same, in the same order. *)
Lemma fold_apply_update_oids oidf us fs :
  List.map (oid_of oidf) (fold_left (apply_update oidf) us fs) = List.map (oid_of oidf) fs.
Proof.
  rewrite fold_apply_update, map_map. apply map_ext. intros f. apply fold_update_oid.
Qed.

(** ** One flagged row *)

Tactic Notation "inv_bind" hyp(H) "as" ident(a) ident(s) ident(E) :=
  rewrite run_bind in H;
  match type of H with
  | context [match ?m ?st with _ => _ end] =>
      destruct (m st) as [[a|?] s] eqn:E; [|try discriminate H]
  end.

Lemma check_warning_run requestid s :
  check_warning requestid s =
  (Ok (is_warn requestid),
   if is_warn requestid
   then add_log ("Warning generated while copying record to Cityworks: "
                 ++ py_str requestid ++ nl) s
   else s).
Proof.
  unfold check_warning, is_warn, try_except. rewrite run_bind. unfold lift.
  destruct (warning_in requestid) as [[|]|e] eqn:E; try reflexivity.
  destruct requestid; simpl in E; simplify_eq; reflexivity.
Qed.

Section Row.
Variable W : World.
Variable event : Config.
Variables lyr oid_fld : string.
Variable prob_types : ProbTypes.

Local Abbreviation process := (process_row W event lyr oid_fld prob_types).
Local Abbreviation submit row oid :=
  (submit_to_cw W row prob_types (fields_layers event) oid (fields_type event)).
Local Abbreviation requery oid := (query (reproject W) lyr (WhereEq oid_fld (py_str oid)) None).

(** What an iteration returns, read off the source. *)
Lemma process_row_inv row acc s acc' s' :
  process row acc s = (Ok acc', s') →
  ∃ oid requestid,
    attributes row !! oid_fld = Some oid ∧
    value (submit row oid) s = Ok requestid ∧
    ((is_warn requestid = true ∧ acc' = acc) ∨
     (is_warn requestid = false ∧
      value (copy_attachments W lyr oid requestid) s = Ok tt ∧
      ∃ row_orig rest,
        value (requery oid) s = Ok (row_orig :: rest) ∧
        acc' = (acc ++ [written_back event requestid row_orig])%list)).
Proof.
  intros H. unfold process_row in H.
  inv_bind H as oid s0 E. unfold attr in E.
  destruct (attributes row !! oid_fld) as [oid'|] eqn:Hoid; [|done].
  injection E as H1 H2. subst oid' s0.
  inv_bind H as requestid s1 E.
  exists oid, requestid. split; [done|]. split; [unfold value; by rewrite E|].
  assert (same_env s s1) as Hs1.
  { eapply (stable_step _ s s); [apply stable_submit_to_cw | done | exact E]. }
  rewrite run_bind, check_warning_run in H.
  destruct (is_warn requestid) eqn:Hw.
  - left. by injection H as <- _.
  - right. split; [done|].
    inv_bind H as u s2 E2. destruct u.
    pose proof (stable_step _ _ _ _ _ (stable_copy_attachments W lyr oid requestid) Hs1 E2)
      as [Hv Hs2].
    split; [done|].
    inv_bind H as found s3 E3.
    pose proof (stable_step _ _ _ _ _ (stable_query _ _ _ _) Hs2 E3) as [Hq Hs3].
    destruct found as [|row_orig rest]; [done|].
    injection H as <- _. eauto.
Qed.

(** The converse: when every step succeeds the row is queued. *)
Lemma process_row_queued row acc s oid requestid row_orig rest :
  attributes row !! oid_fld = Some oid →
  value (submit row oid) s = Ok requestid →
  is_warn requestid = false →
  value (copy_attachments W lyr oid requestid) s = Ok tt →
  value (requery oid) s = Ok (row_orig :: rest) →
  ∃ s', process row acc s =
          (Ok (acc ++ [written_back event requestid row_orig])%list, s') ∧
        same_env s s'.
Proof.
  intros Hoid Hsub Hw Hatt Hq. unfold process_row.
  rewrite run_bind. unfold attr at 1. rewrite Hoid. simpl.
  destruct (stable_run _ s s _ (stable_submit_to_cw W _ _ _ _ _) (reflexivity _) Hsub)
    as (s1 & E1 & Hs1).
  rewrite (run_bind_ok _ _ _ _ _ E1).
  rewrite run_bind, check_warning_run, Hw.
  destruct (stable_run _ s s1 _ (stable_copy_attachments W _ _ _) Hs1 Hatt)
    as (s2 & E2 & Hs2).
  rewrite (run_bind_ok _ _ _ _ _ E2).
  destruct (stable_run _ s s2 _ (stable_query _ _ _ _) Hs2 Hq) as (s3 & E3 & Hs3).
  rewrite (run_bind_ok _ _ _ _ _ E3).
  eauto.
Qed.

(** A warning skips the row: nothing is queued and no request made. *)
Lemma process_row_skipped row acc s oid requestid s1 :
  attributes row !! oid_fld = Some oid →
  submit row oid s = (Ok requestid, s1) →
  is_warn requestid = true →
  process row acc s =
    (Ok acc, add_log ("Warning generated while copying record to Cityworks: "
                      ++ py_str requestid ++ nl) s1).
Proof.
  intros Hoid Hsub Hw. unfold process_row.
  rewrite run_bind. unfold attr at 1. rewrite Hoid. simpl.
  rewrite (run_bind_ok _ _ _ _ _ Hsub).
  rewrite run_bind, check_warning_run, Hw. reflexivity.
Qed.

(** The accumulator is only appended to. *)
Lemma process_row_acc row acc s :
  value (process row acc) s = result_map (List.app acc) (value (process row []) s).
Proof.
  unfold value, process_row. rewrite !run_bind.
  destruct (attr (attributes row) oid_fld s) as [[oid|e] s0]; [|done].
  rewrite !run_bind.
  destruct (submit row oid s0) as [[requestid|e] s1]; [|done].
  rewrite !run_bind, !check_warning_run.
  destruct (is_warn requestid); simpl; [by rewrite app_nil_r|].
  rewrite !run_bind.
  destruct (copy_attachments W lyr oid requestid s1) as [[[]|e] s2]; [|done].
  rewrite !run_bind.
  destruct (requery oid s2) as [[[|row_orig rest]|e] s3]; done.
Qed.
End Row.

(** ** Object ids *)

Lemma oid_of_Some oidf f z :
  oid_of oidf f = Some z ↔ attributes f !! oidf = Some (PyInt z).
Proof.
  unfold oid_of. destruct (attributes f !! oidf) as [[]|]; naive_solver.
Qed.

Lemma oid_of_set_attribute oidf k v f :
  k ≠ oidf → oid_of oidf (set_attribute k v f) = oid_of oidf f.
Proof. intros Hk. unfold oid_of, set_attribute. simpl. by rewrite lookup_insert_ne. Qed.

Lemma NoDup_map_inj {A B} (k : A → B) (l : list A) x y :
  NoDup (List.map k l) → x ∈ l → y ∈ l → k x = k y → x = y.
Proof.
  induction l as [|a l IH]; simpl; intros Hnd Hx Hy Hk.
  - by apply elem_of_nil in Hx.
  - apply NoDup_cons in Hnd as [Ha Hnd].
    apply elem_of_cons in Hx as [->|Hx]; apply elem_of_cons in Hy as [->|Hy]; auto.
    + exfalso. apply Ha. rewrite Hk. apply list_elem_of_In, in_map, list_elem_of_In, Hy.
    + exfalso. apply Ha. rewrite <- Hk. apply list_elem_of_In, in_map, list_elem_of_In, Hx.
Qed.

Lemma filter_none {A} (p : A → bool) (l : list A) :
  (∀ y, y ∈ l → p y = false) → List.filter p l = [].
Proof.
  induction l as [|a l IH]; simpl; intros Hp; [done|].
  rewrite (Hp a (list_elem_of_here _ _)). apply IH. intros y Hy. apply Hp. by right.
Qed.

(** Selecting by a key that identifies [x] returns [x] alone. *)
Lemma filter_key_unique {A B} (k : A → B) (p : A → bool) (l : list A) x :
  NoDup (List.map k l) → x ∈ l →
  (∀ y, y ∈ l → p y = true ↔ k y = k x) →
  List.filter p l = [x].
Proof.
  induction l as [|a l IH]; simpl; intros Hnd Hx Hp.
  - by apply elem_of_nil in Hx.
  - apply NoDup_cons in Hnd as [Ha Hnd].
    destruct (p a) eqn:Hpa.
    + assert (a = x) as ->.
      { eapply (NoDup_map_inj k (a :: l)); [by apply NoDup_cons | by left | done |].
        apply Hp; [by left | done]. }
      f_equal. apply filter_none. intros y Hy.
      destruct (p y) eqn:Hpy; [|done]. exfalso. apply Ha.
      rewrite <- (proj1 (Hp y (list_elem_of_further _ _ _ Hy)) Hpy).
      apply list_elem_of_In, in_map, list_elem_of_In, Hy.
    + apply elem_of_cons in Hx as [->|Hx].
      * assert (p a = true) by (apply Hp; [by left | done]). congruence.
      * apply IH; [done..|]. intros y Hy. apply Hp. by right.
Qed.

Lemma eval_where_oid oidf fs g z :
  unique_oids oidf fs → g ∈ fs →
  eval_where (WhereEq oidf (py_str (PyInt z))) g = true ↔ oid_of oidf g = Some z.
Proof.
  intros [Hall _] Hg. rewrite Forall_forall in Hall.
  destruct (Hall g Hg) as [z' Hz']. rewrite Hz'.
  apply oid_of_Some in Hz'. simpl. rewrite Hz'. simpl.
  rewrite String.eqb_eq. split.
  - intros H. f_equal. by apply (inj pretty).
  - by intros [= ->].
Qed.

(** The query of line 296 finds the stored row of the object id. *)
Lemma requery_unique oidf fs f oid :
  unique_oids oidf fs → f ∈ fs → attributes f !! oidf = Some oid →
  List.filter (eval_where (WhereEq oidf (py_str oid))) fs = [f].
Proof.
  intros Hu Hf Hoid.
  assert (∃ z, oid = PyInt z ∧ oid_of oidf f = Some z) as (z & -> & Hz).
  { destruct Hu as [Hall _]. rewrite Forall_forall in Hall.
    destruct (Hall f Hf) as [z Hz]. exists z. split; [|done].
    apply oid_of_Some in Hz. congruence. }
  apply (filter_key_unique (oid_of oidf)); [apply Hu | done |].
  intros g Hg. rewrite Hz. by apply (eval_where_oid oidf fs).
Qed.

(** ** A batch of updates, at most one per feature *)

Lemma update_for_oid oidf target g new :
  update_for oidf target g new → oid_of oidf (target g) = oid_of oidf g.
Proof. intros [[_ ->]|(_ & H & _)]; done. Qed.

Lemma update_for_fold_self oidf target g new :
  is_Some (oid_of oidf g) → update_for oidf target g new →
  fold_left (update_one oidf) new g = target g.
Proof.
  intros [z Hz] [[-> ->]|(-> & Ho & Hm)]; simpl; [done|].
  unfold update_one. rewrite Ho, Hz. by rewrite bool_decide_eq_true_2.
Qed.

Lemma update_for_fold_other oidf target g new f :
  update_for oidf target g new → oid_of oidf f ≠ oid_of oidf g →
  fold_left (update_one oidf) new f = f.
Proof.
  intros [[-> _]|(-> & Ho & _)] Hne; simpl; [done|].
  unfold update_one. rewrite Ho. destruct (oid_of oidf g); [|done].
  by rewrite bool_decide_eq_false_2.
Qed.

Lemma fold_updates_other oidf target gs news f :
  Forall2 (update_for oidf target) gs news →
  oid_of oidf f ∉ List.map (oid_of oidf) gs →
  fold_left (update_one oidf) (List.concat news) f = f.
Proof.
  induction 1 as [|g new gs news Hg _ IH]; simpl; intros Hf; [done|].
  rewrite fold_left_app.
  rewrite (update_for_fold_other _ _ _ _ _ Hg).
  - apply IH. intros Hin. apply Hf. by right.
  - intros Heq. apply Hf. rewrite Heq. by left.
Qed.

Lemma fold_updates_self oidf target gs news g :
  Forall (λ g, is_Some (oid_of oidf g)) gs →
  NoDup (List.map (oid_of oidf) gs) →
  Forall2 (update_for oidf target) gs news →
  g ∈ gs →
  fold_left (update_one oidf) (List.concat news) g = target g.
Proof.
  intros Hsome Hnd Hall. revert Hsome Hnd.
  induction Hall as [|g' new gs news Hg Hall IH]; simpl; intros Hsome Hnd Hin.
  - by apply elem_of_nil in Hin.
  - apply Forall_cons in Hsome as [Hs Hsome].
    apply NoDup_cons in Hnd as [Hnotin Hnd].
    rewrite fold_left_app.
    apply elem_of_cons in Hin as [->|Hin].
    + rewrite (update_for_fold_self _ _ _ _ Hs Hg).
      apply (fold_updates_other _ _ _ _ _ Hall).
      by rewrite (update_for_oid _ _ _ _ Hg).
    + rewrite (update_for_fold_other _ _ _ _ _ Hg); [by apply IH|].
      intros Heq. apply Hnotin. rewrite <- Heq.
      apply list_elem_of_In, in_map, list_elem_of_In, Hin.
Qed.

Lemma NoDup_map_filter {A B} (k : A → B) (p : A → bool) (l : list A) :
  NoDup (List.map k l) → NoDup (List.map k (List.filter p l)).
Proof.
  induction l as [|a l IH]; simpl; intros Hnd; [done|].
  apply NoDup_cons in Hnd as [Ha Hnd].
  destruct (p a); simpl; [|by apply IH].
  apply NoDup_cons. split; [|by apply IH].
  intros Hin. apply Ha.
  apply list_elem_of_In, in_map_iff in Hin as (y & Hy & Hin).
  apply filter_In in Hin as [Hin _].
  rewrite <- Hy. apply list_elem_of_In, in_map, Hin.
Qed.

(** The layer after the batch: every selected feature is replaced by its
    target, the others are as they were. *)
Lemma fold_updates_layer oidf target (p : Feature → bool) fs news :
  unique_oids oidf fs →
  Forall2 (update_for oidf target) (List.filter p fs) news →
  (∀ f, p f = false → target f = f) →
  fold_left (apply_update oidf) (List.concat news) fs = List.map target fs.
Proof.
  intros [Hsome Hnd] Hall Hp.
  rewrite fold_apply_update. apply map_ext_in. intros f Hf.
  apply list_elem_of_In in Hf.
  destruct (p f) eqn:Hpf.
  - apply (fold_updates_self oidf target (List.filter p fs)); [| |done|].
    + rewrite Forall_forall in Hsome |- *. intros g Hg. apply Hsome.
      apply list_elem_of_In, filter_In in Hg as [Hg _]. by apply list_elem_of_In.
    + by apply NoDup_map_filter.
    + apply list_elem_of_In, filter_In. split; [by apply list_elem_of_In | done].
  - rewrite (Hp f Hpf).
    apply (fold_updates_other oidf target _ _ _ Hall).
    intros Hin.
    apply list_elem_of_In, in_map_iff in Hin as (g & Hg & Hin).
    apply filter_In in Hin as [Hin Hpg].
    assert (g = f) as ->; [|congruence].
    apply (NoDup_map_inj (oid_of oidf) fs); [done | by apply list_elem_of_In | done | done].
Qed.

(** ** The pass over the flagged rows of a layer *)

Lemma Forall2_map_l_in {A B C} (f : A → B) (P : B → C → Prop) (Q : A → C → Prop) l k :
  (∀ x y, x ∈ l → P (f x) y → Q x y) →
  Forall2 P (List.map f l) k → Forall2 Q l k.
Proof.
  revert k. induction l as [|a l IH]; simpl; intros k HPQ H.
  - inversion H. constructor.
  - inversion H as [|? y ? k' Hy Hk]; subst. constructor.
    + apply HPQ; [by left | done].
    + apply IH; [|done]. intros x z Hx. apply HPQ. by right.
Qed.

Lemma merge_written_back event requestid g :
  merge_update (written_back event requestid g) g = written_back event requestid g.
Proof.
  unfold merge_update, written_back, set_attribute. simpl. f_equal.
  apply map_eq. intros i. rewrite lookup_union.
  destruct (decide (i = (fields_ids event).2)) as [->|].
  { rewrite lookup_insert_eq. by destruct (attributes g !! _). }
  rewrite lookup_insert_ne by done.
  destruct (decide (i = flag_field event)) as [->|].
  { rewrite lookup_insert_eq. by destruct (attributes g !! _). }
  rewrite lookup_insert_ne by done.
  by destruct (attributes g !! i).
Qed.

Lemma with_features_id d : with_features d (features d) = d.
Proof. by destruct d. Qed.

Section SyncRows.
Variable W : World.
Variable event : Config.
Variable lyr : string.
Variable sr : pyval.
Variable prob_types : ProbTypes.
Variable d : LayerData.

Local Abbreviation oidf := (objectIdField d).

Hypothesis unique : unique_oids oidf (features d).
Hypothesis flag_not_oid : flag_field event ≠ oidf.
Hypothesis id_not_oid : (fields_ids event).2 ≠ oidf.

(** What the loop queues for a stored feature that was selected. *)
Lemma process_row_update s g new :
  portal s !! lyr = Some d →
  g ∈ List.filter (flagged event) (features d) →
  value (process_row W event lyr oidf prob_types (projected W sr g) []) s = Ok new →
  update_for oidf (synced W event sr prob_types oidf s) g new.
Proof.
  intros Hd Hg Hv.
  apply list_elem_of_In, filter_In in Hg as [Hg Hflag]. apply list_elem_of_In in Hg.
  unfold value in Hv.
  destruct (process_row W event lyr oidf prob_types (projected W sr g) [] s)
    as [r s1] eqn:E. simpl in Hv. subst r.
  apply process_row_inv in E as (oid & rid & Hoid & Hsub & Hcase). simpl in Hoid.
  assert (synced W event sr prob_types oidf s g =
          if is_warn rid then g else written_back event rid g) as Hsynced.
  { unfold synced, submission. by rewrite Hflag, Hoid, Hsub. }
  destruct Hcase as [[Hw ->]|(Hw & _ & row_orig & rest & Hq & ->)];
    rewrite Hw in Hsynced.
  - left. done.
  - right. unfold value in Hq. rewrite (query_run _ _ _ _ _ _ Hd) in Hq. simpl in Hq.
    rewrite map_id, (requery_unique _ _ _ _ unique Hg Hoid) in Hq.
    injection Hq as <- <-. rewrite Hsynced. simpl. split; [done|]. split.
    + unfold written_back. by rewrite !oid_of_set_attribute.
    + apply merge_written_back.
Qed.

(** A pass that completes leaves the layer with every feature synced;
    the globals and the other services are as before. *)
Lemma sync_rows_ok s s' :
  portal s !! lyr = Some d →
  sync_rows W event lyr oidf sr prob_types s = (Ok tt, s') →
  baseUrl s' = baseUrl s ∧ cw_token s' = cw_token s ∧
  portal s' =
    <[lyr := with_features d
               (List.map (synced W event sr prob_types oidf s) (features d))]> (portal s).
Proof.
  intros Hd H. unfold sync_rows in H.
  rewrite (run_bind_ok _ _ _ _ _ (query_run _ _ _ _ _ _ Hd)) in H.
  inv_bind H as U s1 E.
  apply (for_fold_collect _ (stable_process_row W event lyr oidf prob_types)
           (process_row_acc W event lyr oidf prob_types) _ _ s) in E
    as [(Hb & Ht & Hp) (news & Hall & ->)]; [|done].
  simpl in H.
  apply (Forall2_map_l_in _ _ (update_for oidf (synced W event sr prob_types oidf s)))
    in Hall; [|intros g new Hg; by apply process_row_update].
  pose proof (fold_updates_layer _ _ _ _ _ unique Hall) as Hfold.
  rewrite <- Hfold by (intros f Hf; unfold synced, flagged in *; by rewrite Hf).
  destruct (List.concat news) as [|u us] eqn:HU.
  - injection H as <-. simpl. rewrite with_features_id, insert_id by done. done.
  - assert (portal s1 !! lyr = Some d) as Hd1 by (by rewrite <- Hp).
    rewrite (run_bind_ok _ _ _ _ _ (edit_features_run _ _ _ _ Hd1)) in H.
    unfold report in H. simpl in H. injection H as <-. simpl.
    rewrite <- Hb, <- Ht, <- Hp. done.
Qed.

(** A pass that faults writes nothing back. *)
Lemma sync_rows_raise s e s' :
  portal s !! lyr = Some d →
  sync_rows W event lyr oidf sr prob_types s = (Raise e, s') →
  same_env s s'.
Proof.
  intros Hd H. unfold sync_rows in H.
  rewrite (run_bind_ok _ _ _ _ _ (query_run _ _ _ _ _ _ Hd)) in H.
  rewrite run_bind in H.
  match type of H with
  | context [for_fold ?l ?a ?b s] => destruct (for_fold l a b s) as [[U|e'] s1] eqn:E
  end.
  - exfalso.
    assert (same_env s s1) as (_ & _ & Hp).
    { eapply (stable_step _ s s); [|done|exact E].
      apply stable_for_fold. intros. apply stable_process_row. }
    destruct U as [|u us]; [done|].
    assert (portal s1 !! lyr = Some d) as Hd1 by (by rewrite <- Hp).
    rewrite (run_bind_ok _ _ _ _ _ (edit_features_run _ _ _ _ Hd1)) in H.
    unfold report in H. simpl in H. done.
  - injection H as <- <-.
    eapply (stable_step _ s s); [|done|exact E].
    apply stable_for_fold. intros. apply stable_process_row.
Qed.

End SyncRows.

(** ** The record mapper *)

Lemma contains_prefix needle s : String.prefix needle s = true → Str.contains needle s = true.
Proof. intros H. destruct s; simpl in *; rewrite H; done. Qed.

(** Unfolds the monad down to matches on results. *)
Ltac run_unfold :=
  unfold attr, getitem, try_except, mbind, M_bind, mret, M_ret, lift, raise,
    read, modify in *;
  simpl in *.

Lemma submit_to_cw_unresolved W row vocab fields oid tf s :
  unresolved vocab (attributes row) tf.2 →
  ∃ msg, submit_to_cw W row (Vocabulary vocab) fields oid tf s = (Ok (PyStr msg), s) ∧
         String.prefix "WARNING" msg = true.
Proof.
  destruct tf as [tf1 tf2]. simpl.
  unfold unresolved. intros H. unfold submit_to_cw.
  destruct (attributes row !! tf2) as [v|] eqn:Hv; [|done].
  run_unfold. rewrite !Hv. simpl.
  destruct v as [| b | z | t | l | dd]; simpl;
    try (eexists; split; [reflexivity | reflexivity]).
  rewrite H. rewrite ?Hv. simpl.
  destruct (String.eqb (Str.strip t) ""); simpl; rewrite ?Hv;
    eexists; (split; [reflexivity | reflexivity]).
Qed.

(** When the record has no such attribute at all, the lookup inside the
    handler of the [KeyError] faults again and the fault leaves the
    mapper. *)
Lemma submit_to_cw_missing_field W row prob_types fields oid tf s :
  attributes row !! tf.2 = None →
  submit_to_cw W row prob_types fields oid tf s = (Raise (KeyError tf.2), s).
Proof.
  destruct tf as [tf1 tf2]. simpl. intros H. unfold submit_to_cw.
  run_unfold. by rewrite !H.
Qed.

Lemma unique_oids_attr oidf fs f :
  unique_oids oidf fs → f ∈ fs → ∃ z, attributes f !! oidf = Some (PyInt z).
Proof.
  intros [Hall _] Hf. rewrite Forall_forall in Hall.
  destruct (Hall f Hf) as [z Hz]. exists z. by apply oid_of_Some.
Qed.

Lemma elem_of_map {A B} (f : A → B) (l : list A) x : x ∈ l → f x ∈ List.map f l.
Proof. intros H. apply list_elem_of_In, in_map, list_elem_of_In, H. Qed.

(** ** Claims about the pass over the flagged rows *)

(** C3. A flagged record whose problem type is blank, unknown to the
    vocabulary or missing makes the mapper return a warning without any
    request to Cityworks; the orchestrator queues no write-back for it;
    and after the pass over the layer, however it ends, the stored
    record is as it was, its flag still "on". *)
Theorem unresolved_problem_type_skipped W event lyr sr vocab d s f :
  portal s !! lyr = Some d →
  unique_oids (objectIdField d) (features d) →
  flag_field event ≠ objectIdField d →
  (fields_ids event).2 ≠ objectIdField d →
  f ∈ features d →
  flagged event f = true →
  unresolved vocab (attributes f) (fields_type event).2 →
  (∀ oid s0, ∃ msg,
      submit_to_cw W (projected W sr f) (Vocabulary vocab)
        (fields_layers event) oid (fields_type event) s0 = (Ok (PyStr msg), s0) ∧
      warning_in (PyStr msg) = Ok true) ∧
  (∀ acc s0, ∃ s1,
      process_row W event lyr (objectIdField d) (Vocabulary vocab)
        (projected W sr f) acc s0 = (Ok acc, s1) ∧
      requests s1 = requests s0 ∧ portal s1 = portal s0) ∧
  (∀ r s',
      sync_rows W event lyr (objectIdField d) sr (Vocabulary vocab) s = (r, s') →
      ∃ d', portal s' !! lyr = Some d' ∧ f ∈ features d' ∧ flagged event f = true).
Proof.
  intros Hd Hu Hfo Hio Hf Hflag Hun.
  assert (∀ oid s0, ∃ msg,
      submit_to_cw W (projected W sr f) (Vocabulary vocab)
        (fields_layers event) oid (fields_type event) s0 = (Ok (PyStr msg), s0) ∧
      is_warn (PyStr msg) = true) as Hsub.
  { intros oid s0.
    destruct (submit_to_cw_unresolved W (projected W sr f) vocab
                (fields_layers event) oid (fields_type event) s0 Hun) as (msg & E & Hp).
    exists msg. split; [done|]. unfold is_warn. simpl. by apply contains_prefix. }
  destruct (unique_oids_attr _ _ _ Hu Hf) as [z Hz].
  split; [|split].
  - intros oid s0. destruct (Hsub oid s0) as (msg & E & Hw).
    exists msg. split; [done|]. unfold is_warn in Hw. simpl in *. by rewrite Hw.
  - intros acc s0. destruct (Hsub (PyInt z) s0) as (msg & E & Hw).
    eexists. split.
    + apply (process_row_skipped W event lyr _ _ (projected W sr f) acc s0 _ _ s0 Hz E Hw).
    + done.
  - intros r s' Hrun.
    assert (synced W event sr (Vocabulary vocab) (objectIdField d) s f = f) as Hsy.
    { unfold synced, submission. rewrite Hflag, Hz.
      destruct (Hsub (PyInt z) s) as (msg & E & Hw). unfold value. rewrite E. simpl. by rewrite Hw. }
    destruct r as [[]|e].
    + destruct (sync_rows_ok W event lyr sr _ d Hu Hfo Hio s s' Hd Hrun) as (_ & _ & ->).
      rewrite lookup_insert_eq. eexists. split; [done|]. simpl. split; [|done].
      rewrite <- Hsy at 1. by apply elem_of_map.
    + destruct (sync_rows_raise W event lyr sr _ d s e s' Hd Hrun) as (_ & _ & <-).
      eauto.
Qed.

(** C4. When the submission of a flagged record returns an identifier
    (anything the orchestrator does not take for a warning) and the
    pass reaches its batch write-back, the stored record has the flag
    at the "off" value and the external-id attribute at the identifier. *)
Theorem submitted_record_written_back W event lyr sr prob_types d s s' f requestid :
  portal s !! lyr = Some d →
  unique_oids (objectIdField d) (features d) →
  flag_field event ≠ objectIdField d →
  (fields_ids event).2 ≠ objectIdField d →
  flag_field event ≠ (fields_ids event).2 →
  f ∈ features d →
  flagged event f = true →
  submission W event sr prob_types (objectIdField d) s f = Ok requestid →
  is_warn requestid = false →
  sync_rows W event lyr (objectIdField d) sr prob_types s = (Ok tt, s') →
  ∃ d' f',
    portal s' !! lyr = Some d' ∧ f' ∈ features d' ∧
    oid_of (objectIdField d) f' = oid_of (objectIdField d) f ∧
    attributes f' !! flag_field event = Some (flag_off event) ∧
    attributes f' !! (fields_ids event).2 = Some requestid.
Proof.
  intros Hd Hu Hfo Hio Hfi Hf Hflag Hsub Hw Hrun.
  destruct (sync_rows_ok W event lyr sr _ d Hu Hfo Hio s s' Hd Hrun) as (_ & _ & ->).
  rewrite lookup_insert_eq.
  exists (with_features d
            (List.map (synced W event sr prob_types (objectIdField d) s) (features d))),
         (written_back event requestid f).
  split; [done|]. simpl.
  assert (synced W event sr prob_types (objectIdField d) s f =
          written_back event requestid f) as <-.
  { unfold synced. by rewrite Hflag, Hsub, Hw. }
  split; [by apply elem_of_map|].
  unfold synced. rewrite Hflag, Hsub, Hw. unfold written_back.
  split; [by rewrite !oid_of_set_attribute|].
  unfold set_attribute. simpl. split.
  - rewrite lookup_insert_ne by done. by rewrite lookup_insert_eq.
  - by rewrite lookup_insert_eq.
Qed.

(** ** Attachments *)

Lemma copy_attachment_log W lyr att oid rid s :
  log (after (copy_attachment W lyr att oid rid) s) = log s.
Proof.
  unfold after, copy_attachment. run_unfold.
  repeat case_match; simplify_eq; done.
Qed.

Lemma copy_attachments_run W lyr oid rid atts resps s :
  att_get_list W lyr oid = Ok atts →
  Forall2 (λ att resp, value (copy_attachment W lyr att oid rid) s = Ok resp ∧
                       status_payload resp) atts resps →
  ∃ s', copy_attachments W lyr oid rid s = (Ok tt, s') ∧ same_env s s' ∧
        log s' = (log s ++ omap attachment_error resps)%list.
Proof.
  intros Hlist Hall. unfold copy_attachments.
  rewrite run_bind. unfold lift at 1. rewrite Hlist.
  unfold for_each.
  assert (∀ s1, same_env s s1 →
    ∃ s', for_fold atts tt
            (λ attachment _,
               response ← copy_attachment W lyr attachment oid rid;
               status ← getitem response "Status";
               if is_not_0 status then
                 msgs ← getitem response "ErrorMessages";
                 report ("Error while copying attachment to Cityworks: "
                         ++ py_str msgs ++ nl)
               else mret tt) s1 = (Ok tt, s') ∧ same_env s s' ∧
          log s' = (log s1 ++ omap attachment_error resps)%list) as Hloop.
  { clear Hlist. induction Hall as [|att resp atts resps [Hv Hp] _ IH]; intros s1 Hs1.
    - exists s1. simpl. by rewrite app_nil_r.
    - simpl. rewrite run_bind.
      destruct (stable_run _ s s1 _ (stable_copy_attachment W lyr att oid rid) Hs1 Hv)
        as (s2 & E2 & Hs2).
      pose proof (copy_attachment_log W lyr att oid rid s1) as Hlog.
      unfold after in Hlog. rewrite E2 in Hlog. simpl in Hlog.
      rewrite (run_bind_ok _ _ _ _ _ E2).
      destruct Hp as (status & Hst & Hmsgs).
      unfold attachment_error. rewrite Hst.
      rewrite run_bind. unfold getitem at 1, lift at 1. rewrite Hst.
      destruct (is_not_0 status) eqn:Hz.
      + destruct (Hmsgs eq_refl) as [msgs Hm]. rewrite Hm.
        rewrite run_bind. unfold getitem at 1, lift at 1. rewrite Hm.
        unfold report, log_to_file, log_write, modify.
        destruct (IH (add_log ("Error while copying attachment to Cityworks: "
                               ++ py_str msgs ++ nl) s2)) as (s' & E & Hs' & Hl).
        { etrans; [exact Hs2|]. repeat split. }
        exists s'. split; [exact E|]. split; [done|].
        rewrite Hl. simpl. rewrite Hlog. by rewrite <- app_assoc.
      + destruct (IH s2 Hs2) as (s' & E & Hs' & Hl).
        exists s'. split; [exact E|]. split; [done|]. by rewrite Hl, Hlog. }
  destruct (Hloop s (reflexivity _)) as (s' & E & Hs' & Hl). eauto.
Qed.

Lemma written_back_lookup event requestid row_orig :
  attributes (written_back event requestid row_orig) !! (fields_ids event).2 = Some requestid ∧
  (flag_field event ≠ (fields_ids event).2 →
   attributes (written_back event requestid row_orig) !! flag_field event
     = Some (flag_off event)) ∧
  (∀ k, k ≠ flag_field event → k ≠ (fields_ids event).2 →
        attributes (written_back event requestid row_orig) !! k = attributes row_orig !! k) ∧
  geometry (written_back event requestid row_orig) = geometry row_orig.
Proof.
  unfold written_back, set_attribute. simpl. repeat split.
  - by rewrite lookup_insert_eq.
  - intros Hne. rewrite lookup_insert_ne by done. by rewrite lookup_insert_eq.
  - intros k Hk1 Hk2. by rewrite !lookup_insert_ne by done.
Qed.

(** C5. Once a record is submitted, its attachments are uploaded and
    every upload whose status is not 0 leaves a line in the log and
    nothing else: whatever the statuses, the row is queued for
    write-back with the flag turned off and the external id recorded. *)
Theorem attachment_failures_do_not_block W event lyr oid_fld prob_types
    row acc s oid requestid atts resps row_orig rest :
  attributes row !! oid_fld = Some oid →
  value (submit_to_cw W row prob_types (fields_layers event) oid (fields_type event)) s
    = Ok requestid →
  is_warn requestid = false →
  att_get_list W lyr oid = Ok atts →
  Forall2 (λ att resp, value (copy_attachment W lyr att oid requestid) s = Ok resp ∧
                       status_payload resp) atts resps →
  value (query (reproject W) lyr (WhereEq oid_fld (py_str oid)) None) s
    = Ok (row_orig :: rest) →
  (∃ s1, copy_attachments W lyr oid requestid s = (Ok tt, s1) ∧
         log s1 = (log s ++ omap attachment_error resps)%list) ∧
  ∃ u s', process_row W event lyr oid_fld prob_types row acc s = (Ok (acc ++ [u])%list, s') ∧
          u = written_back event requestid row_orig ∧
          attributes u !! (fields_ids event).2 = Some requestid ∧
          (flag_field event ≠ (fields_ids event).2 →
           attributes u !! flag_field event = Some (flag_off event)).
Proof.
  intros Hoid Hsub Hw Hlist Hall Hq.
  destruct (copy_attachments_run W lyr oid requestid atts resps s Hlist Hall)
    as (s1 & E1 & Hs1 & Hlog).
  split; [eauto|].
  destruct (process_row_queued W event lyr oid_fld prob_types row acc s
              oid requestid row_orig rest Hoid Hsub Hw) as (s' & E & _); [|done|].
  { unfold value. by rewrite E1. }
  exists (written_back event requestid row_orig), s'.
  split; [done|]. split; [done|].
  destruct (written_back_lookup event requestid row_orig) as (H1 & H2 & _). done.
Qed.

(** ** The related records *)

Lemma merge_flag_set event g : merge_update (flag_set event g) g = flag_set event g.
Proof.
  unfold merge_update, flag_set, set_attribute. simpl. f_equal.
  apply map_eq. intros i. rewrite lookup_union.
  destruct (decide (i = flag_field event)) as [->|].
  { rewrite lookup_insert_eq. by destruct (attributes g !! _). }
  rewrite lookup_insert_ne by done.
  by destruct (attributes g !! i).
Qed.

Section Related.
Variable W : World.
Variable event : Config.
Variables lyr rellyr oid_fld pkey_fld fkey_fld : string.

Local Abbreviation related := (process_related W event lyr rellyr oid_fld pkey_fld fkey_fld).
Local Abbreviation parent_of record := (get_parent W lyr pkey_fld record fkey_fld).
Local Abbreviation comments record parent :=
  (copy_comments W record parent (fields_tables event) (fields_ids event)).

(** What an iteration returns, read off the source. *)
Lemma process_related_inv record acc s acc' s' :
  related record acc s = (Ok acc', s') →
  ∃ rel_oid parent response status,
    attributes record !! oid_fld = Some rel_oid ∧
    value (parent_of record) s = Ok parent ∧
    value (comments record parent) s = Ok response ∧
    py_getitem response "Status" = Ok status ∧
    ((is_not_0 status = true ∧ acc' = acc) ∨
     (is_not_0 status = false ∧ acc' = (acc ++ [flag_set event record])%list)).
Proof.
  intros H. unfold process_related in H.
  inv_bind H as rel_oid s0 E. unfold attr in E.
  destruct (attributes record !! oid_fld) as [rel_oid'|] eqn:Hoid; [|done].
  injection E as H1 H2. subst rel_oid' s0.
  inv_bind H as parent s1 E1.
  pose proof (stable_step _ s s _ _ (stable_get_parent W _ _ _ _) (reflexivity _) E1)
    as [Hpar Hs1].
  inv_bind H as u s2 E2.
  pose proof (stable_step _ _ _ _ _
                (stable_copy_related_attachments W event rellyr rel_oid parent) Hs1 E2)
    as [_ Hs2].
  inv_bind H as response s3 E3.
  pose proof (stable_step _ _ _ _ _ (stable_copy_comments W _ _ _ _) Hs2 E3) as [Hresp Hs3].
  inv_bind H as status s4 E4. unfold getitem, lift in E4.
  injection E4 as Hstatus <-.
  exists rel_oid, parent, response, status. repeat (split; [done|]).
  destruct (is_not_0 status) eqn:Hz.
  - left. split; [done|].
    inv_bind H as msgs s5 E5. unfold report, log_to_file, log_write, modify in H.
    rewrite run_bind in H. simpl in H. by injection H as <- _.
  - right. split; [done|].
    unfold report, log_to_file, log_write, modify in H.
    rewrite run_bind in H. simpl in H. by injection H as <- _.
Qed.

(** The converse, with the line that a failed call leaves in the log. *)
Lemma process_related_run record acc s rel_oid parent response status :
  attributes record !! oid_fld = Some rel_oid →
  value (parent_of record) s = Ok parent →
  value (copy_related_attachments W event rellyr rel_oid parent) s = Ok tt →
  value (comments record parent) s = Ok response →
  py_getitem response "Status" = Ok status →
  (is_not_0 status = true → ∃ msgs, py_getitem response "ErrorMessages" = Ok msgs) →
  ∃ s1,
    same_env s s1 ∧
    related record acc s =
      if is_not_0 status then
        (Ok acc,
         add_log match py_getitem response "ErrorMessages" with
                 | Ok msgs => "Error while copying comment to Cityworks: "
                              ++ py_str msgs ++ nl
                 | Raise _ => ""
                 end s1)
      else
        (Ok (acc ++ [flag_set event record])%list,
         add_log ("Status of updates to Cityworks comments: " ++ py_str response ++ nl) s1).
Proof.
  intros Hoid Hpar Hatt Hresp Hstatus Hmsgs. unfold process_related.
  rewrite run_bind. unfold attr at 1. rewrite Hoid. simpl.
  destruct (stable_run _ s s _ (stable_get_parent W _ _ _ _) (reflexivity _) Hpar)
    as (s1 & E1 & Hs1).
  rewrite (run_bind_ok _ _ _ _ _ E1).
  destruct (stable_run _ s s1 _ (stable_copy_related_attachments W _ _ _ _) Hs1 Hatt)
    as (s2 & E2 & Hs2).
  rewrite (run_bind_ok _ _ _ _ _ E2).
  destruct (stable_run _ s s2 _ (stable_copy_comments W _ _ _ _) Hs2 Hresp)
    as (s3 & E3 & Hs3).
  rewrite (run_bind_ok _ _ _ _ _ E3).
  rewrite run_bind. unfold getitem at 1, lift at 1. rewrite Hstatus.
  exists s3. split; [done|].
  destruct (is_not_0 status).
  - destruct (Hmsgs eq_refl) as [msgs Hm]. rewrite Hm.
    rewrite run_bind. unfold getitem at 1, lift at 1. rewrite Hm. reflexivity.
  - reflexivity.
Qed.

(** The accumulator is only appended to. *)
Lemma process_related_acc record acc s :
  value (related record acc) s = result_map (List.app acc) (value (related record []) s).
Proof.
  unfold value, process_related. rewrite !run_bind.
  destruct (attr (attributes record) oid_fld s) as [[rel_oid|e] s0]; [|done].
  rewrite !run_bind.
  destruct (parent_of record s0) as [[parent|e] s1]; [|done].
  rewrite !run_bind.
  destruct (copy_related_attachments W event rellyr rel_oid parent s1) as [[[]|e] s2]; [|done].
  rewrite !run_bind.
  destruct (comments record parent s2) as [[response|e] s3]; [|done].
  rewrite !run_bind.
  destruct (getitem response "Status" s3) as [[status|e] s4]; [|done].
  destruct (is_not_0 status).
  - rewrite !run_bind.
    destruct (getitem response "ErrorMessages" s4) as [[msgs|e] s5]; [|done].
    simpl. by rewrite app_nil_r.
  - reflexivity.
Qed.

End Related.

Lemma first_keyField_run r rs s : first_keyField (r :: rs) s = (Ok (keyField r), s).
Proof. reflexivity. Qed.

Lemma is_not_0_false status : is_not_0 status = false ↔ status = PyInt 0.
Proof. destruct status as [| | [] | | |]; simpl; naive_solver. Qed.

Section SyncRelated.
Variable W : World.
Variable event : Config.
Variables lyr reltable oid_fld : string.
Variables d rd : LayerData.
Variables r1 r2 : Relationship.
Variables rs1 rs2 : list Relationship.

Hypothesis layer_relationships : relationships d = r1 :: rs1.
Hypothesis table_relationships : relationships rd = r2 :: rs2.

Local Abbreviation body :=
  (process_related W event lyr reltable oid_fld (keyField r1) (keyField r2)).
Local Abbreviation target s := (related_synced W event lyr (keyField r1) (keyField r2) s).

(** The phase up to its loop. *)
Lemma sync_related_unfold s :
  portal s !! lyr = Some d → portal s !! reltable = Some rd →
  sync_related W event lyr reltable oid_fld s =
  (updated_rows ← for_fold (List.filter (eval_where (WhereIsNull (flag_field event)))
                              (features rd)) [] body;
   match (updated_rows : list Feature) return M unit with
   | [] => mret tt
   | _ =>
       status ← edit_features reltable updated_rows;
       report ("Status of updates to ArcGIS comments: " ++ py_str status ++ nl)
   end) s.
Proof.
  intros Hd Hrd. unfold sync_related.
  rewrite (run_bind_ok _ _ _ _ _ (properties_run _ _ _ Hd)).
  rewrite layer_relationships, (run_bind_ok _ _ _ _ _ (first_keyField_run _ _ _)).
  rewrite (run_bind_ok _ _ _ _ _ (properties_run _ _ _ Hrd)).
  rewrite table_relationships, (run_bind_ok _ _ _ _ _ (first_keyField_run _ _ _)).
  rewrite (run_bind_ok _ _ _ _ _ (query_run _ _ _ _ _ _ Hrd)).
  simpl. by rewrite map_id.
Qed.

Lemma process_related_update s g new :
  flag_field event ≠ objectIdField rd →
  g ∈ List.filter (eval_where (WhereIsNull (flag_field event))) (features rd) →
  value (body g []) s = Ok new →
  update_for (objectIdField rd) (target s) g new.
Proof.
  intros Hfo Hg Hv.
  apply list_elem_of_In, filter_In in Hg as [Hg Hnull].
  unfold value in Hv. destruct (body g [] s) as [r s1] eqn:E. simpl in Hv. subst r.
  apply process_related_inv in E
    as (rel_oid & parent & response & status & Hoid & Hpar & Hresp & Hst & Hcase).
  assert (target s g = if is_not_0 status then g else flag_set event g) as Hsy.
  { unfold related_synced, comment_status. by rewrite Hnull, Hpar, Hresp, Hst. }
  destruct Hcase as [[Hz ->]|[Hz ->]]; rewrite Hz in Hsy.
  - by left.
  - right. rewrite Hsy. simpl. split; [done|]. split.
    + unfold flag_set. by rewrite oid_of_set_attribute.
    + apply merge_flag_set.
Qed.

(** A pass over the related records that completes leaves every record
    of the table synced. *)
Lemma sync_related_ok s s' :
  portal s !! lyr = Some d → portal s !! reltable = Some rd →
  unique_oids (objectIdField rd) (features rd) →
  flag_field event ≠ objectIdField rd →
  sync_related W event lyr reltable oid_fld s = (Ok tt, s') →
  portal s' = <[reltable := with_features rd (List.map (target s) (features rd))]> (portal s).
Proof.
  intros Hd Hrd Hu Hfo H. rewrite (sync_related_unfold _ Hd Hrd) in H.
  inv_bind H as U s1 E.
  apply (for_fold_collect _
           (stable_process_related W event lyr reltable oid_fld (keyField r1) (keyField r2))
           (process_related_acc W event lyr reltable oid_fld (keyField r1) (keyField r2))
           _ _ s) in E as [(Hb & Ht & Hp) (news & Hall & ->)]; [|done].
  simpl in H.
  assert (Forall2 (update_for (objectIdField rd) (target s))
            (List.filter (eval_where (WhereIsNull (flag_field event))) (features rd)) news)
    as Hall'.
  { rewrite <- (map_id (List.filter _ _)) in Hall.
    apply (Forall2_map_l_in _ _ (update_for (objectIdField rd) (target s))) in Hall; [done|].
    intros g new Hg. by apply process_related_update. }
  pose proof (fold_updates_layer _ _ _ _ _ Hu Hall') as Hfold.
  rewrite <- Hfold by (intros f Hf; unfold related_synced; by rewrite Hf).
  destruct (List.concat news) as [|u us] eqn:HU.
  - injection H as <-. simpl. by rewrite with_features_id, insert_id.
  - assert (portal s1 !! reltable = Some rd) as Hrd1 by (by rewrite <- Hp).
    rewrite (run_bind_ok _ _ _ _ _ (edit_features_run _ _ _ _ Hrd1)) in H.
    unfold report in H. simpl in H. injection H as <-. simpl. by rewrite <- Hp.
Qed.

(** A related record without a parent stops the pass with a fault,
    before any write-back. *)
Lemma sync_related_orphan s record fk :
  portal s !! lyr = Some d → portal s !! reltable = Some rd →
  record ∈ features rd →
  eval_where (WhereIsNull (flag_field event)) record = true →
  attributes record !! keyField r2 = Some fk →
  (∀ p, p ∈ features d → eval_where (WhereEq (keyField r1) (py_str fk)) p = false) →
  get_parent W lyr (keyField r1) record (keyField r2) s
    = (Raise (IndexError "list index out of range"), s) ∧
  (∀ acc, ∃ e, value (body record acc) s = Raise e) ∧
  ∃ e s', sync_related W event lyr reltable oid_fld s = (Raise e, s') ∧ same_env s s'.
Proof.
  intros Hd Hrd Hrec Hnull Hfk Hnone.
  assert (get_parent W lyr (keyField r1) record (keyField r2) s
          = (Raise (IndexError "list index out of range"), s)) as Hgp.
  { unfold get_parent. rewrite run_bind. unfold attr at 1. rewrite Hfk. simpl.
    rewrite (run_bind_ok _ _ _ _ _ (query_run _ _ _ _ _ _ Hd)). simpl.
    by rewrite map_id, (filter_none _ _ Hnone). }
  assert (∀ acc, ∃ e, value (body record acc) s = Raise e) as Hbody.
  { intros acc. unfold value, process_related. rewrite run_bind.
    destruct (attr (attributes record) oid_fld s) as [[rel_oid|e] s0] eqn:E; [|eauto].
    unfold attr in E. destruct (attributes record !! oid_fld); [|done].
    injection E as <- <-. rewrite run_bind, Hgp. eauto. }
  split; [done|]. split; [done|].
  rewrite (sync_related_unfold _ Hd Hrd). rewrite run_bind.
  destruct (for_fold_raises body record
              (stable_process_related W event lyr reltable oid_fld (keyField r1) (keyField r2))
              (List.filter (eval_where (WhereIsNull (flag_field event))) (features rd))
              [] s s (reflexivity _)) as (e & s' & -> & Hs'); [|done|eauto].
  apply list_elem_of_In, filter_In. split; [by apply list_elem_of_In | done].
Qed.

End SyncRelated.

(** ** Claims about the related records *)

Lemma app_singleton_neq {A} (l : list A) x : (l ++ [x])%list ≠ l.
Proof.
  intros H. apply (f_equal (@List.length A)) in H. rewrite length_app in H. simpl in H. lia.
Qed.

(** C6. For a related record that reaches the comment-append call, the
    record is queued for write-back, with its flag set, exactly when
    the call answers status 0; on any other status the failure is
    logged and nothing is queued.  After a completed pass the stored
    record has its flag set in the first case and is unchanged, its flag
    still null, in the second. *)
Theorem related_record_flagged_iff_status_0 W event lyr reltable oid_fld
    d rd r1 rs1 r2 rs2 s record rel_oid parent response status :
  portal s !! lyr = Some d → relationships d = r1 :: rs1 →
  portal s !! reltable = Some rd → relationships rd = r2 :: rs2 →
  unique_oids (objectIdField rd) (features rd) →
  flag_field event ≠ objectIdField rd →
  record ∈ features rd →
  eval_where (WhereIsNull (flag_field event)) record = true →
  attributes record !! oid_fld = Some rel_oid →
  value (get_parent W lyr (keyField r1) record (keyField r2)) s = Ok parent →
  value (copy_related_attachments W event reltable rel_oid parent) s = Ok tt →
  value (copy_comments W record parent (fields_tables event) (fields_ids event)) s
    = Ok response →
  py_getitem response "Status" = Ok status →
  (is_not_0 status = true → ∃ msgs, py_getitem response "ErrorMessages" = Ok msgs) →
  (∀ acc, ∃ acc' s1,
      process_related W event lyr reltable oid_fld (keyField r1) (keyField r2)
        record acc s = (Ok acc', s1) ∧
      (acc' = (acc ++ [flag_set event record])%list ↔ status = PyInt 0) ∧
      (status ≠ PyInt 0 →
       acc' = acc ∧ last (log s1) = Some (comment_error response))) ∧
  (∀ s', sync_related W event lyr reltable oid_fld s = (Ok tt, s') →
     ∃ rd', portal s' !! reltable = Some rd' ∧
            (if is_not_0 status then record else flag_set event record) ∈ features rd') ∧
  attributes (flag_set event record) !! flag_field event = Some (flag_off event) ∧
  attributes record !! flag_field event = Some PyNone.
Proof.
  intros Hd Hr1 Hrd Hr2 Hu Hfo Hrec Hnull Hoid Hpar Hatt Hresp Hst Hmsgs.
  split; [|split; [|split]].
  - intros acc.
    destruct (process_related_run W event lyr reltable oid_fld (keyField r1) (keyField r2)
                record acc s rel_oid parent response status Hoid Hpar Hatt Hresp Hst Hmsgs)
      as (s1 & Hs1 & E).
    destruct (is_not_0 status) eqn:Hz.
    + assert (status ≠ PyInt 0) as Hne.
      { intros ->. done. }
      eexists _, _. split; [exact E|]. split.
      * split; [intros H; symmetry in H; by apply app_singleton_neq in H | done].
      * intros _. split; [done|]. simpl. by rewrite last_snoc.
    + apply is_not_0_false in Hz as ->.
      eexists _, _. split; [exact E|]. split; [done|]. done.
  - intros s' Hrun.
    rewrite (sync_related_ok W event lyr reltable oid_fld d rd r1 r2 rs1 rs2 Hr1 Hr2
               s s' Hd Hrd Hu Hfo Hrun).
    rewrite lookup_insert_eq. eexists. split; [done|]. simpl.
    assert (related_synced W event lyr (keyField r1) (keyField r2) s record =
            if is_not_0 status then record else flag_set event record) as <-.
    { unfold related_synced, comment_status. by rewrite Hnull, Hpar, Hresp, Hst. }
    by apply elem_of_map.
  - unfold flag_set, set_attribute. simpl. by rewrite lookup_insert_eq.
  - unfold eval_where in Hnull.
    destruct (attributes record !! flag_field event) as [[]|]; done.
Qed.

(** C10. A related record whose foreign key matches no record of the
    layer makes [get_parent] index an empty list: the lookup faults
    with an [IndexError], the iteration faults, and the pass over the
    related records of the layer stops there with nothing written back. *)
Theorem orphan_related_record_faults W event lyr reltable oid_fld
    d rd r1 rs1 r2 rs2 s record fk :
  portal s !! lyr = Some d → relationships d = r1 :: rs1 →
  portal s !! reltable = Some rd → relationships rd = r2 :: rs2 →
  record ∈ features rd →
  eval_where (WhereIsNull (flag_field event)) record = true →
  attributes record !! keyField r2 = Some fk →
  (∀ p, p ∈ features d → eval_where (WhereEq (keyField r1) (py_str fk)) p = false) →
  get_parent W lyr (keyField r1) record (keyField r2) s
    = (Raise (IndexError "list index out of range"), s) ∧
  (∀ acc, ∃ e,
      value (process_related W event lyr reltable oid_fld (keyField r1) (keyField r2)
               record acc) s = Raise e) ∧
  ∃ e s', sync_related W event lyr reltable oid_fld s = (Raise e, s') ∧
          portal s' = portal s.
Proof.
  intros Hd Hr1 Hrd Hr2 Hrec Hnull Hfk Hnone.
  destruct (sync_related_orphan W event lyr reltable oid_fld d rd r1 r2 rs1 rs2 Hr1 Hr2
              s record fk Hd Hrd Hrec Hnull Hfk Hnone)
    as (Hgp & Hbody & e & s' & E & _ & _ & Hp).
  eauto 10.
Qed.

(** ** The submission payload *)

Lemma mapped_fields_run attrs fields acc s :
  Forall (λ fieldset, is_Some (attrs !! fieldset.2)) fields →
  for_fold fields acc
    (λ fieldset values,
       let '(c_field, a_field) := fieldset in
       v ← attr attrs a_field;
       mret (<[c_field := PyStr (py_str v)]> values)) s
  = (Ok (mapped_fields attrs fields acc), s).
Proof.
  intros H. revert acc. induction H as [|[c a] fields [v Hv] _ IH]; intros acc; simpl.
  - reflexivity.
  - simpl in Hv. rewrite run_bind. rewrite run_bind. unfold attr at 1. rewrite Hv. simpl.
    rewrite IH. reflexivity.
Qed.

Lemma mapped_fields_other attrs fields acc k :
  k ∉ List.map fst fields → mapped_fields attrs fields acc !! k = acc !! k.
Proof.
  revert acc. induction fields as [|[c a] fields IH]; intros acc Hk; simpl; [done|].
  unfold mapped_fields in *. simpl. rewrite IH.
  - apply lookup_insert_ne. intros ->. apply Hk. simpl. by left.
  - intros Hin. apply Hk. simpl. by right.
Qed.

Lemma mapped_fields_lookup attrs fields acc c a v :
  NoDup (List.map fst fields) → (c, a) ∈ fields → attrs !! a = Some v →
  mapped_fields attrs fields acc !! c = Some (PyStr (py_str v)).
Proof.
  revert acc. induction fields as [|[c' a'] fields IH]; intros acc Hnd Hin Hv; simpl.
  - by apply elem_of_nil in Hin.
  - simpl in Hnd. apply NoDup_cons in Hnd as [Hc Hnd].
    apply elem_of_cons in Hin as [[= <- <-]|Hin].
    + change (mapped_fields attrs ((c, a) :: fields) acc !! c)
        with (mapped_fields attrs fields
                (<[c := PyStr (py_str (default PyNone (attrs !! a)))]> acc) !! c).
      rewrite mapped_fields_other by done. rewrite Hv. simpl. by rewrite lookup_insert_eq.
    + by apply IH.
Qed.

Lemma run_read {A} (f : State → A) s : read f s = (Ok (f s), s).
Proof. reflexivity. Qed.

(** The lookup of lines 105-106 when the problem type resolves. *)
Lemma resolve_run attrs vocab fld t sid h s :
  attrs !! fld = Some (PyStr t) →
  vocab !! Str.upper t = Some sid →
  try_except
    (v ← attr attrs fld;
     key ← lift (py_upper v);
     prob_sid ← lift (prob_types_getitem (Vocabulary vocab) key);
     mret (inr prob_sid : string + Z)) h s
  = (Ok (inr sid), s).
Proof.
  intros Ht Hsid. run_unfold. rewrite Ht. simpl. by rewrite Hsid.
Qed.

(** Reading the request id off the response touches no state. *)
Lemma read_request_id_after response s :
  after (try_except
           (value ← getitem response "Value";
            getitem value "RequestId")
           (λ e, match e with
                 | KeyError _ => Some (mret (PyStr "error"))
                 | _ => None
                 end)) s = s.
Proof. unfold after. run_unfold. repeat case_match; simplify_eq; done. Qed.

(** C8. When the problem type of a record resolves, the payload of the
    create request holds the text of each configured source attribute
    under its external field name, the geometry's x and y under "X" and
    "Y", and the id of the problem type under the configured type
    field.  The external field names are distinct from one another and
    from "X", "Y" and the type field. *)
Theorem payload_contents W row vocab fields oid tf s t sid x y :
  attributes row !! tf.2 = Some (PyStr t) →
  vocab !! Str.upper t = Some sid →
  Forall (λ fieldset, is_Some (attributes row !! fieldset.2)) fields →
  py_getitem (geometry row) "x" = Ok x →
  py_getitem (geometry row) "y" = Ok y →
  NoDup (List.map fst fields ++ ["X"; "Y"; tf.1])%list →
  ∃ values,
    after (submit_to_cw W row (Vocabulary vocab) fields oid tf) s =
      add_request (Get (baseUrl s ++ "/Services/AMS/ServiceRequest/Create")
                     {| p_token := Some (cw_token s); p_data := Some values |}) s ∧
    (∀ c a, (c, a) ∈ fields →
       ∃ v, attributes row !! a = Some v ∧ values !! c = Some (PyStr (py_str v))) ∧
    values !! "X" = Some x ∧
    values !! "Y" = Some y ∧
    values !! tf.1 = Some (PyInt sid).
Proof.
  destruct tf as [tf1 tf2]. simpl. intros Ht Hsid Hfields Hx Hy Hnd.
  apply NoDup_app in Hnd as (Hnd1 & Hdisj & Hnd2).
  apply NoDup_cons in Hnd2 as [HX Hnd2]. apply NoDup_cons in Hnd2 as [HY _].
  assert ("X" ≠ "Y" ∧ "X" ≠ tf1 ∧ "Y" ≠ tf1) as (HXY & HXt & HYt).
  { split; [done|]. split; intros <-; [apply HX | apply HY]; set_solver. }
  exists (<[tf1 := PyInt sid]>
            (<["Y" := y]> (<["X" := x]> (mapped_fields (attributes row) fields ∅)))).
  split; [|split; [|split; [|split]]].
  - unfold after, submit_to_cw. simpl.
    rewrite (run_bind_ok _ _ _ _ _ (resolve_run _ _ _ _ _ _ _ Ht Hsid)).
    rewrite (run_bind_ok _ _ _ _ _ (mapped_fields_run _ _ _ _ Hfields)).
    rewrite run_bind. unfold getitem at 1, lift at 1. rewrite Hx.
    rewrite run_bind. unfold getitem at 1, lift at 1. rewrite Hy.
    rewrite (run_bind_ok _ _ _ _ _ (run_read _ _)).
    rewrite (run_bind_ok _ _ _ _ _ (run_read _ _)).
    rewrite run_bind. unfold get_response. rewrite run_bind. unfold modify at 1, lift at 1.
    destruct (http_get W _ _) as [response|e]; [|reflexivity].
    apply read_request_id_after.
  - intros c a Hin.
    rewrite Forall_forall in Hfields. destruct (Hfields _ Hin) as [v Hv]. simpl in Hv.
    exists v. split; [done|].
    assert (c ∈ List.map fst fields) as Hc.
    { apply list_elem_of_In, in_map_iff. exists (c, a). split; [done|].
      by apply list_elem_of_In. }
    rewrite !lookup_insert_ne;
      [ by apply (mapped_fields_lookup _ _ _ c a v)
      | intros E; apply (Hdisj c Hc); rewrite <- E, !elem_of_cons; naive_solver .. ].
  - rewrite !lookup_insert_ne by done. by rewrite lookup_insert_eq.
  - rewrite lookup_insert_ne by done. by rewrite lookup_insert_eq.
  - by rewrite lookup_insert_eq.
Qed.

(** The result of a submission: the request id of the response, or
    "error" when the response has none. *)
Lemma submit_to_cw_result W row vocab fields oid tf s t sid x y :
  attributes row !! tf.2 = Some (PyStr t) →
  vocab !! Str.upper t = Some sid →
  Forall (λ fieldset, is_Some (attributes row !! fieldset.2)) fields →
  py_getitem (geometry row) "x" = Ok x →
  py_getitem (geometry row) "y" = Ok y →
  value (submit_to_cw W row (Vocabulary vocab) fields oid tf) s =
    match http_get W (baseUrl s ++ "/Services/AMS/ServiceRequest/Create")
            {| p_token := Some (cw_token s);
               p_data := Some (create_payload (attributes row) fields x y tf.1 sid) |} with
    | Ok response => request_id_of response
    | Raise e => Raise e
    end.
Proof.
  destruct tf as [tf1 tf2]. simpl. intros Ht Hsid Hfields Hx Hy.
  unfold value, submit_to_cw. simpl.
  rewrite (run_bind_ok _ _ _ _ _ (resolve_run _ _ _ _ _ _ _ Ht Hsid)).
  rewrite (run_bind_ok _ _ _ _ _ (mapped_fields_run _ _ _ _ Hfields)).
  rewrite run_bind. unfold getitem at 1, lift at 1. rewrite Hx.
  rewrite run_bind. unfold getitem at 1, lift at 1. rewrite Hy.
  rewrite (run_bind_ok _ _ _ _ _ (run_read _ _)).
  rewrite (run_bind_ok _ _ _ _ _ (run_read _ _)).
  rewrite run_bind. unfold get_response. rewrite run_bind. unfold modify at 1, lift at 1.
  unfold create_payload.
  destruct (http_get W _ _) as [response|e]; [|reflexivity].
  unfold request_id_of. run_unfold.
  repeat case_match; simplify_eq; done.
Qed.

(** ** The frame of a write-back *)

Lemma only_flag_and_id_changed_refl event f : only_flag_and_id_changed event f f.
Proof. by split. Qed.

Lemma written_back_frame event requestid f :
  only_flag_and_id_changed event f (written_back event requestid f).
Proof.
  destruct (written_back_lookup event requestid f) as (_ & _ & H & Hg). by split.
Qed.

Lemma Forall2_map_same {A} (R : A → A → Prop) (g : A → A) (l : list A) :
  (∀ x, R x (g x)) → Forall2 R l (List.map g l).
Proof. intros H. induction l; simpl; constructor; auto. Qed.

(** C9. The update queued for a submitted row is the freshly queried
    stored row with the flag field set to the "off" value and the
    external-id attribute set to the request id; its geometry and every
    other attribute are those of the stored row.  Whatever the pass
    does, the layer afterwards has the same records in the same order,
    none deleted, each with its object id, its geometry and all other
    attributes unchanged. *)
Theorem write_back_changes_only_flag_and_id W event lyr sr prob_types d s :
  portal s !! lyr = Some d →
  unique_oids (objectIdField d) (features d) →
  flag_field event ≠ objectIdField d →
  (fields_ids event).2 ≠ objectIdField d →
  flag_field event ≠ (fields_ids event).2 →
  (∀ row acc s0 acc' s1,
      process_row W event lyr (objectIdField d) prob_types row acc s0 = (Ok acc', s1) →
      acc' = acc ∨
      ∃ oid requestid row_orig rest u,
        attributes row !! objectIdField d = Some oid ∧
        value (query (reproject W) lyr (WhereEq (objectIdField d) (py_str oid)) None) s0
          = Ok (row_orig :: rest) ∧
        acc' = (acc ++ [u])%list ∧
        attributes u !! flag_field event = Some (flag_off event) ∧
        attributes u !! (fields_ids event).2 = Some requestid ∧
        only_flag_and_id_changed event row_orig u) ∧
  (∀ r s',
      sync_rows W event lyr (objectIdField d) sr prob_types s = (r, s') →
      ∃ d', portal s' !! lyr = Some d' ∧
            Forall2 (λ f f', oid_of (objectIdField d) f' = oid_of (objectIdField d) f ∧
                             only_flag_and_id_changed event f f')
                    (features d) (features d')).
Proof.
  intros Hd Hu Hfo Hio Hfi. split.
  - intros row acc s0 acc' s1 H.
    apply process_row_inv in H as (oid & rid & Hoid & _ & Hcase).
    destruct Hcase as [[_ ->]|(_ & _ & row_orig & rest & Hq & ->)]; [by left|].
    right. exists oid, rid, row_orig, rest, (written_back event rid row_orig).
    destruct (written_back_lookup event rid row_orig) as (H1 & H2 & _).
    repeat (split; [by auto|]). apply written_back_frame.
  - intros r s' Hrun. destruct r as [[]|e].
    + destruct (sync_rows_ok W event lyr sr _ d Hu Hfo Hio s s' Hd Hrun) as (_ & _ & ->).
      rewrite lookup_insert_eq. eexists. split; [done|]. simpl.
      apply Forall2_map_same. intros f. unfold synced.
      destruct (flagged event f); [|split; [done | apply only_flag_and_id_changed_refl]].
      destruct (submission _ _ _ _ _ _ f) as [rid|];
        [|split; [done | apply only_flag_and_id_changed_refl]].
      destruct (is_warn rid); [split; [done | apply only_flag_and_id_changed_refl]|].
      split; [|apply written_back_frame].
      unfold written_back. by rewrite !oid_of_set_attribute.
    + destruct (sync_rows_raise W event lyr sr _ d s e s' Hd Hrun) as (_ & _ & <-).
      exists d. split; [done|].
      rewrite <- (map_id (features d)) at 2. apply Forall2_map_same.
      intros f. split; [done | apply only_flag_and_id_changed_refl].
Qed.

(** ** The whole run *)

Section KeepsRules.
Variable lyr : string.

Lemma keeps_stable {A} (m : M A) : Stable m → Keeps lyr m.
Proof. intros [Hf _] s. destruct (Hf s) as (_ & _ & <-). done. Qed.

Lemma keeps_bind {A B} (m : M A) (k : A → M B) :
  Keeps lyr m → (∀ a, Keeps lyr (k a)) → Keeps lyr (m ≫= k).
Proof.
  intros Hm Hk s. unfold after. rewrite run_bind.
  specialize (Hm s). unfold after in Hm.
  destruct (m s) as [[a|e] s1]; simpl in *; [|done].
  rewrite <- Hm. apply Hk.
Qed.

Lemma keeps_set_cw_token t : Keeps lyr (modify (set_cw_token t)).
Proof. by intros s. Qed.

Lemma keeps_edit_features url us : url ≠ lyr → Keeps lyr (edit_features url us).
Proof.
  intros Hne s. unfold after, edit_features, properties. run_unfold.
  destruct (portal s !! url); simpl; [|done].
  by rewrite lookup_insert_ne.
Qed.

End KeepsRules.

Lemma find_reltable_cases layer rels tables :
  find_reltable layer rels tables = "" ∨ find_reltable layer rels tables ∈ tables.
Proof.
  induction rels as [|r rels IH]; simpl; [by left|].
  case_bool_decide; [by right | done].
Qed.

Section Run.
Variable W : World.
Variable event : Config.
Variable lyr : string.

Lemma keeps_get_cw_token user pwd : Keeps lyr (get_cw_token W user pwd).
Proof.
  unfold get_cw_token.
  apply keeps_bind; [apply keeps_stable; stable|]. intros base.
  apply keeps_bind; [apply keeps_stable, stable_get_response|]. intros response.
  apply keeps_bind; [apply keeps_stable; stable|]. intros status.
  destruct (is_not_0 status); [apply keeps_stable; stable|].
  apply keeps_bind; [apply keeps_stable; stable|]. intros v.
  apply keeps_bind; [apply keeps_stable; stable|]. intros token.
  apply keeps_bind; [apply keeps_set_cw_token|]. intros _.
  apply keeps_stable; stable.
Qed.

Lemma stable_get_wkid : Stable (get_wkid W).
Proof. unfold get_wkid. pose proof (stable_get_response W). stable. Qed.

Lemma stable_get_problem_types : Stable (get_problem_types W).
Proof. unfold get_problem_types. pose proof (stable_get_response W). stable. Qed.

Lemma keeps_setup : Keeps lyr (setup W event).
Proof.
  unfold setup.
  apply keeps_bind; [apply keeps_stable; stable|]. intros _.
  apply keeps_bind; [apply keeps_get_cw_token|]. intros status.
  apply keeps_bind; [apply keeps_stable; destruct (Str.contains _ _); stable|]. intros _.
  apply keeps_bind; [apply keeps_stable, stable_get_wkid|]. intros sr.
  apply keeps_bind; [apply keeps_stable; destruct (eq_str _ _); stable|]. intros _.
  apply keeps_bind; [apply keeps_stable, stable_get_problem_types|]. intros pt.
  apply keeps_bind; [apply keeps_stable; destruct (prob_types_is_error _); stable|].
  intros _. apply keeps_stable; stable.
Qed.

Lemma keeps_sync_rows layer oid_fld sr prob_types :
  layer ≠ lyr → Keeps lyr (sync_rows W event layer oid_fld sr prob_types).
Proof.
  intros Hne. unfold sync_rows.
  apply keeps_bind; [apply keeps_stable; stable|]. intros rows.
  apply keeps_bind.
  { apply keeps_stable, stable_for_fold. intros. apply stable_process_row. }
  intros [|u us]; [apply keeps_stable; stable|].
  apply keeps_bind; [by apply keeps_edit_features|]. intros status.
  apply keeps_stable; stable.
Qed.

Lemma keeps_sync_related layer reltable oid_fld :
  reltable ≠ lyr → Keeps lyr (sync_related W event layer reltable oid_fld).
Proof.
  intros Hne. unfold sync_related.
  apply keeps_bind; [apply keeps_stable; stable|]. intros d.
  apply keeps_bind; [apply keeps_stable; unfold first_keyField; stable|]. intros pk.
  apply keeps_bind; [apply keeps_stable; stable|]. intros rd.
  apply keeps_bind; [apply keeps_stable; unfold first_keyField; stable|]. intros fk.
  apply keeps_bind; [apply keeps_stable; stable|]. intros records.
  apply keeps_bind.
  { apply keeps_stable, stable_for_fold. intros. apply stable_process_related. }
  intros [|u us]; [apply keeps_stable; stable|].
  apply keeps_bind; [by apply keeps_edit_features|]. intros status.
  apply keeps_stable; stable.
Qed.

Hypothesis not_a_table : lyr ∉ arcgis_tables event.
Hypothesis not_empty : lyr ≠ "".

Lemma find_reltable_other layer rels :
  find_reltable layer rels (arcgis_tables event) ≠ lyr.
Proof.
  destruct (find_reltable_cases layer rels (arcgis_tables event)) as [->|Hin];
    [done | by intros <-].
Qed.

Lemma keeps_process_layer sr prob_types layer :
  layer ≠ lyr → Keeps lyr (process_layer W event sr prob_types layer).
Proof.
  intros Hne. unfold process_layer.
  apply keeps_bind; [apply keeps_stable; stable|]. intros d.
  apply keeps_bind; [by apply keeps_sync_rows|]. intros _.
  apply keeps_bind; [apply keeps_sync_related, find_reltable_other|]. intros _.
  apply keeps_stable; stable.
Qed.

(** The record [f] of the layer [lyr], whose flag is not "on". *)
Variable oidf : string.
Variable f : Feature.
Hypothesis flag_not_oid : flag_field event ≠ oidf.
Hypothesis id_not_oid : (fields_ids event).2 ≠ oidf.
Hypothesis not_flagged : flagged event f = false.

Local Abbreviation untouched := (holds_record lyr oidf f).

Lemma untouched_keeps {A} (m : M A) s : Keeps lyr m → untouched s → untouched (after m s).
Proof. intros Hk (d & Hd & H). exists d. by rewrite Hk. Qed.

Lemma untouched_sync_rows sr prob_types s :
  untouched s → untouched (after (sync_rows W event lyr oidf sr prob_types) s).
Proof.
  intros (d & Hd & <- & Hu & Hf). unfold after, holds_record.
  destruct (sync_rows W event lyr (objectIdField d) sr prob_types s) as [[[]|e] s'] eqn:E;
    simpl.
  - destruct (sync_rows_ok W event lyr sr _ d Hu flag_not_oid id_not_oid s s' Hd E)
      as (_ & _ & ->).
    rewrite lookup_insert_eq. eexists. split; [done|]. simpl. split; [done|].
    assert (∀ g, oid_of (objectIdField d)
                   (synced W event sr prob_types (objectIdField d) s g)
                 = oid_of (objectIdField d) g) as Hoid.
    { intros g. unfold synced. destruct (flagged event g); [|done].
      destruct (submission _ _ _ _ _ _ g) as [rid|]; [|done].
      destruct (is_warn rid); [done|].
      unfold written_back. by rewrite !oid_of_set_attribute. }
    split; [split|].
    + destruct Hu as [Hsome _]. rewrite Forall_forall in Hsome |- *.
      intros g' Hg'. apply list_elem_of_In, in_map_iff in Hg' as (g & <- & Hg).
      rewrite Hoid. apply Hsome. by apply list_elem_of_In.
    + destruct Hu as [_ Hnd]. rewrite map_map.
      by rewrite (map_ext _ _ Hoid).
    + assert (synced W event sr prob_types (objectIdField d) s f = f) as Hsy.
      { unfold synced. by rewrite not_flagged. }
      rewrite <- Hsy at 1. by apply elem_of_map.
  - destruct (sync_rows_raise W event lyr sr _ d s e s' Hd E) as (_ & _ & <-).
    exists d. done.
Qed.

Lemma untouched_process_layer sr prob_types layer s :
  untouched s → untouched (after (process_layer W event sr prob_types layer) s).
Proof.
  intros Hs. destruct (decide (layer = lyr)) as [->|Hne];
    [|apply untouched_keeps; [by apply keeps_process_layer | done]].
  pose proof Hs as (d & Hd & Hoid & _).
  unfold after, process_layer.
  rewrite (run_bind_ok _ _ _ _ _ (properties_run _ _ _ Hd)). rewrite Hoid.
  rewrite run_bind.
  pose proof (untouched_sync_rows sr prob_types s Hs) as H1. unfold after in H1.
  destruct (sync_rows W event lyr oidf sr prob_types s) as [[[]|e] s1]; simpl in *; [|done].
  rewrite run_bind.
  pose proof (untouched_keeps (sync_related W event lyr
                 (find_reltable lyr (relationships d) (arcgis_tables event)) oidf) s1
                (keeps_sync_related _ _ _ (find_reltable_other _ _)) H1) as H2.
  unfold after in H2.
  destruct (sync_related W event lyr _ oidf s1) as [[[]|e] s2]; simpl in *; [|done].
  destruct H2 as (d2 & Hd2 & H2). exists d2. done.
Qed.

Lemma untouched_layers sr prob_types layers s :
  untouched s → untouched (after (for_each layers (process_layer W event sr prob_types)) s).
Proof.
  revert s. unfold for_each.
  induction layers as [|layer layers IH]; intros s Hs; simpl; [done|].
  unfold after. rewrite run_bind.
  pose proof (untouched_process_layer sr prob_types layer s Hs) as H1. unfold after in H1.
  destruct (process_layer W event sr prob_types layer s) as [[[]|e] s1]; simpl in *; [|done].
  by apply IH.
Qed.

Lemma untouched_main s : untouched s → untouched (after (main W event) s).
Proof.
  intros Hs. unfold after, main.
  rewrite run_bind. unfold modify at 1.
  rewrite run_bind. unfold log_to_file, log_write, modify at 1.
  unfold try_except. rewrite run_bind.
  set (s1 := add_log _ (set_baseUrl _ s)).
  assert (untouched s1) as H1 by exact Hs.
  pose proof (untouched_keeps (setup W event) s1 keeps_setup H1) as H2. unfold after in H2.
  destruct (setup W event s1) as [[[sr pt]|e] s2]; simpl in *.
  - pose proof (untouched_layers sr pt (arcgis_layers event) s2 H2) as H3.
    unfold after in H3.
    destruct (for_each (arcgis_layers event) (process_layer W event sr pt) s2)
      as [[[]|e] s3]; simpl in *; [done|].
    destruct H3 as (d3 & Hd3 & H3). exists d3. done.
  - destruct H2 as (d2 & Hd2 & H2). exists d2. done.
Qed.

End Run.

(** C7. A record of the layer whose flag is not "on" is not among the
    rows the pass selects, so it is never handed to [submit_to_cw];
    after the pass over the layer, however it ends, the stored record
    is the same, every attribute and the geometry unchanged, among the
    same object ids; and so it is after the whole run, the related
    records and the other layers included, for a layer that is not
    also configured as a table. *)
Theorem unflagged_record_untouched W event lyr sr prob_types d s f :
  portal s !! lyr = Some d →
  unique_oids (objectIdField d) (features d) →
  flag_field event ≠ objectIdField d →
  (fields_ids event).2 ≠ objectIdField d →
  f ∈ features d →
  flagged event f = false →
  (∀ rows s1,
      query (reproject W) lyr (WhereEq (flag_field event) (py_str (flag_on event)))
        (Some sr) s = (Ok rows, s1) →
      ∀ row, row ∈ rows →
        oid_of (objectIdField d) row ≠ oid_of (objectIdField d) f) ∧
  (∀ r s',
      sync_rows W event lyr (objectIdField d) sr prob_types s = (r, s') →
      ∃ d', portal s' !! lyr = Some d' ∧
            List.map (oid_of (objectIdField d)) (features d') =
              List.map (oid_of (objectIdField d)) (features d) ∧
            f ∈ features d') ∧
  (lyr ∉ arcgis_tables event → lyr ≠ "" →
   ∃ d', portal (after (main W event) s) !! lyr = Some d' ∧ f ∈ features d').
Proof.
  intros Hd Hu Hfo Hio Hf Hflag. split; [|split].
  - intros rows s1 Hq row Hrow Hoid.
    rewrite (query_run _ _ _ _ _ _ Hd) in Hq. injection Hq as <- <-.
    apply list_elem_of_In, in_map_iff in Hrow as (g & <- & Hg).
    apply filter_In in Hg as [Hg Hgf]. apply list_elem_of_In in Hg.
    assert (g = f) as ->; [|unfold flagged in Hflag; congruence].
    destruct Hu as [_ Hnd].
    by apply (NoDup_map_inj (oid_of (objectIdField d)) (features d)).
  - intros r s' Hrun.
    assert (synced W event sr prob_types (objectIdField d) s f = f) as Hsy.
    { unfold synced. by rewrite Hflag. }
    destruct r as [[]|e].
    + destruct (sync_rows_ok W event lyr sr _ d Hu Hfo Hio s s' Hd Hrun) as (_ & _ & ->).
      rewrite lookup_insert_eq. eexists. split; [done|]. simpl. split.
      * rewrite map_map. apply map_ext_in. intros g Hg. apply list_elem_of_In in Hg.
        unfold synced. destruct (flagged event g); [|done].
        destruct (submission _ _ _ _ _ _ g) as [rid|]; [|done].
        destruct (is_warn rid); [done|].
        unfold written_back. by rewrite !oid_of_set_attribute.
      * rewrite <- Hsy at 1. by apply elem_of_map.
    + destruct (sync_rows_raise W event lyr sr _ d s e s' Hd Hrun) as (_ & _ & <-).
      eauto.
  - intros Htab Hne.
    destruct (untouched_main W event lyr Htab Hne (objectIdField d) f Hfo Hio Hflag s)
      as (d' & Hd' & _ & _ & Hf').
    + by exists d.
    + eauto.
Qed.

(** ** The two defects *)

(** [get_problem_types] always returns, and what it returns is never
    the string [main] compares it with: the test of line 237 cannot
    succeed. *)
Lemma get_problem_types_never_error W s :
  ∃ p s', get_problem_types W s = (Ok p, s') ∧ prob_types_is_error p = false.
Proof.
  unfold get_problem_types.
  rewrite (run_bind_ok _ _ _ _ _ (run_read _ _)).
  rewrite (run_bind_ok _ _ _ _ _ (run_read _ _)).
  unfold try_except.
  match goal with
  | |- context [match ?m s with _ => _ end] => destruct (m s) as [[p|e] s1] eqn:E
  end.
  - assert (∃ v, p = Vocabulary v) as [v ->]; [|eauto].
    repeat (rewrite run_bind in E;
            match type of E with
            | context [match ?m ?st with _ => _ end] =>
                destruct (m st) as [[?|?] ?]; [|discriminate E]
            end).
    injection E as <- _. eauto.
  - eexists _, _. split; [reflexivity|]. reflexivity.
Qed.

(** A submission that returns "error" is not a warning for [main]: the
    row is queued like a submitted one, with "error" as its id. *)
Lemma submission_error_queued W event lyr oid_fld prob_types row acc s oid row_orig rest :
  attributes row !! oid_fld = Some oid →
  value (submit_to_cw W row prob_types (fields_layers event) oid (fields_type event)) s
    = Ok (PyStr "error") →
  value (copy_attachments W lyr oid (PyStr "error")) s = Ok tt →
  value (query (reproject W) lyr (WhereEq oid_fld (py_str oid)) None) s
    = Ok (row_orig :: rest) →
  ∃ s', process_row W event lyr oid_fld prob_types row acc s =
          (Ok (acc ++ [written_back event (PyStr "error") row_orig])%list, s').
Proof.
  intros Hoid Hsub Hatt Hq.
  destruct (process_row_queued W event lyr oid_fld prob_types row acc s oid
              (PyStr "error") row_orig rest Hoid Hsub eq_refl Hatt Hq) as (s' & E & _).
  eauto.
Qed.

(** * More of the script: properties *)

Lemma run_bind_raise {A B} (m : M A) (k : A → M B) s e s' :
  m s = (Raise e, s') → (m ≫= k) s = (Raise e, s').
Proof. intros H. rewrite run_bind, H. reflexivity. Qed.

(** ** Authentication *)

Lemma contains_error_prefix x : Str.contains "error" ("error: " ++ x) = true.
Proof. reflexivity. Qed.

(** X1. Whenever [get_cw_token] returns, it has sent the credentials
    once, without a token, and either its status contains "error" and
    the session token is unchanged, or its status is "success", the
    response had status 0 and the session token is now the token of the
    response.  So the test ["error" in status] of [main] separates the
    two cases. *)
Theorem get_cw_token_status W user pwd s st s' :
  get_cw_token W user pwd s = (Ok st, s') →
  requests s' = (requests s ++ [authenticate_request (baseUrl s) user pwd])%list ∧
  baseUrl s' = baseUrl s ∧ portal s' = portal s ∧ log s' = log s ∧
  ((Str.contains "error" st = true ∧ cw_token s' = cw_token s) ∨
   (st = "success" ∧ Str.contains "error" st = false ∧
    ∃ response v,
      answer W (authenticate_request (baseUrl s) user pwd) = Ok response ∧
      py_getitem response "Status" = Ok (PyInt 0) ∧
      py_getitem response "Value" = Ok v ∧
      py_getitem v "Token" = Ok (cw_token s'))).
Proof.
  unfold get_cw_token, get_response, authenticate_request, answer. intros H.
  run_unfold.
  destruct (http_get W _ _) as [response|e]; [|done]. simpl in H.
  destruct (py_getitem response "Status") as [status|e] eqn:Hst; [|done].
  destruct (is_not_0 status) eqn:Hz.
  - destruct (py_getitem response "Message") as [message|e]; [|done].
    injection H as <- <-. repeat (split; [done|]). left. done.
  - apply is_not_0_false in Hz as ->.
    destruct (py_getitem response "Value") as [v|e] eqn:Hv; [|done].
    destruct (py_getitem v "Token") as [tok|e] eqn:Ht; [|done].
    injection H as <- <-. repeat (split; [done|]). right.
    split; [done|]. split; [done|]. exists response, v. done.
Qed.

(** X2. When Cityworks refuses the credentials (a status that is not 0,
    with its message), the run stops there: [main] returns, the failure
    is in the log and on the console, the only request made is the
    authentication, and the session token and every feature service
    are as before. *)
Theorem authentication_failure_aborts W event s response status message :
  gis_connect W (arcgis_url event) (arcgis_username event) (arcgis_password event) = Ok tt →
  answer W (authenticate_request (cityworks_url event)
              (cityworks_username event) (cityworks_password event)) = Ok response →
  py_getitem response "Status" = Ok status →
  is_not_0 status = true →
  py_getitem response "Message" = Ok message →
  let failure := "error: " ++ py_str status ++ ": " ++ py_str message in
  value (main W event) s = Ok tt ∧
  portal (after (main W event) s) = portal s ∧
  cw_token (after (main W event) s) = cw_token s ∧
  requests (after (main W event) s) =
    (requests s ++ [authenticate_request (cityworks_url event)
                      (cityworks_username event) (cityworks_password event)])%list ∧
  log (after (main W event) s) =
    (log s ++ [(nl ++ nl ++ now W ++ nl)%string;
               ("Failed to get Cityworks token. " ++ failure ++ nl)%string])%list ∧
  stdout (after (main W event) s) =
    (stdout s ++ [("error: Failed to get Cityworks token.  " ++ failure ++ nl)%string])%list.
Proof.
  intros Hgis Hresp Hst Hz Hmsg. cbv zeta. unfold answer, authenticate_request in *.
  unfold value, after, main, setup, get_cw_token, get_response, report, log_to_file,
    log_write, print.
  run_unfold. rewrite Hgis. simpl. rewrite Hresp. simpl. rewrite Hst. simpl.
  rewrite Hz. rewrite Hmsg. simpl.
  rewrite <- !app_assoc. simpl. done.
Qed.

(** ** Spatial reference *)

(** X3. When the user preferences of Cityworks lack the spatial
    reference (the "Value" or the "SpatialReference" key is missing),
    the run stops after the second request: the failure is logged and
    printed, the problem types are never asked for and no feature
    service is touched. *)
Theorem spatial_reference_missing_aborts W event s token response k :
  authenticates W event token →
  answer W (preferences_request (cityworks_url event) token) = Ok response →
  nested_item response "Value" "SpatialReference" = Raise (KeyError k) →
  value (main W event) s = Ok tt ∧
  portal (after (main W event) s) = portal s ∧
  requests (after (main W event) s) =
    (requests s ++ [authenticate_request (cityworks_url event)
                      (cityworks_username event) (cityworks_password event);
                    preferences_request (cityworks_url event) token])%list ∧
  log (after (main W event) s) =
    (log s ++ [(nl ++ nl ++ now W ++ nl)%string;
               ("Spatial reference not defined" ++ nl)%string])%list ∧
  stdout (after (main W event) s) =
    (stdout s ++ [("error: Spatial reference not defined" ++ nl)%string])%list.
Proof.
  intros (Hgis & response0 & Hresp0 & Hst0 & Htok) Hresp Hsr.
  unfold answer, authenticate_request, preferences_request, nested_item in *.
  destruct (py_getitem response0 "Value") as [v0|] eqn:Hv0; [|done].
  unfold value, after, main, setup, get_cw_token, get_wkid, get_response, report,
    log_to_file, log_write, print.
  run_unfold. rewrite Hgis. simpl. rewrite Hresp0. simpl. rewrite Hst0. simpl.
  rewrite Hv0. rewrite Htok. simpl. rewrite Hresp. simpl.
  destruct (py_getitem response "Value") as [v|e] eqn:Hv; simpl.
  - rewrite Hsr. simpl. rewrite <- !app_assoc. done.
  - injection Hsr as ->. simpl. rewrite <- !app_assoc. done.
Qed.

(** X4. [get_wkid] answers "error" only for a missing key.  Any other
    fault of the lookup, such as a "Value" that is null, leaves
    [get_wkid] as an exception, after the one request. *)
Theorem get_wkid_other_fault W s response e :
  answer W (preferences_request (baseUrl s) (cw_token s)) = Ok response →
  nested_item response "Value" "SpatialReference" = Raise e →
  (∀ k, e ≠ KeyError k) →
  get_wkid W s =
    (Raise e, add_request (preferences_request (baseUrl s) (cw_token s)) s).
Proof.
  unfold answer, preferences_request, nested_item. intros Hresp Hsr Hne.
  unfold get_wkid, get_response. run_unfold. rewrite Hresp. simpl.
  destruct (py_getitem response "Value") as [v|e'] eqn:Hv; simpl.
  - rewrite Hsr. destruct e; try done. by destruct (Hne key).
  - injection Hsr as ->. destruct e; try done. by destruct (Hne key).
Qed.

(** ** Problem types *)


Lemma problem_loop_pure items acc s :
  ∃ r, for_fold items acc
         (λ val values,
            sid ← getitem val "ProblemSid";
            n ← lift (py_int sid);
            code ← getitem val "ProblemCode";
            key ← lift (py_upper code);
            mret (<[key := n]> (values : gmap string Z))) s = (r, s).
Proof.
  revert acc. induction items as [|item items IH]; intros acc; simpl; [by eexists|].
  rewrite run_bind. run_unfold.
  destruct (py_getitem item "ProblemSid") as [sid|]; [|by eexists].
  destruct (py_int sid) as [n|]; [|by eexists].
  destruct (py_getitem item "ProblemCode") as [code|]; [|by eexists].
  destruct (py_upper code) as [key|]; [|by eexists].
  apply IH.
Qed.




(** X6. [get_problem_types] never raises: whatever Cityworks answers, it
    makes its one request and returns, changing nothing else, either a
    vocabulary or, for any fault on the way, a string that starts with
    "error: " and carries the text of the fault. *)
Theorem get_problem_types_returns W s :
  ∃ p,
    get_problem_types W s =
      (Ok p, add_request (problems_request (baseUrl s) (cw_token s)) s) ∧
    ((∃ values, p = Vocabulary values) ∨
     (∃ e, p = ProbTypesStr ("error: " ++ exn_str e))).
Proof.
  unfold problems_request.
  assert (∀ items, ∃ r, for_fold items (∅ : gmap string Z)
         (λ val values,
            sid ← getitem val "ProblemSid";
            n ← lift (py_int sid);
            code ← getitem val "ProblemCode";
            key ← lift (py_upper code);
            mret (<[key := n]> values))
         (add_request (Get (baseUrl s ++ "/Services/AMS/ServiceRequest/Problems")
                         {| p_token := Some (cw_token s);
                            p_data := Some (<["ForPublicOnly" := PyStr "true"]> ∅) |}) s)
         = (r, add_request (Get (baseUrl s ++ "/Services/AMS/ServiceRequest/Problems")
                         {| p_token := Some (cw_token s);
                            p_data := Some (<["ForPublicOnly" := PyStr "true"]> ∅) |}) s))
    as Hloop by (intros; apply problem_loop_pure).
  unfold get_problem_types, get_response. run_unfold.
  destruct (http_get W _ _) as [response|e]; simpl; [|eexists; split; [reflexivity | eauto]].
  destruct (py_getitem response "Value") as [vals|e]; simpl;
    [|eexists; split; [reflexivity | eauto]].
  destruct (py_iter vals) as [items|e]; simpl; [|eexists; split; [reflexivity | eauto]].
  destruct (Hloop items) as [[values|e] ->]; simpl; eexists; (split; [reflexivity | eauto]).
Qed.

(** ** Submission *)

Lemma request_id_of_nested response :
  request_id_of response =
  match nested_item response "Value" "RequestId" with
  | Ok requestid => Ok requestid
  | Raise (KeyError _) => Ok (PyStr "error")
  | Raise e => Raise e
  end.
Proof.
  unfold request_id_of, nested_item.
  destruct (py_getitem response "Value") as [v|[]]; reflexivity.
Qed.

(** X7. What a submission returns for a record that is mapped in full:
    the request id of the response when it has one, the string "error"
    when the "Value" or the "RequestId" key is missing, and an
    exception for any other fault of the lookup (a null "Value") or of
    the request itself. *)
Theorem submission_result W row vocab fields oid tf s sid x y :
  resolves vocab (attributes row) tf.2 sid →
  Forall (λ fieldset, is_Some (attributes row !! fieldset.2)) fields →
  py_getitem (geometry row) "x" = Ok x →
  py_getitem (geometry row) "y" = Ok y →
  let request := create_request (baseUrl s) (cw_token s)
                   (create_payload (attributes row) fields x y tf.1 sid) in
  let returned := value (submit_to_cw W row (Vocabulary vocab) fields oid tf) s in
  (∀ e, answer W request = Raise e → returned = Raise e) ∧
  (∀ response requestid,
      answer W request = Ok response →
      nested_item response "Value" "RequestId" = Ok requestid →
      returned = Ok requestid) ∧
  (∀ response k,
      answer W request = Ok response →
      nested_item response "Value" "RequestId" = Raise (KeyError k) →
      returned = Ok (PyStr "error")) ∧
  (∀ response e,
      answer W request = Ok response →
      nested_item response "Value" "RequestId" = Raise e →
      (∀ k, e ≠ KeyError k) →
      returned = Raise e).
Proof.
  intros (t & Ht & Hsid) Hfields Hx Hy request returned.
  subst request returned. unfold answer, create_request.
  rewrite (submit_to_cw_result W row vocab fields oid tf s t sid x y Ht Hsid Hfields Hx Hy).
  repeat split.
  - by intros e ->.
  - intros response rid -> H. by rewrite request_id_of_nested, H.
  - intros response k -> H. by rewrite request_id_of_nested, H.
  - intros response e -> H Hne. rewrite request_id_of_nested, H.
    destruct e; try done. by destruct (Hne key).
Qed.

Lemma mapped_fields_fault attrs before c a later acc s :
  Forall (λ fieldset, is_Some (attrs !! fieldset.2)) before →
  attrs !! a = None →
  for_fold (before ++ (c, a) :: later)%list acc
    (λ fieldset values,
       let '(c_field, a_field) := fieldset in
       v ← attr attrs a_field;
       mret (<[c_field := PyStr (py_str v)]> (values : gmap string pyval))) s
  = (Raise (KeyError a), s).
Proof.
  intros Hbefore Ha. revert acc.
  induction Hbefore as [|[c' a'] before [v Hv] _ IH]; intros acc; simpl.
  - rewrite run_bind. rewrite run_bind. unfold attr at 1. by rewrite Ha.
  - simpl in Hv. rewrite run_bind. rewrite run_bind. unfold attr at 1. rewrite Hv. simpl.
    apply IH.
Qed.

(** X8. Nothing is sent for a record that cannot be mapped in full: when
    a mapped source attribute is missing from the record, or its
    geometry has no "x" or no "y" (a record without geometry), the
    mapper faults before the create request and the state, with the
    trace of requests, is as it was. *)
Theorem unmapped_record_not_submitted W row vocab fields oid tf s sid :
  resolves vocab (attributes row) tf.2 sid →
  (∀ before c a later,
      fields = (before ++ (c, a) :: later)%list →
      Forall (λ fieldset, is_Some (attributes row !! fieldset.2)) before →
      attributes row !! a = None →
      submit_to_cw W row (Vocabulary vocab) fields oid tf s = (Raise (KeyError a), s)) ∧
  (∀ e,
      Forall (λ fieldset, is_Some (attributes row !! fieldset.2)) fields →
      py_getitem (geometry row) "x" = Raise e →
      submit_to_cw W row (Vocabulary vocab) fields oid tf s = (Raise e, s)) ∧
  (∀ x e,
      Forall (λ fieldset, is_Some (attributes row !! fieldset.2)) fields →
      py_getitem (geometry row) "x" = Ok x →
      py_getitem (geometry row) "y" = Raise e →
      submit_to_cw W row (Vocabulary vocab) fields oid tf s = (Raise e, s)).
Proof.
  destruct tf as [tf1 tf2]. simpl. intros (t & Ht & Hsid). repeat split.
  - intros before c a later -> Hbefore Ha. unfold submit_to_cw. simpl.
    rewrite (run_bind_ok _ _ _ _ _ (resolve_run _ _ _ _ _ _ _ Ht Hsid)).
    by rewrite (run_bind_raise _ _ _ _ _ (mapped_fields_fault _ _ _ _ _ _ _ Hbefore Ha)).
  - intros e Hfields Hx. unfold submit_to_cw. simpl.
    rewrite (run_bind_ok _ _ _ _ _ (resolve_run _ _ _ _ _ _ _ Ht Hsid)).
    rewrite (run_bind_ok _ _ _ _ _ (mapped_fields_run _ _ _ _ Hfields)).
    rewrite run_bind. unfold getitem at 1, lift at 1. by rewrite Hx.
  - intros x e Hfields Hx Hy. unfold submit_to_cw. simpl.
    rewrite (run_bind_ok _ _ _ _ _ (resolve_run _ _ _ _ _ _ _ Ht Hsid)).
    rewrite (run_bind_ok _ _ _ _ _ (mapped_fields_run _ _ _ _ Hfields)).
    rewrite run_bind. unfold getitem at 1, lift at 1. rewrite Hx.
    rewrite run_bind. unfold getitem at 1, lift at 1. by rewrite Hy.
Qed.

(** X9. With the string that a failed vocabulary fetch leaves in place
    of the vocabulary, [submit_to_cw] never reaches Cityworks: it
    returns or faults with the state as it was.  A record whose problem
    type is a string faults with the [TypeError] of indexing a string,
    which no handler of the mapper catches; a record whose problem type
    is null still gets its warning. *)
Theorem failed_vocabulary_never_submits W row text fields oid tf s :
  after (submit_to_cw W row (ProbTypesStr text) fields oid tf) s = s ∧
  (∀ t, attributes row !! tf.2 = Some (PyStr t) →
        value (submit_to_cw W row (ProbTypesStr text) fields oid tf) s
          = Raise (TypeError "string indices must be integers")) ∧
  (attributes row !! tf.2 = Some PyNone →
   ∃ msg, value (submit_to_cw W row (ProbTypesStr text) fields oid tf) s = Ok (PyStr msg) ∧
          is_warn (PyStr msg) = true).
Proof.
  destruct tf as [tf1 tf2]. simpl. unfold after, value, submit_to_cw.
  run_unfold. repeat split.
  - destruct (attributes row !! tf2) as [[]|] eqn:Hv; simpl; rewrite ?Hv; done.
  - intros t Ht. rewrite Ht. done.
  - intros Hnone. rewrite Hnone. simpl. eexists. split; reflexivity.
Qed.

(** X10. Write-backs are applied in one batch after the loop, so a fault
    at any row discards the batch: when the pass over the rows ends in
    an exception, no feature service has changed, whatever was sent to
    Cityworks for the rows before. *)
Theorem fault_discards_batch W event lyr oid_fld sr prob_types s e s' :
  sync_rows W event lyr oid_fld sr prob_types s = (Raise e, s') →
  portal s' = portal s ∧ baseUrl s' = baseUrl s ∧ cw_token s' = cw_token s.
Proof.
  intros H. unfold sync_rows in H.
  destruct (portal s !! lyr) as [d|] eqn:Hd.
  - rewrite (run_bind_ok _ _ _ _ _ (query_run _ _ _ _ _ _ Hd)) in H.
    inv_bind H as U s1 E.
    + exfalso.
      assert (same_env s s1) as (_ & _ & Hp).
      { eapply (stable_step _ s s); [|done|exact E].
        apply stable_for_fold. intros. apply stable_process_row. }
      destruct U as [|u us]; [done|].
      assert (portal s1 !! lyr = Some d) as Hd1 by (by rewrite <- Hp).
      rewrite (run_bind_ok _ _ _ _ _ (edit_features_run _ _ _ _ Hd1)) in H.
      unfold report in H. simpl in H. done.
    + injection H as <- <-.
      assert (same_env s s1) as (? & ? & ?); [|done].
      eapply (stable_step _ s s); [|done|exact E].
      apply stable_for_fold. intros. apply stable_process_row.
  - unfold query, properties in H. run_unfold. rewrite Hd in H. simpl in H.
    by injection H as <- <-.
Qed.

(** ** Comments *)

Lemma comment_fields_run attrs fields acc s :
  Forall (λ field, is_Some (attrs !! field.2)) fields →
  for_fold fields acc
    (λ field values,
       v ← attr attrs field.2;
       mret (<[field.1 := v]> (values : gmap string pyval))) s
  = (Ok (comment_fields attrs fields acc), s).
Proof.
  intros H. revert acc. induction H as [|[c a] fields [v Hv] _ IH]; intros acc; simpl.
  - reflexivity.
  - simpl in Hv. rewrite run_bind. rewrite run_bind. unfold attr at 1. simpl. rewrite Hv.
    simpl. rewrite IH. unfold comment_fields. simpl. by rewrite ?Hv.
Qed.

Lemma comment_fields_other attrs fields acc k :
  k ∉ List.map fst fields → comment_fields attrs fields acc !! k = acc !! k.
Proof.
  revert acc. induction fields as [|[c a] fields IH]; intros acc Hk; simpl; [done|].
  unfold comment_fields in *. simpl. rewrite IH.
  - apply lookup_insert_ne. intros ->. apply Hk. simpl. by left.
  - intros Hin. apply Hk. simpl. by right.
Qed.

Lemma comment_fields_lookup attrs fields acc c a v :
  NoDup (List.map fst fields) → (c, a) ∈ fields → attrs !! a = Some v →
  comment_fields attrs fields acc !! c = Some v.
Proof.
  revert acc. induction fields as [|[c' a'] fields IH]; intros acc Hnd Hin Hv; simpl.
  - by apply elem_of_nil in Hin.
  - simpl in Hnd. apply NoDup_cons in Hnd as [Hc Hnd].
    apply elem_of_cons in Hin as [[= <- <-]|Hin].
    + change (comment_fields attrs ((c, a) :: fields) acc !! c)
        with (comment_fields attrs fields
                (<[c := default PyNone (attrs !! a)]> acc) !! c).
      rewrite comment_fields_other by done. rewrite Hv. simpl. by rewrite lookup_insert_eq.
    + by apply IH.
Qed.

Lemma comment_fields_keys attrs fields acc k :
  is_Some (comment_fields attrs fields acc !! k) →
  is_Some (acc !! k) ∨ k ∈ List.map fst fields.
Proof.
  revert acc. induction fields as [|[c a] fields IH]; intros acc H; simpl; [by left|].
  destruct (IH _ H) as [Hacc|Hin]; [|right; by right].
  destruct (decide (c = k)) as [->|Hne]; [right; by left|].
  left. by rewrite lookup_insert_ne in Hacc.
Qed.

(** X11. [copy_comments] sends one request whose data hold the external
    id of the parent, as the parent has it (null when the parent was
    never submitted), under the external link field, and each mapped
    attribute of the related record, as it is and not as text, under
    its external name; nothing else is sent.  When the parent has no
    such attribute the call faults before any request. *)
Theorem copy_comments_payload W record parent fields ids s :
  (∀ pid,
      attributes parent !! ids.2 = Some pid →
      Forall (λ field, is_Some (attributes record !! field.2)) fields →
      ∃ values,
        copy_comments W record parent fields ids s =
          (answer W (comment_request (baseUrl s) (cw_token s) values),
           add_request (comment_request (baseUrl s) (cw_token s) values) s) ∧
        (ids.1 ∉ List.map fst fields → values !! ids.1 = Some pid) ∧
        (NoDup (List.map fst fields) →
         ∀ c a v, (c, a) ∈ fields → attributes record !! a = Some v →
                  values !! c = Some v) ∧
        (∀ k, is_Some (values !! k) → k = ids.1 ∨ k ∈ List.map fst fields)) ∧
  (attributes parent !! ids.2 = None →
   copy_comments W record parent fields ids s = (Raise (KeyError ids.2), s)).
Proof.
  destruct ids as [id1 id2]. simpl. split.
  - intros pid Hpid Hfields.
    exists (comment_fields (attributes record) fields (<[id1 := pid]> ∅)).
    split; [|split; [|split]].
    + unfold copy_comments, comment_request, answer. simpl.
      rewrite run_bind. unfold attr at 1. rewrite Hpid. simpl.
      rewrite (run_bind_ok _ _ _ _ _ (comment_fields_run _ _ _ _ Hfields)).
      rewrite !(run_bind_ok _ _ _ _ _ (run_read _ _)).
      unfold get_response. rewrite run_bind. reflexivity.
    + intros Hk. rewrite comment_fields_other by done. by rewrite lookup_insert_eq.
    + intros Hnd c a v Hin Hv. by apply (comment_fields_lookup _ _ _ c a v).
    + intros k Hk. apply comment_fields_keys in Hk as [Hk|Hk]; [|by right].
      left. destruct (decide (id1 = k)) as [->|Hne]; [done|].
      rewrite lookup_insert_ne, lookup_empty in Hk by done. by destruct Hk.
  - intros Hnone. unfold copy_comments. simpl.
    rewrite run_bind. unfold attr at 1. by rewrite Hnone.
Qed.

(** ** Attachments *)

(** X12. When every attachment of a record downloads and every upload
    answers a status payload, [copy_attachments] makes exactly one
    upload per attachment, in the order of the list, each for the same
    request id and under the base name of the downloaded file; failed
    uploads are not tried again. *)
Theorem one_upload_per_attachment W lyr oid requestid atts paths s :
  att_get_list W lyr oid = Ok atts →
  Forall2 (λ att path,
             ∃ id, py_getitem att "id" = Ok id ∧
                   att_download W lyr oid id = Ok path ∧
                   ∃ response,
                     answer W (upload_request (baseUrl s) (cw_token s) requestid path)
                       = Ok response ∧
                     status_payload response) atts paths →
  value (copy_attachments W lyr oid requestid) s = Ok tt ∧
  requests (after (copy_attachments W lyr oid requestid) s) =
    (requests s ++ List.map (upload_request (baseUrl s) (cw_token s) requestid) paths)%list.
Proof.
  intros Hlist Hall. unfold value, after, copy_attachments.
  rewrite run_bind. unfold lift at 1. rewrite Hlist. unfold for_each.
  assert (∀ s1, baseUrl s1 = baseUrl s → cw_token s1 = cw_token s →
    ∃ s', for_fold atts tt
            (λ attachment _,
               response ← copy_attachment W lyr attachment oid requestid;
               status ← getitem response "Status";
               if is_not_0 status then
                 msgs ← getitem response "ErrorMessages";
                 report ("Error while copying attachment to Cityworks: "
                         ++ py_str msgs ++ nl)
               else mret tt) s1 = (Ok tt, s') ∧
    requests s' =
      (requests s1 ++ List.map (upload_request (baseUrl s) (cw_token s) requestid) paths)%list)
    as Hloop.
  { clear Hlist.
    induction Hall as [|att path atts paths (id & Hid & Hdl & response & Hresp & Hpay) _ IH];
      intros s1 Hb Ht.
    - exists s1. simpl. by rewrite app_nil_r.
    - simpl. rewrite run_bind.
      assert (copy_attachment W lyr att oid requestid s1 =
              (Ok response,
               add_request (upload_request (baseUrl s) (cw_token s) requestid path) s1)) as E.
      { unfold copy_attachment, upload_request, answer in *. run_unfold.
        rewrite Hid. simpl. rewrite Hdl. simpl. rewrite Hb, Ht, Hresp. done. }
      rewrite (run_bind_ok _ _ _ _ _ E).
      destruct Hpay as (status & Hst & Hmsgs).
      rewrite run_bind. unfold getitem at 1, lift at 1. rewrite Hst.
      destruct (is_not_0 status) eqn:Hz.
      + destruct (Hmsgs eq_refl) as [msgs Hm].
        rewrite run_bind. unfold getitem at 1, lift at 1. rewrite Hm.
        unfold report, log_to_file, log_write, modify.
        destruct (IH (add_log ("Error while copying attachment to Cityworks: "
                               ++ py_str msgs ++ nl)
                        (add_request (upload_request (baseUrl s) (cw_token s)
                                        requestid path) s1)) Hb Ht) as (s' & E' & Hr).
        exists s'. split; [exact E'|]. rewrite Hr. simpl. by rewrite <- app_assoc.
      + destruct (IH (add_request (upload_request (baseUrl s) (cw_token s)
                                     requestid path) s1) Hb Ht) as (s' & E' & Hr).
        exists s'. split; [exact E'|]. rewrite Hr. simpl. by rewrite <- app_assoc. }
  destruct (Hloop s eq_refl eq_refl) as (s' & E & Hr). simpl. rewrite !E. by split.
Qed.

(** ** Parents and related tables *)

(** X13. [get_parent] returns the first record of the layer, in its
    order, whose key field holds the text of the foreign key of the
    related record, and consults nothing but the layer. *)
Theorem get_parent_first_match W lyr pkey_fld record fkey_fld s d fk before parent later :
  portal s !! lyr = Some d →
  attributes record !! fkey_fld = Some fk →
  features d = (before ++ parent :: later)%list →
  Forall (λ p, eval_where (WhereEq pkey_fld (py_str fk)) p = false) before →
  eval_where (WhereEq pkey_fld (py_str fk)) parent = true →
  get_parent W lyr pkey_fld record fkey_fld s = (Ok parent, s).
Proof.
  intros Hd Hfk Hfs Hbefore Hparent. unfold get_parent.
  rewrite run_bind. unfold attr at 1. rewrite Hfk. simpl.
  rewrite (run_bind_ok _ _ _ _ _ (query_run _ _ _ _ _ _ Hd)). simpl.
  rewrite List.map_id, Hfs, List.filter_app.
  rewrite (filter_none _ before).
  - cbn [app List.filter]. by rewrite Hparent.
  - intros y Hy. rewrite Forall_forall in Hbefore. by apply Hbefore.
Qed.

(** ** The related table of a layer *)

Lemma split_not_nil sep s : Str.split sep s ≠ [].
Proof.
  destruct s as [|c s]; simpl; [done|].
  destruct (Ascii.eqb c sep); [done|]. by destruct (Str.split sep s).
Qed.

Lemma split_app sep p l :
  Str.split sep (p ++ String sep l) = (Str.split sep p ++ Str.split sep l)%list.
Proof.
  induction p as [|c p IH]; simpl.
  - by rewrite Ascii.eqb_refl.
  - destruct (Ascii.eqb c sep); [by rewrite IH|].
    rewrite IH. pose proof (split_not_nil sep p). by destruct (Str.split sep p).
Qed.

Lemma split_no_slash l : no_slash l = true → Str.split "/" l = [l].
Proof.
  induction l as [|c l IH]; simpl; [done|].
  intros [Hc Hl]%andb_true_iff. apply negb_true_iff in Hc. rewrite Hc.
  by rewrite (IH Hl).
Qed.

Lemma set_last_app l x y : set_last (l ++ [x]) y = (l ++ [y])%list.
Proof.
  induction l as [|a l IH]; simpl; [done|].
  rewrite IH. destruct l; simpl; done.
Qed.

Lemma join_cons sep x l :
  l ≠ [] → Str.join sep (x :: l) = x ++ sep ++ Str.join sep l.
Proof. by destruct l. Qed.

Lemma string_app_assoc (a b c : string) : (a ++ b) ++ c = a ++ (b ++ c).
Proof.
  induction a as [|x a IH]; [done|].
  change (String x ((a ++ b) ++ c) = String x (a ++ b ++ c)). by rewrite IH.
Qed.

Lemma join_app sep l y :
  l ≠ [] → Str.join sep (l ++ [y]) = Str.join sep l ++ sep ++ y.
Proof.
  induction l as [|a l IH]; [done|]. intros _.
  destruct l as [|b l].
  - reflexivity.
  - change ((a :: b :: l) ++ [y])%list with (a :: ((b :: l) ++ [y]))%list.
    rewrite (join_cons sep a ((b :: l) ++ [y])) by (simpl; discriminate).
    rewrite IH by done.
    rewrite (join_cons sep a (b :: l)) by done. by rewrite !string_app_assoc.
Qed.

Lemma join_split p : Str.join "/" (Str.split "/" p) = p.
Proof.
  induction p as [|c p IH]; simpl; [done|].
  pose proof (split_not_nil "/" p) as Hne.
  destruct (Ascii.eqb_spec c "/") as [->|Hc].
  - rewrite join_cons by done. by rewrite IH.
  - destruct (Str.split "/" p) as [|q qs]; [done|].
    destruct qs as [|q' qs]; simpl in *; by rewrite <- IH.
Qed.

(** X14. The URL tried for a relationship is the URL of the layer with
    its last path segment replaced by the id of the related table; a
    layer URL that ends in a slash keeps its layer number and gains the
    table id after it, and a URL without a slash is replaced whole. *)
Theorem table_url_replaces_last_segment prefix last relate :
  no_slash last = true →
  table_url (prefix ++ "/" ++ last) relate = prefix ++ "/" ++ pretty (relatedTableId relate) ∧
  table_url last relate = pretty (relatedTableId relate).
Proof.
  intros Hlast. unfold table_url. split.
  - change (prefix ++ "/" ++ last) with (prefix ++ String "/" last).
    rewrite split_app, (split_no_slash _ Hlast), set_last_app.
    rewrite join_app by apply split_not_nil. by rewrite join_split.
  - by rewrite (split_no_slash _ Hlast).
Qed.

(** X15. [find_reltable] returns the table URL of the first
    relationship of the layer, in the order of its properties, whose
    table URL is among the configured tables, and the empty string
    when no relationship has one. *)
Theorem find_reltable_first_configured layer rels tables :
  (find_reltable layer rels tables = "" ∧
   Forall (λ relate, table_url layer relate ∉ tables) rels) ∨
  (∃ before relate later,
      rels = (before ++ relate :: later)%list ∧
      Forall (λ r, table_url layer r ∉ tables) before ∧
      table_url layer relate ∈ tables ∧
      find_reltable layer rels tables = table_url layer relate).
Proof.
  induction rels as [|r rels IH]; simpl.
  - left. by split.
  - fold (table_url layer r). case_bool_decide as Hin.
    + right. exists [], r, rels. by repeat split.
    + destruct IH as [[E Hall]|(before & relate & later & -> & Hb & Hr & E)].
      * left. split; [done|]. by constructor.
      * right. exists (r :: before), relate, later. repeat split; try done.
        by constructor.
Qed.

(** ** Layers the script cannot finish *)

Lemma sync_rows_layer W event lyr oid_fld sr prob_types s r s1 d :
  portal s !! lyr = Some d →
  sync_rows W event lyr oid_fld sr prob_types s = (r, s1) →
  ∃ fs, portal s1 !! lyr = Some (with_features d fs).
Proof.
  intros Hd H. unfold sync_rows in H.
  rewrite (run_bind_ok _ _ _ _ _ (query_run _ _ _ _ _ _ Hd)) in H.
  assert (d = with_features d (features d)) as Hid by (by destruct d).
  inv_bind H as U s2 E.
  - assert (same_env s s2) as (_ & _ & Hp).
    { eapply (stable_step _ s s); [|done|exact E].
      apply stable_for_fold. intros. apply stable_process_row. }
    assert (portal s2 !! lyr = Some d) as Hd2 by (by rewrite <- Hp).
    destruct U as [|u us].
    + injection H as <- <-. exists (features d). by rewrite <- Hid.
    + rewrite (run_bind_ok _ _ _ _ _ (edit_features_run _ _ _ _ Hd2)) in H.
      unfold report in H. simpl in H. injection H as <- <-. simpl.
      eexists. apply lookup_insert_eq.
  - injection H as <- <-.
    assert (same_env s s2) as (_ & _ & Hp).
    { eapply (stable_step _ s s); [|done|exact E].
      apply stable_for_fold. intros. apply stable_process_row. }
    exists (features d). by rewrite <- Hp, <- Hid.
Qed.

(** X16. A layer whose properties list no relationship, or whose
    related table (the empty string when none is configured) is no
    service of the portal, is not finished: after the rows were
    submitted and written back, the related phase faults, the state is
    the one the rows left, and [Finished processing] is not printed. *)
Theorem layer_without_related_table_faults W event sr prob_types layer s d s1 :
  portal s !! layer = Some d →
  sync_rows W event layer (objectIdField d) sr prob_types s = (Ok tt, s1) →
  (relationships d = [] →
   process_layer W event sr prob_types layer s =
     (Raise (IndexError "list index out of range"), s1)) ∧
  (relationships d ≠ [] →
   portal s !! find_reltable layer (relationships d) (arcgis_tables event) = None →
   ∃ e, process_layer W event sr prob_types layer s = (Raise e, s1)).
Proof.
  intros Hd Hrows.
  destruct (sync_rows_layer _ _ _ _ _ _ _ _ _ _ Hd Hrows) as [fs Hd1].
  assert (process_layer W event sr prob_types layer s =
            (sync_related W event layer
               (find_reltable layer (relationships d) (arcgis_tables event))
               (objectIdField d) ;; print ("Finished processing: " ++ name d)) s1) as ->.
  { unfold process_layer.
    rewrite (run_bind_ok _ _ _ _ _ (properties_run _ _ _ Hd)).
    by rewrite (run_bind_ok _ _ _ _ _ Hrows). }
  split.
  - intros Hrels. unfold sync_related. rewrite run_bind.
    rewrite (run_bind_ok _ _ _ _ _ (properties_run _ _ _ Hd1)).
    simpl. rewrite Hrels. reflexivity.
  - intros Hrels Hnone.
    destruct (relationships d) as [|r rs] eqn:Er; [done|].
    set (reltable := find_reltable layer (r :: rs) (arcgis_tables event)) in *.
    assert (portal s1 !! reltable = None) as Hnone1.
    { assert (layer ≠ reltable) as Hne by (intros E; rewrite <- E, Hd in Hnone; done).
      pose proof (keeps_sync_rows W event reltable layer (objectIdField d) sr prob_types
                    Hne s) as Hk.
      unfold after in Hk. rewrite Hrows in Hk. simpl in Hk. by rewrite Hk. }
    exists (Exception_ ("Invalid URL: " ++ reltable)).
    unfold sync_related. rewrite run_bind.
    rewrite (run_bind_ok _ _ _ _ _ (properties_run _ _ _ Hd1)).
    simpl. rewrite Er. rewrite (run_bind_ok _ _ _ _ _ (first_keyField_run _ _ _)).
    unfold properties. run_unfold. by rewrite Hnone1.
Qed.

(** X17. The object id of a related record is read under the name of
    the object-id field of the layer, not of the table: when the first
    unflagged related record has no attribute of that name, the related
    phase faults with a [KeyError] before any request and nothing is
    written. *)
Theorem related_oid_read_by_layer_field W event lyr reltable oid_fld s d rd r1 rs1 r2 rs2
    record rest :
  portal s !! lyr = Some d → relationships d = r1 :: rs1 →
  portal s !! reltable = Some rd → relationships rd = r2 :: rs2 →
  List.filter (eval_where (WhereIsNull (flag_field event))) (features rd) = record :: rest →
  attributes record !! oid_fld = None →
  sync_related W event lyr reltable oid_fld s = (Raise (KeyError oid_fld), s).
Proof.
  intros Hd Hr1 Hrd Hr2 Hsel Hnone.
  rewrite (sync_related_unfold W event lyr reltable oid_fld d rd r1 r2 rs1 rs2
             Hr1 Hr2 s Hd Hrd).
  rewrite Hsel. rewrite run_bind. cbn [for_fold]. rewrite run_bind.
  unfold process_related at 1. rewrite run_bind. unfold attr at 1. by rewrite Hnone.
Qed.

(** ** The trace of calls *)

Lemma prefix_app (a b : string) : String.prefix a (a ++ b) = true.
Proof.
  induction a as [|c a IH]; [by destruct b|].
  change (String c a ++ b) with (String c (a ++ b)). simpl.
  destruct (ascii_dec c c); [exact IH|done].
Qed.

Lemma sends_quiet {A} (m : M A) s :
  baseUrl (after m s) = baseUrl s → cw_token (after m s) = cw_token s →
  requests (after m s) = requests s → Sends s m.
Proof.
  intros Hb Ht Hr. split; [done|split; [done|]].
  exists []. by rewrite app_nil_r.
Qed.

Lemma sends_bind {A B} (m : M A) (k : A → M B) s :
  Sends s m → (∀ a s1, m s = (Ok a, s1) → Sends s1 (k a)) → Sends s (m ≫= k).
Proof.
  intros (Hb & Ht & new & Hr & Hall) Hk. unfold Sends, after in *.
  rewrite run_bind. destruct (m s) as [[a|e] s1] eqn:E; simpl in *.
  - destruct (Hk a s1 eq_refl) as (Hb' & Ht' & new' & Hr' & Hall').
    rewrite Hb', Ht', Hr', Hb, Ht, Hr. split; [done|split; [done|]].
    exists (new ++ new')%list. split; [by rewrite app_assoc|].
    apply Forall_app. split; [done|]. by rewrite Hb, Ht in Hall'.
  - split; [done|split; [done|]]. by exists new.
Qed.

Lemma sends_seq {A B} (m : M A) (k : A → M B) s :
  Sends s m → (∀ a s1, Sends s1 (k a)) → Sends s (m ≫= k).
Proof. intros Hm Hk. apply sends_bind; [done|]. intros. apply Hk. Qed.

Lemma sends_read {A B} (f : State → A) (k : A → M B) s :
  Sends s (k (f s)) → Sends s (read f ≫= k).
Proof. intros H. apply sends_bind; [by apply sends_quiet|]. by intros a s1 [= <- <-]. Qed.

Lemma sends_try_except {A} (m : M A) (h : exn → option (M A)) s :
  Sends s m → (∀ e k s1, h e = Some k → Sends s1 k) → Sends s (try_except m h).
Proof.
  intros (Hb & Ht & new & Hr & Hall) Hh. unfold Sends, after, try_except in *.
  destruct (m s) as [[a|e] s1] eqn:E; simpl in *.
  - split; [done|split; [done|]]. by exists new.
  - destruct (h e) as [k|] eqn:Ek; simpl.
    + destruct (Hh e k s1 Ek) as (Hb' & Ht' & new' & Hr' & Hall').
      rewrite Hb', Ht', Hr', Hb, Ht, Hr. split; [done|split; [done|]].
      exists (new ++ new')%list. split; [by rewrite app_assoc|].
      apply Forall_app. split; [done|]. by rewrite Hb, Ht in Hall'.
    + split; [done|split; [done|]]. by exists new.
Qed.

Lemma sends_for_fold {A B} (l : list A) (acc : B) (body : A → B → M B) :
  (∀ x b s, Sends s (body x b)) → ∀ s, Sends s (for_fold l acc body).
Proof.
  intros Hbody. revert acc. induction l as [|x l IH]; intros acc s; simpl.
  - by apply sends_quiet.
  - apply sends_bind; [apply Hbody|]. intros. apply IH.
Qed.

Lemma sends_get_response W path data s :
  Sends s (get_response W (baseUrl s ++ path)
             {| p_token := Some (cw_token s); p_data := data |}).
Proof.
  split; [|split].
  - unfold after, get_response. by run_unfold.
  - unfold after, get_response. by run_unfold.
  - eexists [_]. split.
    + unfold after, get_response. by run_unfold.
    + constructor; [|done]. split; [apply prefix_app|done].
Qed.

Lemma sends_pure {A} (r : result A) s : Sends s (lift r).
Proof. by apply sends_quiet. Qed.

Lemma sends_ret {A} (a : A) s : Sends s (mret a).
Proof. by apply sends_quiet. Qed.

Lemma sends_raise {A} e s : Sends s (raise e : M A).
Proof. by apply sends_quiet. Qed.

Lemma sends_attr d k s : Sends s (attr d k).
Proof. apply sends_quiet; unfold after, attr; by destruct (d !! k). Qed.

Lemma sends_getitem v k s : Sends s (getitem v k).
Proof. by apply sends_quiet. Qed.

Lemma sends_report msg s : Sends s (report msg).
Proof. by apply sends_quiet. Qed.

Lemma sends_print msg s : Sends s (print msg).
Proof. by apply sends_quiet. Qed.

Lemma sends_properties url s : Sends s (properties url).
Proof.
  apply sends_quiet; unfold after, properties; run_unfold;
    by destruct (portal s !! url).
Qed.

Lemma sends_query rp url w sr s : Sends s (query rp url w sr).
Proof.
  apply sends_quiet; unfold after, query, properties; run_unfold;
    by destruct (portal s !! url).
Qed.

Lemma sends_edit_features url us s : Sends s (edit_features url us).
Proof.
  apply sends_quiet; unfold after, edit_features, properties; run_unfold;
    by destruct (portal s !! url).
Qed.

Create HintDb sends.
#[export] Hint Resolve sends_pure sends_ret sends_raise sends_attr sends_getitem
  sends_report sends_print sends_properties sends_query sends_edit_features
  sends_get_response : sends.

(** Goes through a computation whose calls are made with the globals. *)
Ltac sends :=
  repeat first
    [ progress intros
    | solve [auto with sends]
    | apply sends_for_fold
    | apply sends_read
    | apply sends_seq
    | apply sends_try_except
    | match goal with
      | H : Some _ = Some _ |- _ => injection H as <-
      | H : match ?x with _ => _ end = Some _ |- _ => destruct x; simplify_eq
      | |- Sends _ (match ?x with _ => _ end) => destruct x
      | |- Sends _ (let '(_, _) := ?x in _) => destruct x
      end ].

Lemma sends_get_wkid W s : Sends s (get_wkid W).
Proof. unfold get_wkid. sends. Qed.

Lemma sends_get_problem_types W s : Sends s (get_problem_types W).
Proof. unfold get_problem_types. sends. Qed.

Lemma sends_submit_to_cw W row prob_types fields oid tf s :
  Sends s (submit_to_cw W row prob_types fields oid tf).
Proof. unfold submit_to_cw. sends. Qed.

Lemma sends_copy_attachment W lyr attachment oid requestid s :
  Sends s (copy_attachment W lyr attachment oid requestid).
Proof.
  unfold copy_attachment.
  apply sends_bind; [sends|]. intros id s1 _.
  apply sends_bind; [sends|]. intros attpath s2 _.
  apply sends_read. apply sends_read. cbv zeta.
  split; [|split].
  - unfold after. by run_unfold.
  - unfold after. by run_unfold.
  - eexists [_]. split.
    + unfold after. by run_unfold.
    + constructor; [|done]. split; [apply prefix_app|done].
Qed.

Lemma sends_copy_comments W record parent fields ids s :
  Sends s (copy_comments W record parent fields ids).
Proof. unfold copy_comments. sends. Qed.

Lemma sends_get_parent W lyr pk record fk s : Sends s (get_parent W lyr pk record fk).
Proof. unfold get_parent. sends. Qed.

#[export] Hint Resolve sends_get_wkid sends_get_problem_types sends_submit_to_cw
  sends_copy_attachment sends_copy_comments sends_get_parent : sends.

Lemma sends_copy_attachments W lyr oid requestid s :
  Sends s (copy_attachments W lyr oid requestid).
Proof. unfold copy_attachments, for_each. sends. Qed.

Lemma sends_copy_related_attachments W event rellyr rel_oid parent s :
  Sends s (copy_related_attachments W event rellyr rel_oid parent).
Proof. unfold copy_related_attachments, for_each. sends. Qed.

Lemma sends_check_warning requestid s : Sends s (check_warning requestid).
Proof. unfold check_warning. sends. Qed.

#[export] Hint Resolve sends_copy_attachments sends_copy_related_attachments
  sends_check_warning : sends.

Lemma sends_process_row W event lyr oid_fld prob_types row acc s :
  Sends s (process_row W event lyr oid_fld prob_types row acc).
Proof. unfold process_row. sends. Qed.

Lemma sends_process_related W event lyr rellyr oid_fld pk fk record acc s :
  Sends s (process_related W event lyr rellyr oid_fld pk fk record acc).
Proof. unfold process_related. sends. Qed.

Lemma sends_first_keyField rels s : Sends s (first_keyField rels).
Proof. unfold first_keyField. sends. Qed.

#[export] Hint Resolve sends_process_row sends_process_related sends_first_keyField : sends.

Lemma sends_sync_rows W event lyr oid_fld sr prob_types s :
  Sends s (sync_rows W event lyr oid_fld sr prob_types).
Proof. unfold sync_rows. sends. Qed.

Lemma sends_sync_related W event lyr reltable oid_fld s :
  Sends s (sync_related W event lyr reltable oid_fld).
Proof. unfold sync_related. sends. Qed.

#[export] Hint Resolve sends_sync_rows sends_sync_related : sends.

Lemma sends_process_layer W event sr prob_types layer s :
  Sends s (process_layer W event sr prob_types layer).
Proof. unfold process_layer. sends. Qed.

Lemma trace_get_cw_token W user pwd s :
  baseUrl (after (get_cw_token W user pwd) s) = baseUrl s ∧
  requests (after (get_cw_token W user pwd) s) =
    (requests s ++ [authenticate_request (baseUrl s) user pwd])%list.
Proof.
  unfold after, get_cw_token, get_response, authenticate_request. run_unfold.
  destruct (http_get W _ _) as [response|e]; simpl; [|done].
  destruct (py_getitem response "Status") as [status|e]; simpl; [|done].
  destruct (is_not_0 status).
  - by destruct (py_getitem response "Message").
  - destruct (py_getitem response "Value") as [v|e]; simpl; [|done].
    by destruct (py_getitem v "Token").
Qed.

Lemma main_started W event s :
  main W event s =
  try_except
    (p ← setup W event;
     for_each (arcgis_layers event) (process_layer W event p.1 p.2))
    (λ ex, Some (print ("error: " ++ exn_str ex))) (started W event s).
Proof. reflexivity. Qed.

(** X18. The calls of a run: none when the connection to the portal
    fails; otherwise the first is the authentication, sent to the
    configured Cityworks URL without a token, and every later call, of
    whatever phase, goes to an address under that URL and carries the
    token the run ends with, which is the one the authentication
    returned. *)
Theorem calls_of_a_run W event s :
  ∃ new,
    requests (after (main W event) s) = (requests s ++ new)%list ∧
    match gis_connect W (arcgis_url event) (arcgis_username event) (arcgis_password event) with
    | Raise _ => new = []
    | Ok _ =>
        ∃ rest,
          new = authenticate_request (cityworks_url event) (cityworks_username event)
                  (cityworks_password event) :: rest ∧
          Forall (authorised (cityworks_url event) (cw_token (after (main W event) s))) rest
    end.
Proof.
  unfold after. destruct (main W event s) as [r sf] eqn:E. simpl.
  rewrite main_started in E.
  set (s0 := started W event s) in *.
  assert (requests s0 = requests s) as Hr0 by done.
  assert (baseUrl s0 = cityworks_url event) as Hb0 by done.
  clearbody s0. rewrite <- Hr0, <- Hb0. clear Hr0 Hb0 s.
  unfold try_except in E. rewrite run_bind in E. unfold setup in E.
  rewrite run_bind in E. unfold lift at 1 in E.
  destruct (gis_connect W _ _ _) as [[]|e].
  - pose proof (trace_get_cw_token W (cityworks_username event) (cityworks_password event) s0)
      as [Hb1 Hr1].
    unfold after in Hb1, Hr1. rewrite run_bind in E.
    destruct (get_cw_token W _ _ s0) as [[status|e] s1]; simpl in Hb1, Hr1.
    + match type of E with
      | context [match ?k s1 with _ => _ end] =>
          assert (Sends s1 k) as (Hb & Ht & new & Hr & Hall) by sends;
          unfold after in Hb, Ht, Hr; destruct (k s1) as [[p|e] s2]
      end; simpl in Hb, Ht, Hr.
      * match type of E with
        | context [for_each ?l ?body s2] =>
            pose proof (sends_for_fold l tt (λ x _, body x)
                          (λ x _ s, sends_process_layer W event p.1 p.2 x s) s2)
              as (Hb' & Ht' & new' & Hr' & Hall'); unfold after in Hb', Ht', Hr';
            unfold for_each in E;
            destruct (for_fold l tt (λ x _, body x) s2) as [[[]|e] s3]
        end; simpl in Hb', Ht', Hr';
          (assert (cw_token sf = cw_token s3 ∧ requests sf = requests s3) as [Htf Hrf]
             by (by injection E as <- <-));
          exists (authenticate_request (baseUrl s0) (cityworks_username event)
                    (cityworks_password event) :: new ++ new')%list;
          (split; [by rewrite Hrf, Hr', Hr, Hr1, <- !app_assoc|]);
          eexists; (split; [done|]); rewrite Htf, Ht', Ht; apply Forall_app; split.
        -- by rewrite <- Hb1.
        -- by rewrite <- Ht, <- Hb1, <- Hb.
        -- by rewrite <- Hb1.
        -- by rewrite <- Ht, <- Hb1, <- Hb.
      * assert (cw_token sf = cw_token s2 ∧ requests sf = requests s2) as [Htf Hrf]
          by (by injection E as <- <-).
        exists (authenticate_request (baseUrl s0) (cityworks_username event)
                  (cityworks_password event) :: new)%list.
        split; [by rewrite Hrf, Hr, Hr1, <- !app_assoc|].
        eexists. split; [done|]. rewrite Htf, Ht. by rewrite <- Hb1.
    + assert (requests sf = requests s1) as Hrf by (by injection E as <- <-).
      exists [authenticate_request (baseUrl s0) (cityworks_username event)
                (cityworks_password event)].
      split; [by rewrite Hrf, Hr1|]. exists []. by split.
  - exists []. rewrite app_nil_r. split; [|done]. by injection E as <- <-.
Qed.

(** ** The run as a whole *)

Lemma for_each_app {A} (l1 l2 : list A) (body : A → M unit) s s1 :
  for_each l1 body s = (Ok tt, s1) →
  for_each (l1 ++ l2) body s = for_each l2 body s1.
Proof.
  unfold for_each. revert s. induction l1 as [|x l1 IH]; intros s H; simpl in *.
  - by injection H as <-.
  - rewrite run_bind in *. destruct (body x s) as [[[]|e] s'] eqn:E; [|done].
    by apply IH.
Qed.


(** X20. A fault in one layer ends the run: the layers configured
    after it are not processed, the state is the one the faulting
    layer left, with the error line on the console. *)
Theorem fault_stops_remaining_layers W event s p s0 before layer later s1 e s2 :
  setup W event (started W event s) = (Ok p, s0) →
  arcgis_layers event = (before ++ layer :: later)%list →
  for_each before (process_layer W event p.1 p.2) s0 = (Ok tt, s1) →
  process_layer W event p.1 p.2 layer s1 = (Raise e, s2) →
  main W event s = (Ok tt, add_stdout ("error: " ++ exn_str e ++ nl) s2).
Proof.
  intros Hsetup Hlayers Hbefore Hlayer.
  rewrite main_started. unfold try_except.
  rewrite (run_bind_ok _ _ _ _ _ Hsetup), Hlayers.
  rewrite (for_each_app _ _ _ _ _ Hbefore).
  unfold for_each. simpl. rewrite run_bind, Hlayer. simpl.
  unfold print, modify. by rewrite string_app_assoc.
Qed.

(** X21. The pass over a layer writes to two feature services at
    most, the layer and the related table found for it: every other
    service of the portal is as before, however the pass ends. *)
Theorem layer_pass_writes_two_services W event sr prob_types layer url s :
  url ≠ layer →
  (∀ d, portal s !! layer = Some d →
        url ≠ find_reltable layer (relationships d) (arcgis_tables event)) →
  portal (after (process_layer W event sr prob_types layer) s) !! url = portal s !! url.
Proof.
  intros Hlayer Htable. unfold after, process_layer. rewrite run_bind.
  destruct (portal s !! layer) as [d|] eqn:Hd.
  - rewrite (properties_run _ _ _ Hd). specialize (Htable d eq_refl).
    pose proof (keeps_sync_rows W event url layer (objectIdField d) sr prob_types
                  (not_eq_sym Hlayer) s) as Hrows.
    unfold after in Hrows. rewrite run_bind.
    destruct (sync_rows W event layer (objectIdField d) sr prob_types s)
      as [[[]|e] s1]; simpl in Hrows; [|done].
    pose proof (keeps_sync_related W event url layer
                  (find_reltable layer (relationships d) (arcgis_tables event))
                  (objectIdField d) (not_eq_sym Htable) s1) as Hrel.
    unfold after in Hrel. rewrite run_bind.
    destruct (sync_related W event layer _ (objectIdField d) s1)
      as [[[]|e] s2]; simpl in Hrel; simpl; by rewrite Hrel.
  - unfold properties. run_unfold. by rewrite Hd.
Qed.

(** X22. A layer with no flagged report and no related record with a
    null flag is passed over: no call to Cityworks, no edit, no log
    line; the pass prints [Finished processing] and nothing else
    changes. *)
Theorem idle_layer_only_prints W event sr prob_types layer s d rd r1 rs1 r2 rs2 :
  portal s !! layer = Some d → relationships d = r1 :: rs1 →
  portal s !! find_reltable layer (relationships d) (arcgis_tables event) = Some rd →
  relationships rd = r2 :: rs2 →
  Forall (λ f, flagged event f = false) (features d) →
  Forall (λ f, eval_where (WhereIsNull (flag_field event)) f = false) (features rd) →
  process_layer W event sr prob_types layer s =
    (Ok tt, add_stdout ("Finished processing: " ++ name d ++ nl) s).
Proof.
  intros Hd Hr1 Hrd Hr2 Hrows Hrel. unfold process_layer.
  rewrite (run_bind_ok _ _ _ _ _ (properties_run _ _ _ Hd)).
  assert (sync_rows W event layer (objectIdField d) sr prob_types s = (Ok tt, s)) as E1.
  { unfold sync_rows. rewrite (run_bind_ok _ _ _ _ _ (query_run _ _ _ _ _ _ Hd)).
    rewrite filter_none; [done|].
    intros f Hf. rewrite Forall_forall in Hrows. by apply Hrows. }
  rewrite (run_bind_ok _ _ _ _ _ E1).
  assert (sync_related W event layer
            (find_reltable layer (relationships d) (arcgis_tables event))
            (objectIdField d) s = (Ok tt, s)) as E2.
  { rewrite (sync_related_unfold W event layer _ (objectIdField d) d rd r1 r2 rs1 rs2
               Hr1 Hr2 s Hd Hrd).
    rewrite filter_none; [done|].
    intros f Hf. rewrite Forall_forall in Hrel. by apply Hrel. }
  rewrite (run_bind_ok _ _ _ _ _ E2).
  unfold print, modify. by rewrite string_app_assoc.
Qed.


(** ** A related record, step by step *)

Lemma copy_comments_run W record parent fields ids s pid :
  attributes parent !! ids.2 = Some pid →
  Forall (λ field, is_Some (attributes record !! field.2)) fields →
  copy_comments W record parent fields ids s =
    (answer W (comment_request (baseUrl s) (cw_token s)
                 (comment_fields (attributes record) fields (<[ids.1 := pid]> ∅))),
     add_request (comment_request (baseUrl s) (cw_token s)
                    (comment_fields (attributes record) fields (<[ids.1 := pid]> ∅))) s).
Proof.
  intros Hpid Hfields. unfold copy_comments, comment_request, answer.
  rewrite run_bind. unfold attr at 1. rewrite Hpid. simpl.
  rewrite (run_bind_ok _ _ _ _ _ (comment_fields_run _ _ _ _ Hfields)).
  rewrite !(run_bind_ok _ _ _ _ _ (run_read _ _)).
  unfold get_response. rewrite run_bind. reflexivity.
Qed.

Lemma related_uploads_run W event rellyr rel_oid parent pid atts paths s :
  attributes parent !! (fields_ids event).2 = Some pid →
  att_get_list W rellyr rel_oid = Ok atts →
  Forall2 (λ att path,
             ∃ id, py_getitem att "id" = Ok id ∧
                   att_download W rellyr rel_oid id = Ok path ∧
                   ∃ response,
                     answer W (upload_request (baseUrl s) (cw_token s) pid path)
                       = Ok response ∧
                     status_payload response) atts paths →
  ∃ s', copy_related_attachments W event rellyr rel_oid parent s = (Ok tt, s') ∧
        same_env s s' ∧
        requests s' =
          (requests s ++ List.map (upload_request (baseUrl s) (cw_token s) pid) paths)%list.
Proof.
  intros Hpid Hlist Hall. unfold copy_related_attachments.
  rewrite run_bind. unfold lift at 1. rewrite Hlist. unfold for_each.
  assert (∀ s1, same_env s s1 →
    ∃ s', for_fold atts tt
            (λ attachment _,
               requestid ← attr (attributes parent) (fields_ids event).2;
               response ← copy_attachment W rellyr attachment rel_oid requestid;
               status ← getitem response "Status";
               if is_not_0 status then
                 msgs ← getitem response "ErrorMessages";
                 log_write ("Error while copying attachment to Cityworks: "
                            ++ py_str msgs ++ nl)
               else mret tt) s1 = (Ok tt, s') ∧
    same_env s s' ∧
    requests s' =
      (requests s1 ++ List.map (upload_request (baseUrl s) (cw_token s) pid) paths)%list)
    as Hloop.
  { clear Hlist.
    induction Hall as [|att path atts paths (id & Hid & Hdl & response & Hresp & Hpay) _ IH];
      intros s1 Hs1.
    - exists s1. simpl. by rewrite app_nil_r.
    - destruct Hs1 as (Hb & Ht & Hp).
      cbn [for_fold]. rewrite run_bind. rewrite run_bind.
      unfold attr at 1. rewrite Hpid. cbn [mret M_ret].
      assert (copy_attachment W rellyr att rel_oid pid s1 =
              (Ok response,
               add_request (upload_request (baseUrl s) (cw_token s) pid path) s1)) as E.
      { unfold copy_attachment, upload_request, answer in *. run_unfold.
        rewrite Hid. simpl. rewrite Hdl. simpl. rewrite <- Hb, <- Ht, Hresp. done. }
      rewrite (run_bind_ok _ _ _ _ _ E). destruct Hpay as (status & Hst & Hmsgs).
      rewrite run_bind. unfold getitem at 1, lift at 1. rewrite Hst.
      destruct (is_not_0 status) eqn:Hz.
      + destruct (Hmsgs eq_refl) as [msgs Hm].
        rewrite run_bind. unfold getitem at 1, lift at 1. rewrite Hm.
        unfold log_write, modify.
        destruct (IH (add_log ("Error while copying attachment to Cityworks: "
                               ++ py_str msgs ++ nl)
                        (add_request (upload_request (baseUrl s) (cw_token s) pid path) s1)))
          as (s' & E' & Hs' & Hr); [done|].
        exists s'. split; [exact E'|]. split; [done|].
        rewrite Hr. simpl. by rewrite <- app_assoc.
      + destruct (IH (add_request (upload_request (baseUrl s) (cw_token s) pid path) s1))
          as (s' & E' & Hs' & Hr); [done|].
        exists s'. split; [exact E'|]. split; [done|].
        rewrite Hr. simpl. by rewrite <- app_assoc. }
  destruct (Hloop s) as (s' & E & Hs' & Hr); [done|].
  exists s'. split; [exact E|]. by split.
Qed.

(** X24. The calls made for one related record, in their order: the
    uploads of its attachments, each for the request id the parent
    holds, and then the comment.  The uploads are made before the
    answer to the comment is known: a comment Cityworks refuses stays
    unflagged, so the next run uploads its attachments again. *)
Theorem related_record_calls W event lyr rellyr oid_fld pkey_fld fkey_fld record acc s
    rel_oid parent pid atts paths response status :
  attributes record !! oid_fld = Some rel_oid →
  get_parent W lyr pkey_fld record fkey_fld s = (Ok parent, s) →
  attributes parent !! (fields_ids event).2 = Some pid →
  att_get_list W rellyr rel_oid = Ok atts →
  Forall2 (λ att path,
             ∃ id, py_getitem att "id" = Ok id ∧
                   att_download W rellyr rel_oid id = Ok path ∧
                   ∃ response,
                     answer W (upload_request (baseUrl s) (cw_token s) pid path)
                       = Ok response ∧
                     status_payload response) atts paths →
  Forall (λ field, is_Some (attributes record !! field.2)) (fields_tables event) →
  answer W (comment_request (baseUrl s) (cw_token s)
              (comment_fields (attributes record) (fields_tables event)
                 (<[(fields_ids event).1 := pid]> ∅))) = Ok response →
  py_getitem response "Status" = Ok status →
  (is_not_0 status = true → ∃ msgs, py_getitem response "ErrorMessages" = Ok msgs) →
  let m := process_related W event lyr rellyr oid_fld pkey_fld fkey_fld record acc in
  value m s =
    Ok (if is_not_0 status then acc else (acc ++ [flag_set event record])%list) ∧
  requests (after m s) =
    (requests s ++
     List.map (upload_request (baseUrl s) (cw_token s) pid) paths ++
     [comment_request (baseUrl s) (cw_token s)
        (comment_fields (attributes record) (fields_tables event)
           (<[(fields_ids event).1 := pid]> ∅))])%list.
Proof.
  intros Hoid Hparent Hpid Hlist Hall Hfields Hresp Hst Hmsgs. cbv zeta.
  destruct (related_uploads_run W event rellyr rel_oid parent pid atts paths s
              Hpid Hlist Hall) as (s1 & E1 & (Hb & Ht & Hp) & Hr1).
  pose proof (copy_comments_run W record parent (fields_tables event)
                (fields_ids event) s1 pid Hpid Hfields) as E2.
  rewrite <- Hb, <- Ht, Hresp in E2.
  set (s2 := add_request _ s1) in E2.
  assert (∃ sf,
    process_related W event lyr rellyr oid_fld pkey_fld fkey_fld record acc s =
      (Ok (if is_not_0 status then acc else (acc ++ [flag_set event record])%list), sf) ∧
    requests sf = requests s2) as (sf & E & Hrf).
  { unfold process_related.
    rewrite run_bind. unfold attr at 1. rewrite Hoid. cbn [mret M_ret].
    rewrite (run_bind_ok _ _ _ _ _ Hparent).
    rewrite (run_bind_ok _ _ _ _ _ E1).
    rewrite (run_bind_ok _ _ _ _ _ E2).
    rewrite run_bind. unfold getitem at 1, lift at 1. rewrite Hst.
    destruct (is_not_0 status) eqn:Hz.
    - destruct (Hmsgs eq_refl) as [msgs Em].
      rewrite run_bind. unfold getitem at 1, lift at 1. rewrite Em.
      eexists. split; [reflexivity|]. reflexivity.
    - eexists. split; [reflexivity|]. reflexivity. }
  unfold value, after. rewrite E. simpl. split; [done|].
  rewrite Hrf. unfold s2. simpl. by rewrite Hr1, <- app_assoc.
Qed.

(** ** A flagged report, step by step *)

Lemma submit_to_cw_run W row vocab fields oid tf s sid x y :
  resolves vocab (attributes row) tf.2 sid →
  Forall (λ fieldset, is_Some (attributes row !! fieldset.2)) fields →
  py_getitem (geometry row) "x" = Ok x →
  py_getitem (geometry row) "y" = Ok y →
  submit_to_cw W row (Vocabulary vocab) fields oid tf s =
    (match answer W (create_request (baseUrl s) (cw_token s)
                       (create_payload (attributes row) fields x y tf.1 sid)) with
     | Ok response => request_id_of response
     | Raise e => Raise e
     end,
     add_request (create_request (baseUrl s) (cw_token s)
                    (create_payload (attributes row) fields x y tf.1 sid)) s).
Proof.
  intros (t & Ht & Hsid) Hfields Hx Hy.
  rewrite (surjective_pairing (submit_to_cw _ _ _ _ _ _ _)). f_equal.
  - apply (submit_to_cw_result W row vocab fields oid tf s t sid x y); done.
  - unfold submit_to_cw, create_request, create_payload. simpl.
    rewrite (run_bind_ok _ _ _ _ _ (resolve_run _ _ _ _ _ _ _ Ht Hsid)).
    rewrite (run_bind_ok _ _ _ _ _ (mapped_fields_run _ _ _ _ Hfields)).
    rewrite run_bind. unfold getitem at 1, lift at 1. rewrite Hx.
    rewrite run_bind. unfold getitem at 1, lift at 1. rewrite Hy.
    rewrite (run_bind_ok _ _ _ _ _ (run_read _ _)).
    rewrite (run_bind_ok _ _ _ _ _ (run_read _ _)).
    rewrite run_bind. unfold get_response. rewrite run_bind. unfold modify at 1, lift at 1.
    destruct (http_get W _ _) as [response|e]; [|reflexivity].
    apply read_request_id_after.
Qed.

Lemma uploads_run W lyr oid requestid atts paths s0 s :
  same_env s0 s →
  att_get_list W lyr oid = Ok atts →
  Forall2 (λ att path,
             ∃ id, py_getitem att "id" = Ok id ∧
                   att_download W lyr oid id = Ok path ∧
                   ∃ response,
                     answer W (upload_request (baseUrl s0) (cw_token s0) requestid path)
                       = Ok response ∧
                     status_payload response) atts paths →
  ∃ s', copy_attachments W lyr oid requestid s = (Ok tt, s') ∧
        same_env s0 s' ∧
        requests s' =
          (requests s ++
           List.map (upload_request (baseUrl s0) (cw_token s0) requestid) paths)%list.
Proof.
  intros Hs Hlist Hall. unfold copy_attachments.
  rewrite run_bind. unfold lift at 1. rewrite Hlist. unfold for_each.
  clear Hlist. revert s Hs.
  induction Hall as [|att path atts paths (id & Hid & Hdl & response & Hresp & Hpay) _ IH];
    intros s1 Hs1.
  - exists s1. simpl. by rewrite app_nil_r.
  - destruct Hs1 as (Hb & Ht & Hp).
    cbn [for_fold]. rewrite run_bind.
    assert (copy_attachment W lyr att oid requestid s1 =
            (Ok response,
             add_request (upload_request (baseUrl s0) (cw_token s0) requestid path) s1))
      as E.
    { unfold copy_attachment, upload_request, answer in *. run_unfold.
      rewrite Hid. simpl. rewrite Hdl. simpl. rewrite <- Hb, <- Ht, Hresp. done. }
    rewrite (run_bind_ok _ _ _ _ _ E). destruct Hpay as (status & Hst & Hmsgs).
    rewrite run_bind. unfold getitem at 1, lift at 1. rewrite Hst.
    destruct (is_not_0 status) eqn:Hz.
    + destruct (Hmsgs eq_refl) as [msgs Hm].
      rewrite run_bind. unfold getitem at 1, lift at 1. rewrite Hm.
      destruct (IH (add_log ("Error while copying attachment to Cityworks: "
                             ++ py_str msgs ++ nl)
                      (add_request (upload_request (baseUrl s0) (cw_token s0)
                                      requestid path) s1)))
        as (s' & E' & Hs' & Hr); [done|].
      exists s'. split; [exact E'|]. split; [done|].
      rewrite Hr. simpl. by rewrite <- app_assoc.
    + destruct (IH (add_request (upload_request (baseUrl s0) (cw_token s0)
                                   requestid path) s1))
        as (s' & E' & Hs' & Hr); [done|].
      exists s'. split; [exact E'|]. split; [done|].
      rewrite Hr. simpl. by rewrite <- app_assoc.
Qed.

(** X25. The calls made for one flagged report that goes through, in
    their order: the request that creates the service request, then
    one upload per attachment for the id that request returned; the
    record is queued for the write-back with that id. *)
Theorem report_calls W event lyr oid_fld vocab row acc s oid sid x y response requestid
    atts paths row_orig rest :
  attributes row !! oid_fld = Some oid →
  resolves vocab (attributes row) (fields_type event).2 sid →
  Forall (λ fieldset, is_Some (attributes row !! fieldset.2)) (fields_layers event) →
  py_getitem (geometry row) "x" = Ok x →
  py_getitem (geometry row) "y" = Ok y →
  answer W (create_request (baseUrl s) (cw_token s)
              (create_payload (attributes row) (fields_layers event) x y
                 (fields_type event).1 sid)) = Ok response →
  nested_item response "Value" "RequestId" = Ok requestid →
  is_warn requestid = false →
  att_get_list W lyr oid = Ok atts →
  Forall2 (λ att path,
             ∃ id, py_getitem att "id" = Ok id ∧
                   att_download W lyr oid id = Ok path ∧
                   ∃ response,
                     answer W (upload_request (baseUrl s) (cw_token s) requestid path)
                       = Ok response ∧
                     status_payload response) atts paths →
  value (query (reproject W) lyr (WhereEq oid_fld (py_str oid)) None) s
    = Ok (row_orig :: rest) →
  let m := process_row W event lyr oid_fld (Vocabulary vocab) row acc in
  value m s = Ok (acc ++ [written_back event requestid row_orig])%list ∧
  requests (after m s) =
    (requests s ++
     create_request (baseUrl s) (cw_token s)
       (create_payload (attributes row) (fields_layers event) x y
          (fields_type event).1 sid) ::
     List.map (upload_request (baseUrl s) (cw_token s) requestid) paths)%list.
Proof.
  intros Hoid Hres Hfields Hx Hy Hresp Hid Hwarn Hlist Hall Hq. cbv zeta.
  pose proof (submit_to_cw_run W row vocab (fields_layers event) oid (fields_type event)
                s sid x y Hres Hfields Hx Hy) as E1.
  rewrite Hresp, request_id_of_nested, Hid in E1.
  set (s1 := add_request _ s) in E1.
  destruct (uploads_run W lyr oid requestid atts paths s s1) as (s2 & E2 & Hs2 & Hr2);
    [done|done|done|].
  destruct (stable_run _ s s2 _ (stable_query (reproject W) lyr
                                   (WhereEq oid_fld (py_str oid)) None) Hs2 Hq)
    as (s3 & E3 & Hs3).
  assert (s3 = s2) as ->.
  { unfold query, properties in E3. run_unfold.
    destruct (portal s2 !! lyr); by injection E3. }
  assert (process_row W event lyr oid_fld (Vocabulary vocab) row acc s =
            (Ok (acc ++ [written_back event requestid row_orig])%list, s2)) as E.
  { unfold process_row.
    rewrite run_bind. unfold attr at 1. rewrite Hoid. cbn [mret M_ret].
    rewrite (run_bind_ok _ _ _ _ _ E1).
    rewrite (run_bind_ok _ _ _ _ _ (check_warning_run _ _)), Hwarn.
    rewrite (run_bind_ok _ _ _ _ _ E2).
    rewrite (run_bind_ok _ _ _ _ _ E3). reflexivity. }
  unfold value, after. rewrite E. simpl. split; [done|].
  rewrite Hr2. unfold s1. simpl. by rewrite <- app_assoc.
Qed.

Import Scenario.

(** The helpers on small inputs. *)
Example upper_pothole : Str.upper "Pot hole 1" = "POT HOLE 1".
Proof. reflexivity. Qed.

Example strip_blank : Str.strip "  " = "" ∧ Str.strip " a b " = "a b".
Proof. split; reflexivity. Qed.

Example int_of_text :
  py_int (PyStr " 42 ") = Ok 42 ∧ py_int (PyStr "-1_000") = Ok (-1000) ∧
  py_int (PyStr "abc")
    = Raise (ValueError "invalid literal for int() with base 10: 'abc'") ∧
  py_int PyNone
    = Raise (TypeError "int() argument must be a string, a bytes-like object or a real number, not 'NoneType'").
Proof. repeat split; vm_compute; reflexivity. Qed.

Example warning_in_results :
  warning_in (PyStr "WARNING: No problem type provided.") = Ok true ∧
  warning_in (PyStr "error") = Ok false ∧
  warning_in (PyInt 7) = Raise (TypeError "argument of type 'int' is not iterable").
Proof. repeat split; reflexivity. Qed.

Example related_table_of_layer0 :
  find_reltable layer0 (relationships (reports [])) [table1] = table1 ∧
  find_reltable layer0 (relationships (reports [])) [] = "".
Proof. split; vm_compute; reflexivity. Qed.

(** The example of the specification: the report is submitted, its
    flag becomes "N" and its external id the returned request id; the
    blank and the processed report are as they were. *)
Example run_of_the_specification_example :
  let s := after (main W0 event)
                 (initial_state (the_portal [pothole; blank; done_before] [])) in
  features <$> portal s !! layer0
    = Some [written_back event (PyInt 7) pothole; blank; done_before] ∧
  stdout s = ["Finished processing: reports" ++ nl].
Proof. split; vm_compute; reflexivity. Qed.

(** The comment [remark] is sent to Cityworks, then the orphan faults:
    the run ends with the fault on the console and the flag of [remark]
    is never written back. *)
Example orphan_stops_the_run :
  let s := after (main W0 event) (initial_state (the_portal [done_before] [remark; orphan])) in
  stdout s = ["error: list index out of range" ++ nl] ∧
  existsb is_add_to_request (requests s) = true ∧
  features <$> portal s !! table1 = Some [remark; orphan].
Proof. repeat split; vm_compute; reflexivity. Qed.

(** C1 (defect). Cityworks rejects the request for report 4 and answers
    without a request id, so [submit_to_cw] returns "error".  The run
    logs no error and does not skip the record: its flag is turned off
    and "error" is stored as its external id. *)
Theorem submission_error_written_back :
  let s := after (main (world problems_ok create_rejected) event)
                 (initial_state (the_portal [rejected] [])) in
  value (submit_to_cw (world problems_ok create_rejected) rejected (Vocabulary vocabulary)
           (fields_layers event) (PyInt 4) (fields_type event)) (ready [rejected] [])
    = Ok (PyStr "error") ∧
  (∃ f, features <$> portal s !! layer0 = Some [f] ∧
        attributes f !! "flag" = Some (PyStr "N") ∧
        attributes f !! "REPORTID" = Some (PyStr "error")) ∧
  forallb (λ line, negb (Str.contains "rror" line)) (log s) = true.
Proof.
  split; [vm_compute; reflexivity|]. split.
  - eexists. split; [vm_compute; reflexivity|]. split; vm_compute; reflexivity.
  - vm_compute. reflexivity.
Qed.

(** C2 (defect). The vocabulary holds an entry whose id is no number:
    [get_problem_types] returns a string that starts with "error: ",
    which the setup does not recognise.  The run is not aborted: the
    setup succeeds, the related comment is sent to Cityworks and
    flagged, and the layer is reported as processed. *)
Theorem vocabulary_failure_not_detected :
  let W := world problems_malformed create_ok in
  let s0 := initial_state (the_portal [done_before] [remark]) in
  let s := after (main W event) s0 in
  value (setup W event) (set_baseUrl base s0)
    = Ok (PyInt 4326,
          ProbTypesStr "error: invalid literal for int() with base 10: 'abc'") ∧
  existsb is_add_to_request (requests s) = true ∧
  (∃ c, features <$> portal s !! table1 = Some [c] ∧
        attributes c !! "flag" = Some (PyStr "N")) ∧
  stdout s = ["Finished processing: reports" ++ nl].
Proof.
  split; [vm_compute; reflexivity|]. split; [vm_compute; reflexivity|]. split.
  - eexists. split; [vm_compute; reflexivity|]. vm_compute; reflexivity.
  - vm_compute. reflexivity.
Qed.

(** ** The claims at the concrete deployment *)

Lemma scenario_unique_oids :
  unique_oids "OBJECTID" [pothole; blank; done_before].
Proof.
  split.
  - repeat constructor; eexists; reflexivity.
  - apply (bool_decide_unpack _). vm_compute. reflexivity.
Defined.

Lemma scenario_unique_comments :
  unique_oids "OBJECTID" [remark].
Proof.
  split.
  - repeat constructor; eexists; reflexivity.
  - apply (bool_decide_unpack _). vm_compute. reflexivity.
Defined.

Lemma unresolved_problem_type_skipped_witness :
  ∃ d',
    portal (after (sync_rows W0 event layer0 "OBJECTID" (PyInt 4326) (Vocabulary vocabulary))
              (ready [pothole; blank; done_before] [])) !! layer0 = Some d' ∧
    blank ∈ features d' ∧ flagged event blank = true.
Proof.
  eapply (unresolved_problem_type_skipped W0 event layer0 (PyInt 4326) vocabulary
            (reports [pothole; blank; done_before])
            (ready [pothole; blank; done_before] []) blank).
  - reflexivity.
  - exact scenario_unique_oids.
  - discriminate.
  - discriminate.
  - right. left.
  - vm_compute. reflexivity.
  - vm_compute. reflexivity.
  - apply surjective_pairing.
Defined.

Lemma submitted_record_written_back_witness :
  ∃ d' f',
    portal (after (sync_rows W0 event layer0 "OBJECTID" (PyInt 4326) (Vocabulary vocabulary))
              (ready [pothole; blank; done_before] [])) !! layer0 = Some d' ∧
    f' ∈ features d' ∧
    oid_of "OBJECTID" f' = oid_of "OBJECTID" pothole ∧
    attributes f' !! "flag" = Some (PyStr "N") ∧
    attributes f' !! "REPORTID" = Some (PyInt 7).
Proof.
  apply (submitted_record_written_back W0 event layer0 (PyInt 4326) (Vocabulary vocabulary)
           (reports [pothole; blank; done_before])
           (ready [pothole; blank; done_before] []) _ pothole (PyInt 7)).
  - reflexivity.
  - exact scenario_unique_oids.
  - discriminate.
  - discriminate.
  - discriminate.
  - left.
  - vm_compute. reflexivity.
  - vm_compute. reflexivity.
  - reflexivity.
  - vm_compute. reflexivity.
Defined.

Lemma attachment_failures_do_not_block_witness :
  ∃ u s',
    process_row W0 event layer0 "OBJECTID" (Vocabulary vocabulary) pothole []
      (ready [pothole; blank; done_before] []) = (Ok [u], s') ∧
    u = written_back event (PyInt 7) pothole ∧
    attributes u !! "REPORTID" = Some (PyInt 7) ∧
    (flag_field event ≠ (fields_ids event).2 → attributes u !! "flag" = Some (PyStr "N")).
Proof.
  apply (attachment_failures_do_not_block W0 event layer0 "OBJECTID" (Vocabulary vocabulary)
           pothole [] (ready [pothole; blank; done_before] []) (PyInt 1) (PyInt 7)
           [PyDict [("id", PyInt 1)]; PyDict [("id", PyInt 2)]]
           [cw_response 0 [] None; cw_response 1 [PyStr "File too large"] None]
           pothole []).
  - reflexivity.
  - vm_compute. reflexivity.
  - reflexivity.
  - reflexivity.
  - repeat constructor.
    + exists (PyInt 0). split; [reflexivity | discriminate].
    + exists (PyInt 1). split; [reflexivity |]. intros _. eexists. reflexivity.
  - vm_compute. reflexivity.
Defined.

Lemma related_record_flagged_iff_status_0_witness :
  ∃ rd',
    portal (after (sync_related W0 event layer0 table1 "OBJECTID")
              (ready [done_before] [remark])) !! table1 = Some rd' ∧
    flag_set event remark ∈ features rd'.
Proof.
  eapply (related_record_flagged_iff_status_0 W0 event layer0 table1 "OBJECTID"
            (reports [done_before]) (comments [remark])
            {| relatedTableId := 1; keyField := "GlobalID" |} []
            {| relatedTableId := 0; keyField := "parentid" |} []
            (ready [done_before] [remark]) remark (PyInt 1) done_before
            (cw_response 0 [] None) (PyInt 0)).
  - reflexivity.
  - reflexivity.
  - reflexivity.
  - reflexivity.
  - exact scenario_unique_comments.
  - discriminate.
  - left.
  - reflexivity.
  - reflexivity.
  - vm_compute. reflexivity.
  - vm_compute. reflexivity.
  - vm_compute. reflexivity.
  - reflexivity.
  - discriminate.
  - vm_compute. reflexivity.
Defined.

Lemma unflagged_record_untouched_witness :
  ∃ d', portal (after (main W0 event)
                  (initial_state (the_portal [pothole; blank; done_before] [remark])))
          !! layer0 = Some d' ∧
        done_before ∈ features d'.
Proof.
  apply (unflagged_record_untouched W0 event layer0 (PyInt 4326) (Vocabulary vocabulary)
           (reports [pothole; blank; done_before])
           (initial_state (the_portal [pothole; blank; done_before] [remark])) done_before).
  - reflexivity.
  - exact scenario_unique_oids.
  - discriminate.
  - discriminate.
  - right. right. left.
  - vm_compute. reflexivity.
  - vm_compute. intros H. apply list_elem_of_singleton in H. discriminate H.
  - discriminate.
Defined.

Lemma payload_contents_witness :
  ∃ values,
    after (submit_to_cw W0 pothole (Vocabulary vocabulary) [("Comments", "desc")]
             (PyInt 1) ("ProblemSid", "probtype")) (ready [pothole] []) =
      add_request (Get "https://cw/Services/AMS/ServiceRequest/Create"
                     {| p_token := Some (PyStr "tok"); p_data := Some values |})
                  (ready [pothole] []) ∧
    (∀ c a, (c, a) ∈ [("Comments", "desc")] →
       ∃ v, attributes pothole !! a = Some v ∧ values !! c = Some (PyStr (py_str v))) ∧
    values !! "X" = Some (PyInt 500100) ∧
    values !! "Y" = Some (PyInt 4649800) ∧
    values !! "ProblemSid" = Some (PyInt 42).
Proof.
  apply (payload_contents W0 pothole vocabulary [("Comments", "desc")] (PyInt 1)
           ("ProblemSid", "probtype") (ready [pothole] []) "pothole" 42
           (PyInt 500100) (PyInt 4649800)).
  - reflexivity.
  - reflexivity.
  - repeat constructor. eexists. reflexivity.
  - reflexivity.
  - reflexivity.
  - apply (bool_decide_unpack _). vm_compute. reflexivity.
Defined.

Lemma write_back_changes_only_flag_and_id_witness :
  ∃ d',
    portal (after (sync_rows W0 event layer0 "OBJECTID" (PyInt 4326) (Vocabulary vocabulary))
              (ready [pothole; blank; done_before] [])) !! layer0 = Some d' ∧
    Forall2 (λ f f', oid_of "OBJECTID" f' = oid_of "OBJECTID" f ∧
                     only_flag_and_id_changed event f f')
            [pothole; blank; done_before] (features d').
Proof.
  eapply (write_back_changes_only_flag_and_id W0 event layer0 (PyInt 4326)
            (Vocabulary vocabulary) (reports [pothole; blank; done_before])
            (ready [pothole; blank; done_before] [])).
  - reflexivity.
  - exact scenario_unique_oids.
  - discriminate.
  - discriminate.
  - discriminate.
  - apply surjective_pairing.
Defined.

Lemma orphan_related_record_faults_witness :
  get_parent W0 layer0 "GlobalID" orphan "parentid" (ready [done_before] [remark; orphan])
    = (Raise (IndexError "list index out of range"), ready [done_before] [remark; orphan]) ∧
  (∀ acc, ∃ e,
      value (process_related W0 event layer0 table1 "OBJECTID" "GlobalID" "parentid"
               orphan acc) (ready [done_before] [remark; orphan]) = Raise e) ∧
  ∃ e s', sync_related W0 event layer0 table1 "OBJECTID"
            (ready [done_before] [remark; orphan]) = (Raise e, s') ∧
          portal s' = portal (ready [done_before] [remark; orphan]).
Proof.
  apply (orphan_related_record_faults W0 event layer0 table1 "OBJECTID"
           (reports [done_before]) (comments [remark; orphan])
           {| relatedTableId := 1; keyField := "GlobalID" |} []
           {| relatedTableId := 0; keyField := "parentid" |} []
           (ready [done_before] [remark; orphan]) orphan (PyStr "nobody")).
  - reflexivity.
  - reflexivity.
  - reflexivity.
  - reflexivity.
  - right. left.
  - reflexivity.
  - reflexivity.
  - intros p Hp. apply list_elem_of_singleton in Hp as ->. reflexivity.
Defined.

(** * The properties at the scenarios *)


Lemma get_cw_token_status_witness :
  let s := set_baseUrl base (initial_state (the_portal [] [])) in
  let s' := after (get_cw_token W0 "cwuser" "cwpwd") s in
  requests s' = (requests s ++ [authenticate_request (baseUrl s) "cwuser" "cwpwd"])%list ∧
  baseUrl s' = baseUrl s ∧ portal s' = portal s ∧ log s' = log s ∧
  ((Str.contains "error" "success" = true ∧ cw_token s' = cw_token s) ∨
   ("success" = "success" ∧ Str.contains "error" "success" = false ∧
    ∃ response v,
      answer W0 (authenticate_request (baseUrl s) "cwuser" "cwpwd") = Ok response ∧
      py_getitem response "Status" = Ok (PyInt 0) ∧
      py_getitem response "Value" = Ok v ∧
      py_getitem v "Token" = Ok (cw_token s'))).
Proof.
  apply (get_cw_token_status W0 "cwuser" "cwpwd"
           (set_baseUrl base (initial_state (the_portal [] []))) "success").
  vm_compute. reflexivity.
Defined.

Lemma authentication_failure_aborts_witness :
  let W := Faults.world Faults.refused Faults.no_reference in
  let s := initial_state (the_portal [pothole] []) in
  value (main W event) s = Ok tt ∧
  portal (after (main W event) s) = portal s ∧
  cw_token (after (main W event) s) = cw_token s ∧
  requests (after (main W event) s) =
    (requests s ++ [authenticate_request base "cwuser" "cwpwd"])%list ∧
  log (after (main W event) s) =
    (log s ++ [(nl ++ nl ++ now W ++ nl)%string;
               ("Failed to get Cityworks token. " ++
                ("error: " ++ "1" ++ ": " ++ "Invalid login") ++ nl)%string])%list ∧
  stdout (after (main W event) s) =
    (stdout s ++ [("error: Failed to get Cityworks token.  " ++
                   ("error: " ++ "1" ++ ": " ++ "Invalid login") ++ nl)%string])%list.
Proof.
  apply (authentication_failure_aborts (Faults.world Faults.refused Faults.no_reference)
           event (initial_state (the_portal [pothole] [])) Faults.refused
           (PyInt 1) (PyStr "Invalid login")).
  - reflexivity.
  - reflexivity.
  - reflexivity.
  - reflexivity.
  - reflexivity.
Defined.

Lemma spatial_reference_missing_aborts_witness :
  let W := Faults.world Faults.granted Faults.no_reference in
  let s := initial_state (the_portal [pothole] []) in
  value (main W event) s = Ok tt ∧
  portal (after (main W event) s) = portal s ∧
  requests (after (main W event) s) =
    (requests s ++ [authenticate_request base "cwuser" "cwpwd";
                    preferences_request base (PyStr "tok")])%list ∧
  log (after (main W event) s) =
    (log s ++ [(nl ++ nl ++ now W ++ nl)%string;
               ("Spatial reference not defined" ++ nl)%string])%list ∧
  stdout (after (main W event) s) =
    (stdout s ++ [("error: Spatial reference not defined" ++ nl)%string])%list.
Proof.
  apply (spatial_reference_missing_aborts (Faults.world Faults.granted Faults.no_reference)
           event (initial_state (the_portal [pothole] [])) (PyStr "tok")
           Faults.no_reference "SpatialReference").
  - split; [reflexivity|]. exists Faults.granted. repeat split; reflexivity.
  - reflexivity.
  - reflexivity.
Defined.

Lemma get_wkid_other_fault_witness :
  get_wkid (Faults.world Faults.granted Faults.null_value) (ready [] []) =
    (Raise (TypeError "'NoneType' object is not subscriptable"),
     add_request (preferences_request base (PyStr "tok")) (ready [] [])).
Proof.
  apply (get_wkid_other_fault (Faults.world Faults.granted Faults.null_value)
           (ready [] []) Faults.null_value).
  - reflexivity.
  - reflexivity.
  - intros k. discriminate.
Defined.


Lemma submission_result_witness :
  value (submit_to_cw W0 pothole (Vocabulary vocabulary) [("Comments", "desc")]
           (PyInt 1) ("ProblemSid", "probtype")) (ready [pothole] []) = Ok (PyInt 7).
Proof.
  unshelve eapply (proj1 (proj2 (submission_result W0 pothole vocabulary
                                   [("Comments", "desc")] (PyInt 1)
                                   ("ProblemSid", "probtype") (ready [pothole] [])
                                   42 (PyInt 500100) (PyInt 4649800) _ _ _ _))
                    create_ok).
  - exists "pothole". split; reflexivity.
  - repeat constructor. eexists. reflexivity.
  - reflexivity.
  - reflexivity.
  - reflexivity.
  - reflexivity.
Defined.

Lemma unmapped_record_not_submitted_witness :
  submit_to_cw W0 Faults.unmapped (Vocabulary vocabulary) [("Comments", "desc")]
    (PyInt 5) ("ProblemSid", "probtype") (ready [Faults.unmapped] []) =
  (Raise (KeyError "desc"), ready [Faults.unmapped] []).
Proof.
  unshelve eapply (proj1 (unmapped_record_not_submitted W0 Faults.unmapped vocabulary
                            [("Comments", "desc")] (PyInt 5) ("ProblemSid", "probtype")
                            (ready [Faults.unmapped] []) 42 _) [] "Comments" "desc" []).
  - exists "pothole". split; reflexivity.
  - reflexivity.
  - constructor.
  - reflexivity.
Defined.

Lemma fault_discards_batch_witness :
  let s := ready [pothole; Faults.unmapped] [] in
  let s' := after (sync_rows W0 event layer0 "OBJECTID" (PyInt 4326)
                     (Vocabulary vocabulary)) s in
  portal s' = portal s ∧ baseUrl s' = baseUrl s ∧ cw_token s' = cw_token s.
Proof.
  apply (fault_discards_batch W0 event layer0 "OBJECTID" (PyInt 4326)
           (Vocabulary vocabulary) (ready [pothole; Faults.unmapped] [])
           (KeyError "desc")).
  vm_compute. reflexivity.
Defined.

Lemma copy_comments_payload_witness :
  ∃ values,
    copy_comments W0 remark done_before [("Comments", "comment")] ("RequestId", "REPORTID")
      (ready [done_before] [remark]) =
      (answer W0 (comment_request base (PyStr "tok") values),
       add_request (comment_request base (PyStr "tok") values)
         (ready [done_before] [remark])) ∧
    ("RequestId" ∉ List.map fst [("Comments", "comment")] →
     values !! "RequestId" = Some (PyInt 5)) ∧
    (NoDup (List.map fst [("Comments", "comment")]) →
     ∀ c a v, (c, a) ∈ [("Comments", "comment")] → attributes remark !! a = Some v →
              values !! c = Some v) ∧
    (∀ k, is_Some (values !! k) →
          k = "RequestId" ∨ k ∈ List.map fst [("Comments", "comment")]).
Proof.
  apply (proj1 (copy_comments_payload W0 remark done_before [("Comments", "comment")]
                  ("RequestId", "REPORTID") (ready [done_before] [remark])) (PyInt 5)).
  - reflexivity.
  - repeat constructor. eexists. reflexivity.
Defined.

Lemma one_upload_per_attachment_witness :
  value (copy_attachments W0 layer0 (PyInt 1) (PyInt 7)) (ready [pothole] []) = Ok tt ∧
  requests (after (copy_attachments W0 layer0 (PyInt 1) (PyInt 7)) (ready [pothole] [])) =
    (requests (ready [pothole] []) ++
     List.map (upload_request base (PyStr "tok") (PyInt 7)) ["/tmp/1.png"; "/tmp/2.png"])%list.
Proof.
  apply (one_upload_per_attachment W0 layer0 (PyInt 1) (PyInt 7)
           [PyDict [("id", PyInt 1)]; PyDict [("id", PyInt 2)]]
           ["/tmp/1.png"; "/tmp/2.png"] (ready [pothole] [])).
  - reflexivity.
  - constructor; [|constructor; [|constructor]].
    + exists (PyInt 1). split; [reflexivity|]. split; [reflexivity|].
      eexists. split; [reflexivity|]. exists (PyInt 0). split; [reflexivity|]. discriminate.
    + exists (PyInt 2). split; [reflexivity|]. split; [reflexivity|].
      eexists. split; [reflexivity|]. exists (PyInt 1). split; [reflexivity|].
      intros _. eexists. reflexivity.
Defined.

Lemma get_parent_first_match_witness :
  get_parent W0 layer0 "GlobalID" remark "parentid" (ready [pothole; done_before] [remark]) =
    (Ok done_before, ready [pothole; done_before] [remark]).
Proof.
  apply (get_parent_first_match W0 layer0 "GlobalID" remark "parentid"
           (ready [pothole; done_before] [remark]) (reports [pothole; done_before])
           (PyStr "g3") [pothole] done_before []).
  - reflexivity.
  - reflexivity.
  - reflexivity.
  - repeat constructor.
  - reflexivity.
Defined.

Lemma table_url_replaces_last_segment_witness :
  table_url ("https://gis/FeatureServer" ++ "/" ++ "0")
    {| relatedTableId := 1; keyField := "GlobalID" |} =
    "https://gis/FeatureServer" ++ "/" ++ pretty 1 ∧
  table_url "0" {| relatedTableId := 1; keyField := "GlobalID" |} = pretty 1.
Proof.
  apply (table_url_replaces_last_segment "https://gis/FeatureServer" "0"
           {| relatedTableId := 1; keyField := "GlobalID" |}).
  reflexivity.
Defined.

Lemma layer_without_related_table_faults_witness :
  let s := Faults.ready_on (<[layer0 := Faults.lonely [pothole]]> ∅) in
  process_layer W0 event (PyInt 4326) (Vocabulary vocabulary) layer0 s =
    (Raise (IndexError "list index out of range"),
     after (sync_rows W0 event layer0 "OBJECTID" (PyInt 4326) (Vocabulary vocabulary)) s).
Proof.
  unshelve eapply (proj1 (layer_without_related_table_faults W0 event (PyInt 4326)
                            (Vocabulary vocabulary) layer0
                            (Faults.ready_on (<[layer0 := Faults.lonely [pothole]]> ∅))
                            (Faults.lonely [pothole]) _ _ _)).
  - reflexivity.
  - vm_compute. reflexivity.
  - reflexivity.
Defined.

Lemma related_oid_read_by_layer_field_witness :
  let s := Faults.ready_on (<[table1 := Faults.notes [Faults.note]]>
                              (<[layer0 := reports [done_before]]> ∅)) in
  sync_related W0 event layer0 table1 "OBJECTID" s = (Raise (KeyError "OBJECTID"), s).
Proof.
  apply (related_oid_read_by_layer_field W0 event layer0 table1 "OBJECTID"
           (Faults.ready_on (<[table1 := Faults.notes [Faults.note]]>
                               (<[layer0 := reports [done_before]]> ∅)))
           (reports [done_before]) (Faults.notes [Faults.note])
           {| relatedTableId := 1; keyField := "GlobalID" |} []
           {| relatedTableId := 0; keyField := "parentid" |} []
           Faults.note []).
  - reflexivity.
  - reflexivity.
  - reflexivity.
  - reflexivity.
  - reflexivity.
  - reflexivity.
Defined.


Lemma fault_stops_remaining_layers_witness :
  let s := initial_state (<[Faults.layer2 := reports [blank]]>
                            (the_portal [done_before] [orphan])) in
  main W0 Faults.two_layers s =
    (Ok tt,
     add_stdout ("error: " ++ "list index out of range" ++ nl)
       (after (process_layer W0 Faults.two_layers (PyInt 4326) (Vocabulary vocabulary) layer0)
          (after (setup W0 Faults.two_layers) (started W0 Faults.two_layers s)))).
Proof.
  apply (fault_stops_remaining_layers W0 Faults.two_layers
           (initial_state (<[Faults.layer2 := reports [blank]]>
                             (the_portal [done_before] [orphan])))
           (PyInt 4326, Vocabulary vocabulary)
           (after (setup W0 Faults.two_layers)
              (started W0 Faults.two_layers
                 (initial_state (<[Faults.layer2 := reports [blank]]>
                                   (the_portal [done_before] [orphan])))))
           [] layer0 [Faults.layer2]
           (after (setup W0 Faults.two_layers)
              (started W0 Faults.two_layers
                 (initial_state (<[Faults.layer2 := reports [blank]]>
                                   (the_portal [done_before] [orphan])))))
           (IndexError "list index out of range")).
  - vm_compute. reflexivity.
  - reflexivity.
  - reflexivity.
  - vm_compute. reflexivity.
Defined.

Lemma layer_pass_writes_two_services_witness :
  let s := Faults.ready_on (<[Faults.layer2 := reports [blank]]>
                              (the_portal [pothole] [remark])) in
  portal (after (process_layer W0 event (PyInt 4326) (Vocabulary vocabulary) layer0) s)
    !! Faults.layer2 = portal s !! Faults.layer2.
Proof.
  apply (layer_pass_writes_two_services W0 event (PyInt 4326) (Vocabulary vocabulary)
           layer0 Faults.layer2).
  - discriminate.
  - intros d Hd. vm_compute in Hd. injection Hd as <-. vm_compute. discriminate.
Defined.

Lemma idle_layer_only_prints_witness :
  process_layer W0 event (PyInt 4326) (Vocabulary vocabulary) layer0
    (ready [done_before] []) =
    (Ok tt, add_stdout ("Finished processing: " ++ "reports" ++ nl) (ready [done_before] [])).
Proof.
  apply (idle_layer_only_prints W0 event (PyInt 4326) (Vocabulary vocabulary) layer0
           (ready [done_before] []) (reports [done_before]) (comments [])
           {| relatedTableId := 1; keyField := "GlobalID" |} []
           {| relatedTableId := 0; keyField := "parentid" |} []).
  - reflexivity.
  - reflexivity.
  - reflexivity.
  - reflexivity.
  - repeat constructor.
  - constructor.
Defined.


Lemma related_record_calls_witness :
  let s := ready [done_before] [remark] in
  let m := process_related Faults.closed_requests event layer0 table1 "OBJECTID"
             "GlobalID" "parentid" remark [] in
  value m s = Ok [] ∧
  requests (after m s) =
    (requests s ++
     List.map (upload_request base (PyStr "tok") (PyInt 5)) ["/tmp/9.png"] ++
     [comment_request base (PyStr "tok")
        (comment_fields (attributes remark) [("Comments", "comment")]
           (<["RequestId" := PyInt 5]> ∅))])%list.
Proof.
  apply (related_record_calls Faults.closed_requests event layer0 table1 "OBJECTID"
           "GlobalID" "parentid" remark [] (ready [done_before] [remark])
           (PyInt 1) done_before (PyInt 5) [PyDict [("id", PyInt 9)]] ["/tmp/9.png"]
           (cw_response 1 [PyStr "Request closed"] None) (PyInt 1)).
  - reflexivity.
  - reflexivity.
  - reflexivity.
  - reflexivity.
  - constructor; [|constructor].
    exists (PyInt 9). split; [reflexivity|]. split; [reflexivity|].
    eexists. split; [reflexivity|]. exists (PyInt 0). split; [reflexivity|]. discriminate.
  - repeat constructor. eexists. reflexivity.
  - reflexivity.
  - reflexivity.
  - intros _. eexists. reflexivity.
Defined.

Lemma report_calls_witness :
  let s := ready [pothole] [] in
  let m := process_row W0 event layer0 "OBJECTID" (Vocabulary vocabulary) pothole [] in
  value m s = Ok ([] ++ [written_back event (PyInt 7) pothole])%list ∧
  requests (after m s) =
    (requests s ++
     create_request base (PyStr "tok")
       (create_payload (attributes pothole) [("Comments", "desc")]
          (PyInt 500100) (PyInt 4649800) "ProblemSid" 42) ::
     List.map (upload_request base (PyStr "tok") (PyInt 7))
       ["/tmp/1.png"; "/tmp/2.png"])%list.
Proof.
  apply (report_calls W0 event layer0 "OBJECTID" vocabulary pothole [] (ready [pothole] [])
           (PyInt 1) 42 (PyInt 500100) (PyInt 4649800) create_ok (PyInt 7)
           [PyDict [("id", PyInt 1)]; PyDict [("id", PyInt 2)]]
           ["/tmp/1.png"; "/tmp/2.png"] pothole []).
  - reflexivity.
  - exists "pothole". split; reflexivity.
  - repeat constructor. eexists. reflexivity.
  - reflexivity.
  - reflexivity.
  - reflexivity.
  - reflexivity.
  - reflexivity.
  - reflexivity.
  - constructor; [|constructor; [|constructor]].
    + exists (PyInt 1). split; [reflexivity|]. split; [reflexivity|].
      eexists. split; [reflexivity|]. exists (PyInt 0). split; [reflexivity|]. discriminate.
    + exists (PyInt 2). split; [reflexivity|]. split; [reflexivity|].
      eexists. split; [reflexivity|]. exists (PyInt 1). split; [reflexivity|].
      intros _. eexists. reflexivity.
  - reflexivity.
Defined.
